(** * Verification of the crawl engine of [utilsknowledge]

    A shallow embedding of the Python classes of the package, the
    properties the design document states about them, and further
    properties read off the code:

    - [WebHtmlExtractor] ([WebHtmlExtractor.py]): the fetcher, with its
      recursive retry and its backoff arithmetic, for the [requests] and
      the [selenium] strategy;
    - [WebCrawler] ([WebCrawler.py]): the crawl loop, the code-block
      extraction with its per-call fingerprint set, the formatting
      preservation and the language detection;
    - [Html2Text] ([Html2Text.py]) shares [_preserve_code_formatting] and
      [_detect_language] with [WebCrawler] word for word, so one embedding
      serves both; its saving loop has a model of its own;
    - [WebSiteParser] ([web_services.py]): the link handler.

    External capabilities (the HTTP client, the browser driver, the HTML
    parser, [re.search], [html.unescape], [urljoin], [hash]) are
    parameters of the model: oracles for what the outside world answers,
    functions for what the library computes. *)

From Stdlib Require Import ZArith QArith Lia Lqa Bool Ascii String List.
From Stdlib Require Import DecimalString DecimalNat.
From stdpp Require Import gmap strings list.
From Equations Require Import Equations.

Local Open Scope Z_scope.
Local Open Scope string_scope.
Local Open Scope list_scope.

(** ** Python results: a value or a raised exception *)

Inductive pyexn : Type :=
| ValueError              (* time.sleep on a negative number *)
| WebDriverException      (* selenium.common.exceptions *)
| TimeoutException        (* selenium.common.exceptions *)
| IndexError              (* a list index out of range *)
| AssertionError          (* a failed assert *)
| OtherError (tag : nat). (* anything else the outside world raises *)

Inductive result (A : Type) : Type :=
| Return (a : A)
| Raise (e : pyexn).
Arguments Return {A} a.
Arguments Raise {A} e.

(** ** Python floats

    A Python [float] is an IEEE binary64 number. The model keeps the
    finite values as rationals and rounds a product as the hardware
    does: to 53 significant bits, to the nearest value, a tie to the
    even one. The exponent is not bounded: the delays of the fetcher are
    far from both ends of the binary64 range. *)

Module PyFloat.

(** The integer nearest to [n / d]; a tie goes to the even one. *)
Definition round_half_even (n d : Z) : Z :=
  let q := n / d in
  let r := n mod d in
  match (2 * r ?= d)%Z with
  | Lt => q
  | Gt => q + 1
  | Eq => if Z.even q then q else q + 1
  end.

(** [2 ^ e] as a rational, [e] of either sign. *)
Definition two_to (e : Z) : Q :=
  inject_Z (2 ^ Z.max 0 e) / inject_Z (2 ^ Z.max 0 (- e)).

(** [(n / d) / 2 ^ e] as a fraction of integers. *)
Definition scaled (n d : positive) (e : Z) : Z * Z :=
  (Zpos n * 2 ^ Z.max 0 (- e), Zpos d * 2 ^ Z.max 0 e).

(** The exponent [e] with [2^52 <= (n / d) / 2^e < 2^53]. *)
Definition exponent (n d : positive) : Z :=
  let e0 := Z.log2 (Zpos n) - Z.log2 (Zpos d) - 53 in
  if (2 ^ 53 * snd (scaled n d e0) <=? fst (scaled n d e0))%Z then e0 + 1 else e0.

(** The positive rational [n / d] rounded to 53 significant bits. *)
Definition round_pos (n d : positive) : Q :=
  let e := exponent n d in
  Qred (inject_Z (round_half_even (fst (scaled n d e)) (snd (scaled n d e))) * two_to e).

(** A rational rounded to the nearest value of 53 significant bits. *)
Definition round_float (x : Q) : Q :=
  match Qnum x with
  | Z0 => 0
  | Zpos n => round_pos n (Qden x)
  | Zneg n => - round_pos n (Qden x)
  end.

(** [x * y] on floats *)
Definition float_mul (x y : Q) : Q := round_float (x * y).

End PyFloat.

(** ** The fetcher: [WebHtmlExtractor] *)

Module WebHtmlExtractor.
Import PyFloat.

Inductive http_method : Type := get | post.

(** A header dictionary maps names to a string or to [None]
    (the default header carries ['Cookie': None]). *)
Abbreviation headers := (gmap string (option string)).
Abbreviation payload := (gmap string string).

(** The dictionary every fetch returns. *)
Record html_dict : Type := mk_html_dict {
  url_of : string;
  host_url : string;
  text : option string;
  status : bool
}.

(** What [requests.get]/[requests.post] is called with. *)
Record request : Type := mk_request {
  req_method : http_method;
  req_url : string;
  req_headers : headers;
  req_data : option payload;   (* [None] for a GET: no [data=] argument *)
  req_timeout : Q
}.

Record response : Type := mk_response {
  status_code : Z;
  response_url : string;
  response_text : string
}.

(** What [requests] raises: every exception of the library is a
    [RequestException], [Timeout] among them; line 198 catches them all. *)
Inductive request_error : Type := Timeout | RequestException.

Inductive http_outcome : Type :=
| Responded (r : response)
| Failed (e : request_error).

(** One browser session, as the outside world lets it unfold. *)
Inductive page_load : Type :=
| GetRaises (e : pyexn)        (* driver.get(url) raises *)
| WaitRaises (e : pyexn)       (* wait.until(...) raises *)
| Loaded (page_source current_url : string).

Inductive browser_outcome : Type :=
| CreateRaises (e : pyexn)     (* webdriver.Chrome(...) raises: no driver *)
| Created (load : string -> Q -> page_load).
                               (* a session; what loading a URL under a
                                  wait timeout then does *)

(** The immutable attributes of an instance (set once in [__init__]). *)
Record settings : Type := mk_settings {
  max_retry_times : Z;
  time_sleep : Q;
  time_out : Q
}.

(** [__init__]'s defaults: [time_sleep=1, time_out=20, max_retry_times=3]. *)
Definition default_settings : settings :=
  {| max_retry_times := 3; time_sleep := 1; time_out := 20 |}.

(** The mutable attributes of the instance ([self.header], [self.data])
    and everything the instance does to the outside world. *)
Record World : Type := mk_World {
  self_header : headers;
  self_data : payload;
  slept : list Q;              (* arguments of time.sleep, oldest first *)
  sent : list request;         (* requests issued, oldest first *)
  ua_drawn : nat;              (* draws of UserAgent().random so far *)
  drivers_created : nat;       (* calls of webdriver.Chrome so far *)
  open_drivers : gset nat;     (* sessions started and not yet quit *)
  quit_log : list nat          (* driver.quit() calls, oldest first *)
}.

Definition M (A : Type) : Type := World -> result A * World.

Definition ret {A} (a : A) : M A := fun w => (Return a, w).
Definition raise {A} (e : pyexn) : M A := fun w => (Raise e, w).
Definition bind {A B} (m : M A) (k : A -> M B) : M B :=
  fun w => match m w with
           | (Return a, w') => k a w'
           | (Raise e, w') => (Raise e, w')
           end.

Notation "'let*' x ':=' m 'in' k" := (bind m (fun x => k))
  (at level 10, x pattern, m at level 100, k at level 200, only parsing).

(** [try: m finally: f]: [f] runs on both exits of [m]; an exception of
    [m] is re-raised after [f] unless [f] raises itself. *)
Definition try_finally {A} (m : M A) (f : M unit) : M A :=
  fun w => match m w with
           | (r, w') => match f w' with
                        | (Return _, w'') => (r, w'')
                        | (Raise e, w'') => (Raise e, w'')
                        end
           end.

Definition set_self_header (h : headers) : M unit :=
  fun w => (Return tt,
            mk_World h (self_data w) (slept w) (sent w) (ua_drawn w)
                     (drivers_created w) (open_drivers w) (quit_log w)).

Definition set_self_data (d : payload) : M unit :=
  fun w => (Return tt,
            mk_World (self_header w) d (slept w) (sent w) (ua_drawn w)
                     (drivers_created w) (open_drivers w) (quit_log w)).

Definition get_self_header : M headers := fun w => (Return (self_header w), w).
Definition get_self_data : M payload := fun w => (Return (self_data w), w).

(** [time.sleep(d)]: raises [ValueError] on a negative argument. *)
Definition sleep (d : Q) : M unit :=
  fun w => if Qlt_le_dec d 0 then (Raise ValueError, w)
           else (Return tt,
                 mk_World (self_header w) (self_data w) (slept w ++ [d]) (sent w)
                          (ua_drawn w) (drivers_created w) (open_drivers w)
                          (quit_log w)).

(** Python truthiness of an optional dictionary argument: [None] and the
    empty dictionary are false. *)
Definition truthy {V} (o : option (gmap string V)) : bool :=
  match o with
  | Some d => negb (bool_decide (d = ∅))
  | None => false
  end.

Section Fetcher.

(** The outside world: the answer to the k-th request issued, the k-th
    random user agent, the fate of the k-th browser session, and
    [urlsplit]'s view of a URL. *)
Variable network : nat -> request -> http_outcome.
Variable user_agent : nat -> string.
Variable browser : nat -> browser_outcome.
Variable urlsplit_scheme urlsplit_netloc : string -> string.

Variable self : settings.

(** [UserAgent().random] *)
Definition random_user_agent : M string :=
  fun w => (Return (user_agent (ua_drawn w)),
            mk_World (self_header w) (self_data w) (slept w) (sent w)
                     (S (ua_drawn w)) (drivers_created w) (open_drivers w)
                     (quit_log w)).

(** [requests.get]/[requests.post]: logs the request; the network decides. *)
Definition send (r : request) : M http_outcome :=
  fun w => (Return (network (List.length (sent w)) r),
            mk_World (self_header w) (self_data w) (slept w) (sent w ++ [r])
                     (ua_drawn w) (drivers_created w) (open_drivers w)
                     (quit_log w)).

Definition split_host_url (url : string) : string :=
  if String.eqb url "" then ""
  else urlsplit_scheme url +:+ "://" +:+ urlsplit_netloc url.

(** [get_request_html], lines 147-210. The recursion is the source's: the
    retry is a self-call with [retry_times + 1], guarded by
    [retry_times <= self.max_retry_times]. *)
Equations? get_request_html (url : string) (method : http_method)
    (time_sleep_arg : option Q) (retry_times : Z)
    (header : option headers) (data : option payload) (time_out_arg : option Q)
    : M html_dict
    by wf (Z.to_nat (max_retry_times self + 1 - retry_times)) lt :=
get_request_html url method time_sleep_arg retry_times header data time_out_arg :=
  let* _ := (if truthy header
             then set_self_header (default ∅ header)
             else (let* ua := random_user_agent in
                   let* h0 := get_self_header in
                   set_self_header (<["User-Agent" := Some ua]> h0))) in
  let* _ := (if truthy data then set_self_data (default ∅ data) else ret tt) in
  let time_out' := default (time_out self) time_out_arg in
  let time_sleep' := default (time_sleep self) time_sleep_arg in
  let* _ := sleep time_sleep' in
  let d0 := {| url_of := url; host_url := split_host_url url;
               text := None; status := false |} in
  let* h := get_self_header in
  let* dat := get_self_data in
  let* out := send (match method with
                    | get => mk_request get url h None time_out'
                    | post => mk_request post url h (Some dat) time_out'
                    end) in
  let retry (_ : unit) :=
    match Z_le_dec retry_times (max_retry_times self) with
    | left _ => get_request_html url method (Some (float_mul time_sleep' (3 # 2)))
                  (retry_times + 1) None None None
    | right _ => ret d0
    end in
  match out with
  | Responded r =>
      if (status_code r =? 200)%Z then
        ret {| url_of := response_url r;
               host_url := split_host_url (response_url r);
               text := Some (response_text r); status := true |}
      else retry tt
  | Failed _ => retry tt
  end.
Proof. all: lia. Qed.

(** *** Notions the statements about [get_request_html] are phrased in *)

(** The world after lines 153-168 of a call: [self.header] and
    [self.data] settled, the delay slept. *)
Definition after_prologue (header : option headers) (data : option payload)
    (ts : Q) (w : World) : World :=
  mk_World
    (if truthy header then default ∅ header
     else <["User-Agent" := Some (user_agent (ua_drawn w))]> (self_header w))
    (if truthy data then default ∅ data else self_data w)
    (slept w ++ [ts]) (sent w)
    (if truthy header then ua_drawn w else S (ua_drawn w))
    (drivers_created w) (open_drivers w) (quit_log w).

(** The request lines 180-183 issue in world [w]. *)
Definition the_request (url : string) (method : http_method) (time_out' : Q)
    (w : World) : request :=
  match method with
  | get => mk_request get url (self_header w) None time_out'
  | post => mk_request post url (self_header w) (Some (self_data w)) time_out'
  end.

Definition after_send (q : request) (w : World) : World :=
  mk_World (self_header w) (self_data w) (slept w) (sent w ++ [q])
           (ua_drawn w) (drivers_created w) (open_drivers w) (quit_log w).

(** Line 186: the attempt succeeds on status 200 only. *)
Definition ok_response (o : http_outcome) : bool :=
  match o with
  | Responded r => (status_code r =? 200)%Z
  | Failed _ => false
  end.

(** The dictionary as initialised on lines 171-176. *)
Definition failure_dict (url : string) : html_dict :=
  {| url_of := url; host_url := split_host_url url;
     text := None; status := false |}.

(** The dictionary as filled on lines 188-191. *)
Definition success_dict (o : http_outcome) : html_dict :=
  match o with
  | Responded r =>
      {| url_of := response_url r; host_url := split_host_url (response_url r);
         text := Some (response_text r); status := true |}
  | Failed _ => failure_dict ""
  end.

(** The header and the payload a call works with once lines 153-161 have
    run: the argument when it is truthy, the instance attribute otherwise. *)
Definition eff_header (header : option headers) (w : World) : headers :=
  if truthy header then default ∅ header else self_header w.

Definition eff_data (data : option payload) (w : World) : payload :=
  if truthy data then default ∅ data else self_data w.

(** What every request of one call has in common. *)
Definition request_of_call (url : string) (m : http_method) (h : headers)
    (d : payload) (q : request) : Prop :=
  req_url q = url /\ req_method q = m /\
  delete "User-Agent" (req_headers q) = delete "User-Agent" h /\
  req_data q = match m with get => None | post => Some d end.

(** The delays of a backoff that starts at [d] and multiplies by 1.5,
    as line 207 does: in floats. *)
Fixpoint backoff (d : Q) (k : nat) : list Q :=
  match k with
  | O => []
  | S k' => d :: backoff (float_mul d (3 # 2)) k'
  end.

(** [driver.quit()] *)
Definition quit (k : nat) : M unit :=
  fun w => (Return tt,
            mk_World (self_header w) (self_data w) (slept w) (sent w)
                     (ua_drawn w) (drivers_created w)
                     (open_drivers w ∖ {[k]}) (quit_log w ++ [k])).

(** [if driver: driver.quit()] *)
Definition quit_if (driver : option nat) : M unit :=
  match driver with
  | Some k => quit k
  | None => ret tt
  end.

(** [webdriver.Chrome(options=options)]: the k-th call either raises or
    yields session k, which is then open. *)
Definition chrome : World -> (pyexn + nat * (string -> Q -> page_load)) * World :=
  fun w =>
    let k := drivers_created w in
    match browser k with
    | CreateRaises e =>
        (inl e, mk_World (self_header w) (self_data w) (slept w) (sent w)
                         (ua_drawn w) (S k) (open_drivers w) (quit_log w))
    | Created p =>
        (inr (k, p), mk_World (self_header w) (self_data w) (slept w) (sent w)
                              (ua_drawn w) (S k) ({[k]} ∪ open_drivers w)
                              (quit_log w))
    end.

Definition is_selenium_error (e : pyexn) : bool :=
  match e with
  | WebDriverException | TimeoutException => true
  | _ => false
  end.

(** The [try:] block of [get_selenium_html], lines 240-267. It returns the
    locals it leaves behind, [driver] and [html_dict], and the exception
    it was left by, if any. *)
Definition selenium_try (url : string) (time_sleep' time_out' : Q) (d0 : html_dict)
    : World -> (option nat * html_dict * option pyexn) * World :=
  fun w =>
    match chrome w with
    | (inl e, w1) => ((None, d0, Some e), w1)
    | (inr (k, load), w1) =>
        match sleep time_sleep' w1 with
        | (Raise e, w2) => ((Some k, d0, Some e), w2)
        | (Return _, w2) =>
            match load url time_out' with
            | GetRaises e => ((Some k, d0, Some e), w2)
            | WaitRaises e => ((Some k, d0, Some e), w2)
            | Loaded page_source current_url =>
                match sleep time_sleep' w2 with
                | (Raise e, w3) => ((Some k, d0, Some e), w3)
                | (Return _, w3) =>
                    ((Some k,
                      {| url_of := current_url;
                         host_url := split_host_url current_url;
                         text := Some page_source; status := true |},
                      None), w3)
                end
            end
        end
    end.

(** [get_selenium_html], lines 212-289: [try] / [except (WebDriverException,
    TimeoutException)] / [finally]. The handler's [return] of the retry
    still passes through [finally]. *)
Equations? get_selenium_html (url : string) (method : http_method)
    (time_sleep_arg : option Q) (retry_times : Z) (headless : bool)
    (time_out_arg : option Q)
    : M html_dict
    by wf (Z.to_nat (max_retry_times self + 1 - retry_times)) lt :=
get_selenium_html url method time_sleep_arg retry_times headless time_out_arg :=
  match method with
  | post => raise AssertionError
  | get =>
    let time_out' := default (time_out self) time_out_arg in
    let time_sleep' := default (time_sleep self) time_sleep_arg in
    let d0 := {| url_of := url; host_url := split_host_url url;
                 text := None; status := false |} in
    let* _ := random_user_agent in
    fun w =>
      match selenium_try url time_sleep' time_out' d0 w with
      | ((driver, html_dict, None), w1) =>
          try_finally (ret html_dict) (quit_if driver) w1
      | ((driver, html_dict, Some e), w1) =>
          if is_selenium_error e then
            match Z_le_dec retry_times (max_retry_times self) with
            | left _ =>
                try_finally
                  (let* _ := quit_if driver in
                   get_selenium_html url get (Some (float_mul time_sleep' (3 # 2)))
                     (retry_times + 1) headless None)
                  (quit_if driver) w1
            | right _ => try_finally (ret html_dict) (quit_if driver) w1
            end
          else try_finally (raise e) (quit_if driver) w1
      end
  end.
Proof. lia. Qed.

Inductive reptile_lib : Type := requests | selenium.

(** [get_html_dict], lines 126-145 *)
Definition get_html_dict (url : string) (lib : reptile_lib) (method : http_method)
    (selenium_headless : bool) (time_sleep_arg time_out_arg : option Q)
    : M html_dict :=
  let time_out' := default (time_out self) time_out_arg in
  let time_sleep' := default (time_sleep self) time_sleep_arg in
  match lib with
  | requests =>
      get_request_html url method (Some time_sleep') 1 None None (Some time_out')
  | selenium =>
      get_selenium_html url method (Some time_sleep') 1 selenium_headless
        (Some time_out')
  end.

(** The loop of [save_1_jump_url_in_base], lines 109-124, over the
    sub-URLs that follow the first; it yields the dictionaries it hands
    to [save_jsonl]. *)
Fixpoint save_sub_urls (lib : reptile_lib) (method : http_method)
    (time_sleep' time_out' : Q) (sub_urls : list string) : M (list html_dict) :=
  match sub_urls with
  | [] => ret []
  | sub_url :: rest =>
      let* sub_html_dict :=
        get_html_dict sub_url lib method true (Some time_sleep') (Some time_out') in
      let* saved := save_sub_urls lib method time_sleep' time_out' rest in
      ret (if status sub_html_dict then sub_html_dict :: saved else saved)
  end.

End Fetcher.

Definition status_of_result (r : result html_dict) : option bool :=
  match r with
  | Return d => Some (status d)
  | Raise _ => None
  end.

Definition session_created (o : browser_outcome) : Prop :=
  match o with
  | Created _ => True
  | CreateRaises _ => False
  end.

(** What a call that takes the world from [w] to [w'] has done when it
    left open no session it started. *)
Definition releases (browser : nat -> browser_outcome) (w w' : World) : Prop :=
  open_drivers w' ⊆ open_drivers w /\
  (drivers_created w <= drivers_created w')%nat /\
  forall k, (drivers_created w <= k < drivers_created w')%nat ->
            session_created (browser k) ->
            k ∈ quit_log w' /\ k ∉ open_drivers w'.

(** A session that ends in an error of Selenium's on [url], whatever the
    wait timeout: at creation, on [driver.get] or on the wait. *)
Definition session_fails (url : string) (o : browser_outcome) : Prop :=
  match o with
  | CreateRaises e => is_selenium_error e = true
  | Created load =>
      forall t, match load url t with
                | GetRaises e | WaitRaises e => is_selenium_error e = true
                | Loaded _ _ => False
                end
  end.

(** A session that ends in the error [e] on [url], whatever the wait
    timeout. *)
Definition session_breaks (url : string) (e : pyexn) (o : browser_outcome) : Prop :=
  match o with
  | CreateRaises e' => e' = e
  | Created load => forall t, load url t = GetRaises e \/ load url t = WaitRaises e
  end.

(** *** Scenarios *)

(** A fresh instance that has done nothing yet. *)
Definition idle : World := mk_World ∅ ∅ [] [] 0 0 ∅ [].

(** A server that answers 500 to everything. *)
Definition always_500 : nat -> request -> http_outcome :=
  fun _ q => Responded (mk_response 500 (req_url q) "Internal Server Error").

(** A server that answers 500 on one URL and 200 elsewhere. *)
Definition down_on (bad : string) : nat -> request -> http_outcome :=
  fun _ q => if String.eqb (req_url q) bad
             then Responded (mk_response 500 (req_url q) "")
             else Responded (mk_response 200 (req_url q) "<html></html>").

Definition fixed_agent : nat -> string := fun _ => "Mozilla/5.0".
Definition example_scheme : string -> string := fun _ => "https".
Definition example_netloc : string -> string := fun _ => "example.com".

(** A browser whose first two sessions crash on [driver.get] and whose
    later sessions load the page. *)
Definition flaky_browser : nat -> browser_outcome :=
  fun k => if (k <? 2)%nat
           then Created (fun _ _ => GetRaises WebDriverException)
           else Created (fun url _ => Loaded "<html></html>" url).

(** A browser whose sessions all die of an error that is not Selenium's. *)
Definition broken_browser : nat -> browser_outcome :=
  fun _ => Created (fun _ _ => WaitRaises (OtherError 0)).

(** A browser none of whose sessions gets past [driver.get]. *)
Definition dead_browser : nat -> browser_outcome :=
  fun _ => Created (fun _ _ => GetRaises WebDriverException).

(** A server that answers 503 twice and then 200, after a redirect. *)
Definition up_on_third : nat -> request -> http_outcome :=
  fun k q => if (k <? 2)%nat
             then Responded (mk_response 503 (req_url q) "")
             else Responded (mk_response 200 "https://example.com/home" "<html></html>").

(** The float 0.1, the binary64 value nearest to one tenth, and an
    instance configured with it as its base delay. *)
Definition tenth : Q := 3602879701896397 # 36028797018963968.
Definition tenth_settings : settings :=
  {| max_retry_times := 3; time_sleep := tenth; time_out := 20 |}.

Definition caller_header : headers := {[ "X-Token" := Some "abc" ]}.
Definition caller_data : payload := {[ "q" := "rocq" ]}.

End WebHtmlExtractor.

(** ** Python strings *)

(** Python's [str] is a sequence of code points; the model has the code
    points below 256, as [ascii]. *)
Module PyStr.

Definition newline : ascii := "010"%char.

(** [str.isspace] on one character: TAB to CR, FS to US and the space,
    NEL and the no-break space. *)
Definition is_space (c : ascii) : bool :=
  let n := nat_of_ascii c in
  ((9 <=? n) && (n <=? 13) || (28 <=? n) && (n <=? 32) || (n =? 133) || (n =? 160))%nat.

Fixpoint lstrip (s : string) : string :=
  match s with
  | String c s' => if is_space c then lstrip s' else s
  | EmptyString => EmptyString
  end.

Fixpoint rev_append (s acc : string) : string :=
  match s with
  | String c s' => rev_append s' (String c acc)
  | EmptyString => acc
  end.

Definition rev (s : string) : string := rev_append s "".

Definition rstrip (s : string) : string := rev (lstrip (rev s)).

(** [s.strip()] *)
Definition strip (s : string) : string := rstrip (lstrip s).

(** [s.strip(c)] for a one-character set *)
Fixpoint lstrip_char (c : ascii) (s : string) : string :=
  match s with
  | String c' s' => if Ascii.eqb c' c then lstrip_char c s' else s
  | EmptyString => EmptyString
  end.

Definition strip_char (c : ascii) (s : string) : string :=
  rev (lstrip_char c (rev (lstrip_char c s))).

(** [str(n)] for a natural number *)
Definition string_of_nat (n : nat) : string :=
  NilEmpty.string_of_uint (Nat.to_uint n).

(** [s[n:]] *)
Fixpoint slice_from (n : nat) (s : string) : string :=
  match n, s with
  | S n', String _ s' => slice_from n' s'
  | _, _ => s
  end.


(** [s.split(sep)] for a one-character separator *)
Fixpoint split_char (sep : ascii) (s : string) : list string :=
  match s with
  | EmptyString => [EmptyString]
  | String c s' =>
      if Ascii.eqb c sep then EmptyString :: split_char sep s'
      else match split_char sep s' with
           | h :: t => String c h :: t
           | [] => [String c EmptyString]
           end
  end.

(** [sep.join(l)] *)
Fixpoint join (sep : string) (l : list string) : string :=
  match l with
  | [] => EmptyString
  | [x] => x
  | x :: rest => x +:+ sep +:+ join sep rest
  end.

(** [s.startswith(p)] *)
Definition startswith (p s : string) : bool := String.prefix p s.

(** [s.endswith(p)] *)
Definition endswith (p s : string) : bool := String.prefix (rev p) (rev s).

(** [sub in s] *)
Fixpoint contains (sub s : string) : bool :=
  String.prefix sub s ||
  match s with
  | String _ s' => contains sub s'
  | EmptyString => false
  end.

Definition lower_char (c : ascii) : ascii :=
  let n := nat_of_ascii c in
  if ((65 <=? n) && (n <=? 90))%nat then ascii_of_nat (n + 32) else c.

(** [s.lower()] *)
Fixpoint lower (s : string) : string :=
  match s with
  | String c s' => String (lower_char c) (lower s')
  | EmptyString => EmptyString
  end.

(** [s.split(sep)] for a non-empty separator string: leftmost matches,
    not overlapping. [skip] counts the characters of a separator just
    matched that are still to be passed over; [cur] is the piece being
    read, reversed. *)
Fixpoint split_str_aux (sep s : string) (skip : nat) (cur : string) : list string :=
  match s with
  | EmptyString => [rev cur]
  | String c s' =>
      match skip with
      | S k => split_str_aux sep s' k cur
      | O => if String.prefix sep s
             then rev cur :: split_str_aux sep s' (String.length sep - 1) EmptyString
             else split_str_aux sep s' O (String c cur)
      end
  end.

Definition split_str (sep s : string) : list string := split_str_aux sep s 0 "".

Fixpoint take_word (s : string) : string :=
  match s with
  | String c s' => if is_space c then EmptyString else String c (take_word s')
  | EmptyString => EmptyString
  end.

(** [s.split()[0]]: the first word, or nothing ([IndexError]) when [s] is
    blank. *)
Definition first_word (s : string) : option string :=
  match lstrip s with
  | EmptyString => None
  | w => Some (take_word w)
  end.

(** Python truthiness of a string *)
Definition nonempty (s : string) : bool := negb (String.eqb s "").

(** [c in s] for one character *)
Fixpoint has_char (c : ascii) (s : string) : bool :=
  match s with
  | String c' s' => Ascii.eqb c' c || has_char c s'
  | EmptyString => false
  end.

(** [s.isspace()], true of the empty string here *)
Fixpoint all_space (s : string) : bool :=
  match s with
  | String c s' => is_space c && all_space s'
  | EmptyString => true
  end.

(** No character of [s] is whitespace: what a class token is like, the
    parser having split the attribute at whitespace. *)
Fixpoint no_space (s : string) : bool :=
  match s with
  | String c s' => negb (is_space c) && no_space s'
  | EmptyString => true
  end.

(** [s.replace(a, b)] for single characters *)
Fixpoint replace_char (a b : ascii) (s : string) : string :=
  match s with
  | String c s' => String (if Ascii.eqb c a then b else c) (replace_char a b s')
  | EmptyString => EmptyString
  end.

(** [os.path.join(a, b)] *)
Definition os_path_join (a b : string) : string :=
  if startswith "/" b then b
  else if String.eqb a "" || endswith "/" a then a +:+ b
  else a +:+ "/" +:+ b.

End PyStr.

(** ** The crawler: [WebCrawler] *)

Module WebCrawler.
Import PyStr.

(** *** The parsed page, as BeautifulSoup presents it *)

Inductive node : Type :=
| NavigableString (s : string)
| Tag (name : string) (class : option (list string)) (contents : list node).

(** [node._all_strings]: the text pieces below a node, in document order *)
Fixpoint all_strings (n : node) : list string :=
  match n with
  | NavigableString s => [s]
  | Tag _ _ contents => flat_map all_strings contents
  end.

(** [node.get_text(sep, strip=False)] *)
Definition get_text (sep : string) (n : node) : string := join sep (all_strings n).

Definition node_name (n : node) : option string :=
  match n with
  | NavigableString _ => None
  | Tag name _ _ => Some name
  end.

(** [node.get('class')] *)
Definition get_class (n : node) : option (list string) :=
  match n with
  | NavigableString _ => None
  | Tag _ class _ => class
  end.

Definition node_contents (n : node) : list node :=
  match n with
  | NavigableString _ => []
  | Tag _ _ contents => contents
  end.

(** [node.find(name)]: the first tag of that name strictly below the node,
    in document order *)
Fixpoint find_in (name : string) (n : node) : option node :=
  match n with
  | NavigableString _ => None
  | Tag nm _ contents =>
      if String.eqb nm name then Some n
      else (fix first (l : list node) : option node :=
              match l with
              | [] => None
              | c :: l' => match find_in name c with
                           | Some r => Some r
                           | None => first l'
                           end
              end) contents
  end.

Fixpoint find_first (name : string) (l : list node) : option node :=
  match l with
  | [] => None
  | c :: l' => match find_in name c with
               | Some r => Some r
               | None => find_first name l'
               end
  end.

Definition find (name : string) (n : node) : option node :=
  find_first name (node_contents n).

(** A tag where it stands in the page: the tag, its parent, and the two
    headings the page offers for it (the outcome of the searches with
    [find_previous], lines 213-220, and [find_parent], lines 223-232). *)
Record element : Type := mk_element {
  this : node;
  parent : option node;
  heading_above : option string;
  section_heading : option string
}.

Section Extraction.

(** Library functions: [html.unescape], [re.search] with and without
    [re.IGNORECASE], [hash]. *)
Variable unescape : string -> string.
Variable re_search : string -> string -> bool.
Variable re_search_ignorecase : string -> string -> bool.
Variable hash : string -> Z.
Variable re_sub : string -> string -> string -> string.
Variable urlparse_path : string -> string.

(** *** [_preserve_code_formatting], lines 288-342 *)

(** [len(line) - len(line.lstrip())] *)
Definition indent (line : string) : nat :=
  String.length line - String.length (lstrip line).

(** [if line.strip()] *)
Definition nonblank (line : string) : bool := nonempty (strip line).

(** Lines 308-312. [None] is [float('inf')]. *)
Fixpoint min_indent_from (acc : option nat) (lines : list string) : option nat :=
  match lines with
  | [] => acc
  | line :: rest =>
      if nonblank line then
        min_indent_from (Some (match acc with
                               | Some m => Nat.min m (indent line)
                               | None => indent line
                               end)) rest
      else min_indent_from acc rest
  end.

(** Lines 316-321 *)
Definition fix_lines (min_indent : nat) (lines : list string) : list string :=
  map (fun line => if nonblank line then slice_from min_indent line else line) lines.

(** Lines 304-324 *)
Definition fix_indentation (content : string) : string :=
  let lines := split_char newline content in
  if (1 <? List.length lines)%nat then
    match min_indent_from None lines with
    | Some min_indent => join (String newline "") (fix_lines min_indent lines)
    | None => content
    end
  else content.

(** Lines 332-341: the text of one child in the fallback branch *)
Definition child_text (child : node) : string :=
  match child with
  | NavigableString s => s
  | Tag name _ _ => if String.eqb name "br" then String newline ""
                    else get_text "" child
  end.

(** Lines 291-302: the text a [pre] block is read as *)
Definition block_text (element : node) : string :=
  unescape (match find "code" element with
            | Some code_element => get_text (String newline "") code_element
            | None => get_text (String newline "") element
            end).

(** The formatting as the design document words it: the minimum
    indentation of the non-blank lines is removed from each of them,
    whatever the number of lines. *)
Definition documented_formatting (content : string) : string :=
  let lines := split_char newline content in
  match min_indent_from None lines with
  | Some min_indent => join (String newline "") (fix_lines min_indent lines)
  | None => content
  end.

Definition _preserve_code_formatting (element : node) : string :=
  match node_name element with
  | Some name =>
      if String.eqb name "pre" then
        let content :=
          match find "code" element with
          | Some code_element => get_text (String newline "") code_element
          | None => get_text (String newline "") element
          end in
        fix_indentation (unescape content)
      else if String.eqb name "code" then
        unescape (get_text (String newline "") element)
      else unescape (join "" (map child_text (node_contents element)))
  | None => unescape (join "" (map child_text (node_contents element)))
  end.

(** *** [_detect_language], lines 344-409 *)

Definition known_languages : list string :=
  ["python"; "javascript"; "js"; "java"; "cpp"; "csharp"; "ruby"; "go"; "php";
   "html"; "css"; "sql"; "bash"; "shell"].

(** Lines 359-361 *)
Definition language_named_in (cls : string) : option string :=
  List.find (fun lang => contains lang (lower cls)) known_languages.

(** Lines 354-357: [None] when the [if]s fall through *)
Definition embedded_language (cls : string) : option (result string) :=
  if contains "language-" cls then
    let parts := split_str "language-" cls in
    match parts !! 1%nat with
    | Some part1 =>
        if nonempty part1 then
          Some (match first_word part1 with
                | Some w => Return w
                | None => Raise IndexError
                end)
        else None
    | None => None
    end
  else None.

(** Lines 350-361, for one class token: [Some] is a [return], [None] lets
    the loop go on to the next token. *)
Definition class_rules (cls : string) : option (result string) :=
  if startswith "language-" cls then
    Some (match split_char "-" cls !! 1%nat with
          | Some x => Return x
          | None => Raise IndexError
          end)
  else
    match embedded_language cls with
    | Some r => Some r
    | None => option_map Return (language_named_in cls)
    end.

Fixpoint scan_tokens (classes : list string) : option (result string) :=
  match classes with
  | [] => None
  | cls :: rest =>
      match class_rules cls with
      | Some r => Some r
      | None => scan_tokens rest
      end
  end.

(** Lines 348-361, for one of [element], [element.parent] *)
Definition scan_classes (el : option node) : option (result string) :=
  match el with
  | Some n =>
      match get_class n with
      | Some classes => scan_tokens classes
      | None => None
      end
  | None => None
  end.

(** Lines 363-409 *)
Definition content_rules (code_text : string) : string :=
  if re_search "def\s+\w+\s*\(.*\):" code_text
     || re_search "import\s+\w+" code_text
     || re_search "from\s+\w+\s+import" code_text then "python"
  else if re_search "(const|let|var)\s+\w+\s*=" code_text
     || re_search "function\s+\w+\s*\(" code_text
     || re_search "=>" code_text then "javascript"
  else if re_search "<\w+>.*</\w+>" code_text
     || re_search "<(div|span|p|a|img)[^>]*>" code_text then "html"
  else if re_search "[\.\#]\w+\s*\{[^}]*\}" code_text
     || re_search "@media" code_text then "css"
  else if re_search_ignorecase "SELECT|INSERT|UPDATE|DELETE|CREATE TABLE" code_text
  then "sql"
  else if re_search "(public|private|protected)\s+(static\s+)?\w+\s+\w+\s*\(" code_text
  then
    if re_search "System\.out\.println" code_text then "java"
    else if re_search "Console\.WriteLine" code_text then "csharp"
    else if re_search "std::" code_text then "cpp"
    else "java"
  else if re_search "^#!.*sh" code_text || re_search "\$\s+" code_text then "bash"
  else "text".

Definition _detect_language (e : element) : result string :=
  match scan_classes (Some (this e)) with
  | Some r => r
  | None =>
      match scan_classes (parent e) with
      | Some r => r
      | None => Return (content_rules (get_text "" (this e)))
      end
  end.

(** The priority order as the design document words it: (a) an explicit
    [language-<x>] token anywhere on the node or its parent, before (b) a
    known language named anywhere in those class lists, before (c) the
    content patterns, before (d) the plain-text label. *)
Definition class_tokens (e : element) : list string :=
  default [] (get_class (this e)) ++
  default [] (match parent e with Some n => get_class n | None => None end).

Definition explicit_language (cls : string) : option string :=
  if startswith "language-" cls then split_char "-" cls !! 1%nat else None.

Fixpoint first_some {A B} (f : A -> option B) (l : list A) : option B :=
  match l with
  | [] => None
  | x :: rest => match f x with
                 | Some y => Some y
                 | None => first_some f rest
                 end
  end.

Definition documented_language (e : element) : string :=
  match first_some explicit_language (class_tokens e) with
  | Some x => x
  | None =>
      match first_some language_named_in (class_tokens e) with
      | Some lang => lang
      | None => content_rules (get_text "" (this e))
      end
  end.

(** *** [extract_code_blocks], lines 185-286 *)

(** All the tags of a parsed page in document order, and the [href] of
    each [a] tag that has one. *)
Record page : Type := mk_page {
  anchors : list string;
  tags : list element
}.

Definition markers : list string :=
  ["code"; "highlight"; "syntax"; "language-"; "hljs"; "prettyprint"; "CodeMirror"].

(** The [class_] predicate of lines 190-191 *)
Definition marker_match (c : string) : bool :=
  nonempty c && existsb (fun x => contains x (lower c)) markers.

(** How BeautifulSoup applies a [class_] predicate: to each class token,
    then to the whole attribute; a tag without a class never matches. *)
Definition class_matches (class : option (list string)) : bool :=
  match class with
  | Some tokens => existsb marker_match tokens || marker_match (join " " tokens)
  | None => false
  end.

(** [soup.find_all(['pre', 'code'], class_=...)] *)
Definition find_code_elements (soup : page) : list element :=
  List.filter (fun e =>
            match this e with
            | Tag name class _ =>
                (String.eqb name "pre" || String.eqb name "code") && class_matches class
            | NavigableString _ => false
            end) (tags soup).

(** One metadata record, lines 279-284 *)
Record code_block : Type := mk_code_block {
  cb_url : string;
  cb_file : string;
  cb_heading : string;
  cb_language : string
}.

(** The files on disk, and, for the statements, the [code_text] of every
    code file written, oldest first. *)
Record disk : Type := mk_disk {
  files : gmap string string;
  emitted : list string
}.

Definition truthy_text (o : option string) : bool :=
  match o with
  | Some s => nonempty s
  | None => false
  end.

(** Lines 212-236 *)
Definition heading_for (e : element) : string :=
  if truthy_text (heading_above e) then default "" (heading_above e)
  else if truthy_text (section_heading e) then default "" (section_heading e)
  else "Code Example".

(** Lines 238-241 *)
Definition safe_heading_for (heading : string) (i : nat) : string :=
  let safe_heading := strip (re_sub "[^\w\s]" "" heading) in
  let safe_heading := re_sub "\s+" "_" safe_heading in
  if nonempty safe_heading then safe_heading
  else "code_example_" +:+ string_of_nat (i + 1).

(** Lines 247-253 *)
Definition subfolder_for (url : string) : string :=
  let path := strip_char "/" (urlparse_path url) in
  if nonempty path then
    match split_char "/" path with
    | part :: _ => part
    | [] => "main"
    end
  else "main".

(** Lines 264-266: the [while os.path.exists(...)] loop. Each round
    meets a file that exists, so [fuel] beyond the number of files is
    never used up. *)
Fixpoint free_filename (fs : gmap string string) (save_dir safe_heading : string)
    (filename : string) (count : nat) (fuel : nat) : string :=
  match fuel with
  | O => filename
  | S fuel' =>
      if bool_decide (is_Some (fs !! os_path_join save_dir filename)) then
        free_filename fs save_dir safe_heading
          (safe_heading +:+ "_" +:+ string_of_nat count +:+ ".md") (S count) fuel'
      else filename
  end.

(** The k-th name that loop tries: [heading.md], then [heading_k.md]. *)
Definition candidate (safe_heading : string) (k : nat) : string :=
  match k with
  | O => safe_heading +:+ ".md"
  | S _ => safe_heading +:+ "_" +:+ string_of_nat k +:+ ".md"
  end.

(** Lines 270-276 *)
Definition file_text (url language code_text : string) : string :=
  url +:+ String newline (String newline "") +:+
  "```" +:+ language +:+ String newline "" +:+
  code_text +:+
  (if endswith (String newline "") code_text then "" else String newline "") +:+
  "```" +:+ String newline "".

(** The [for] loop of lines 196-284. An exception raised by
    [_detect_language] leaves the loop and the function; what was
    written before stays on disk. *)
Fixpoint extract_loop (url code_dir : string) (i : nat) (code_elements : list element)
    (processed_content : gset Z) (code_blocks : list code_block) (d : disk)
    : result (list code_block) * disk :=
  match code_elements with
  | [] => (Return code_blocks, d)
  | element :: rest =>
      let code_text := _preserve_code_formatting (this element) in
      if negb (nonempty code_text) || (String.length (strip code_text) <? 15)%nat then
        extract_loop url code_dir (S i) rest processed_content code_blocks d
      else
        let content_hash := hash code_text in
        if bool_decide (content_hash ∈ processed_content) then
          extract_loop url code_dir (S i) rest processed_content code_blocks d
        else
          let processed_content := {[content_hash]} ∪ processed_content in
          match _detect_language element with
          | Raise e => (Raise e, d)
          | Return language =>
              let heading := heading_for element in
              let safe_heading := safe_heading_for heading i in
              let save_dir := os_path_join code_dir (subfolder_for url) in
              let filename :=
                free_filename (files d) save_dir safe_heading
                  (safe_heading +:+ ".md") 1 (S (size (files d))) in
              let file_path := os_path_join save_dir filename in
              let d := mk_disk (<[file_path := file_text url language code_text]> (files d))
                               (emitted d ++ [code_text]) in
              extract_loop url code_dir (S i) rest processed_content
                (code_blocks ++ [mk_code_block url file_path heading language]) d
          end
  end.

Definition extract_code_blocks (soup : page) (url code_dir : string) (d : disk)
    : result (list code_block) * disk :=
  extract_loop url code_dir 0 (find_code_elements soup) ∅ [] d.

(** *** [crawl], lines 22-183 *)

(** What [requests.get] answers. *)
Inductive web_answer : Type :=
| GetFails                                  (* it raises *)
| Answered (status_code : Z) (text : string).

(** The outside world of a crawl: the answer to the k-th [requests.get],
    the parser, [urljoin], which raises [ValueError] on a malformed URL,
    and [urlparse]. *)
Variable web : nat -> string -> web_answer.
Variable parse : string -> page.
Variable urljoin : string -> string -> result string.
Variable urlparse_scheme urlparse_netloc : string -> string.

(** One line of the HTML file, lines 78-83 *)
Record html_data : Type := mk_html_data {
  hd_url : string;
  hd_text : string;
  hd_status : bool;
  hd_host_url : string
}.

(** The state the workers share, and, for the statements, the URLs
    [requests.get] was called on, oldest first. *)
Record crawl_state : Type := mk_state {
  processed_urls : gset string;
  url_queue : list (string * Z);
  html_file : list html_data;
  code_data : list code_block;
  on_disk : disk;
  fetched : list string
}.

Section Run.

Variable start_url : string.
Variable max_depth : Z.

Definition domain_prefix : string :=
  urlparse_scheme start_url +:+ "://" +:+ urlparse_netloc start_url.

Definition code_dir : string :=
  "data/code/" +:+ replace_char "." "_" (urlparse_netloc start_url).

(** Lines 104-106 *)
Definition skipped_href (href : string) : bool :=
  startswith "#" href || startswith "javascript:" href || startswith "mailto:" href.

(** Lines 109-112 *)
Definition next_url_of (url href : string) : result string :=
  match urljoin url href with
  | Raise e => Raise e
  | Return joined =>
      Return match split_char "#" joined with
             | u :: _ => u
             | [] => ""
             end
  end.

(** The [for link in links] loop, lines 101-118. An exception of
    [urljoin] leaves the loop: the links before it stay queued. *)
Fixpoint queue_links (url : string) (depth : Z) (links : list string)
    (st : crawl_state) : result unit * crawl_state :=
  match links with
  | [] => (Return tt, st)
  | href :: rest =>
      if skipped_href href then queue_links url depth rest st
      else
        match next_url_of url href with
        | Raise e => (Raise e, st)
        | Return next_url =>
            if startswith domain_prefix next_url
               && negb (bool_decide (next_url ∈ processed_urls st)) then
              queue_links url depth rest
                (mk_state (processed_urls st) (url_queue st ++ [(next_url, depth + 1)])
                          (html_file st) (code_data st) (on_disk st) (fetched st))
            else queue_links url depth rest st
        end
  end.

(** Line 51 *)
Definition already_processed (url : string) (st : crawl_state) : bool :=
  bool_decide (url ∈ processed_urls st).

(** Lines 55-56 *)
Definition mark_processed (url : string) (st : crawl_state) : crawl_state :=
  mk_state ({[url]} ∪ processed_urls st) (url_queue st) (html_file st)
           (code_data st) (on_disk st) (fetched st).

(** Lines 58-129: the [try] block of [process_url] with its handler *)
Definition fetch_and_extract (url : string) (depth : Z) (st : crawl_state)
    : option html_data * crawl_state :=
  let answer := web (List.length (fetched st)) url in
  let st := mk_state (processed_urls st) (url_queue st) (html_file st)
                     (code_data st) (on_disk st) (fetched st ++ [url]) in
  match answer with
  | GetFails => (None, st)
  | Answered status_code html_content =>
      if negb (status_code =? 200)%Z then (None, st)
      else
        let soup := parse html_content in
        let record := mk_html_data url html_content true domain_prefix in
        let st := mk_state (processed_urls st) (url_queue st)
                           (html_file st ++ [record]) (code_data st)
                           (on_disk st) (fetched st) in
        match extract_code_blocks soup url code_dir (on_disk st) with
        | (Raise _, d) =>
            (None, mk_state (processed_urls st) (url_queue st) (html_file st)
                            (code_data st) d (fetched st))
        | (Return code_blocks, d) =>
            let st := mk_state (processed_urls st) (url_queue st) (html_file st)
                               (code_data st ++ code_blocks) d (fetched st) in
            if (depth <? max_depth)%Z then
              match queue_links url depth (anchors soup) st with
              | (Raise _, st) => (None, st)
              | (Return _, st) => (Some record, st)
              end
            else (Some record, st)
        end
  end.

(** [process_url], lines 49-129, run without interruption *)
Definition process_url (url : string) (depth : Z) (st : crawl_state)
    : option html_data * crawl_state :=
  if already_processed url st then (None, st)
  else fetch_and_extract url depth (mark_processed url st).

Definition pop_queue (st : crawl_state) : crawl_state :=
  mk_state (processed_urls st) (tail (url_queue st)) (html_file st)
           (code_data st) (on_disk st) (fetched st).

(** Lines 24-26 and 131-134: the queue holds the seed at depth 1, and the
    seed is processed at once, before the pool starts. *)
Definition start (d : disk) : crawl_state :=
  snd (process_url start_url 1 (mk_state ∅ [(start_url, 1)] [] [] d [])).

(** Lines 144-166 with one worker ([max_threads = 1]): a task is taken
    from the queue only when the one before it is done. [rounds] is the
    number of tasks the deadline of line 142 leaves time for. *)
Fixpoint crawl_loop (rounds : nat) (st : crawl_state) : crawl_state :=
  match rounds with
  | O => st
  | S rounds' =>
      match url_queue st with
      | [] => st
      | (url, depth) :: _ =>
          if already_processed url st then crawl_loop rounds' (pop_queue st)
          else crawl_loop rounds' (snd (process_url url depth (pop_queue st)))
      end
  end.

Definition crawl (rounds : nat) (d : disk) : crawl_state :=
  crawl_loop rounds (start d).

(** [crawl] on an instance that has crawled before. [self.code_data] is
    set in [__init__] only (line 20) and never emptied, and [crawl_all],
    lines 493-514, calls [crawl] site after site on one instance; [held]
    is what the attribute holds when [crawl] is called. *)
Definition crawl_on (held : list code_block) (rounds : nat) (d : disk) : crawl_state :=
  crawl_loop rounds
    (snd (process_url start_url 1 (mk_state ∅ [(start_url, 1)] [] held d []))).

(** Lines 175-180: what is written to the metadata file of the site, if
    the file is written at all. *)
Definition code_metadata (st : crawl_state) : option (list code_block) :=
  match code_data st with
  | [] => None
  | records => Some records
  end.

(** A state with [held] before its code records. *)
Definition holding (held : list code_block) (st : crawl_state) : crawl_state :=
  mk_state (processed_urls st) (url_queue st) (html_file st)
           (held ++ code_data st) (on_disk st) (fetched st).

(** An entry the link loop may add: in scope, one level below. *)
Definition child_entry (depth : Z) (entry : string * Z) : Prop :=
  startswith domain_prefix (fst entry) = true /\ snd entry = depth + 1.

(** A URL the crawl may touch: the seed, or one under the domain prefix. *)
Definition in_scope (u : string) : Prop :=
  u = start_url \/ startswith domain_prefix u = true.

(** What the one-worker crawl keeps true of its state: queue and
    fetches stay in scope, and no URL is fetched twice. *)
Definition orderly (st : crawl_state) : Prop :=
  Forall (fun entry => in_scope (fst entry)) (url_queue st) /\
  Forall in_scope (fetched st) /\
  NoDup (fetched st) /\
  (forall u, u ∈ fetched st -> u ∈ processed_urls st).

(** *** The pool with several workers *)

(** Where a submitted call of [process_url] stands. *)
Inductive progress : Type :=
| Submitted    (* not started *)
| Checked      (* past the membership test of line 51 *)
| Marked       (* past the insertion of lines 55-56 *)
| Finished.

Record task : Type := mk_task {
  task_url : string;
  task_depth : Z;
  task_at : progress
}.

Record pool : Type := mk_pool {
  shared : crawl_state;
  futures : list task
}.

(** What can happen next: the main thread takes a queue entry (lines
    146-149) or drops a completed future (lines 152-158); the worker of
    the i-th future advances by one step. *)
Inductive action : Type :=
| Dispatch
| Reap (i : nat)
| Work (i : nat).

Definition advance (t : task) (st : crawl_state) : task * crawl_state :=
  match task_at t with
  | Submitted =>
      if already_processed (task_url t) st
      then (mk_task (task_url t) (task_depth t) Finished, st)
      else (mk_task (task_url t) (task_depth t) Checked, st)
  | Checked =>
      (mk_task (task_url t) (task_depth t) Marked, mark_processed (task_url t) st)
  | Marked =>
      (mk_task (task_url t) (task_depth t) Finished,
       snd (fetch_and_extract (task_url t) (task_depth t) st))
  | Finished => (t, st)
  end.

(** One step of the pool; [None] when the action is not enabled. *)
Definition pool_step (max_threads : nat) (a : action) (p : pool) : option pool :=
  match a with
  | Dispatch =>
      match url_queue (shared p) with
      | (url, depth) :: _ =>
          if (List.length (futures p) <? max_threads)%nat then
            if already_processed url (shared p)
            then Some (mk_pool (pop_queue (shared p)) (futures p))
            else Some (mk_pool (pop_queue (shared p))
                               (futures p ++ [mk_task url depth Submitted]))
          else None
      | [] => None
      end
  | Reap i =>
      match futures p !! i with
      | Some t => match task_at t with
                  | Finished => Some (mk_pool (shared p) (delete i (futures p)))
                  | _ => None
                  end
      | None => None
      end
  | Work i =>
      match futures p !! i with
      | Some t => match task_at t with
                  | Finished => None
                  | _ => let '(t', st) := advance t (shared p) in
                         Some (mk_pool st (<[i := t']> (futures p)))
                  end
      | None => None
      end
  end.

Fixpoint pool_run (max_threads : nat) (schedule : list action) (p : pool) : option pool :=
  match schedule with
  | [] => Some p
  | a :: rest =>
      match pool_step max_threads a p with
      | Some p' => pool_run max_threads rest p'
      | None => None
      end
  end.

Definition pool_start (d : disk) : pool := mk_pool (start d) [].

(** *** Further notions for the statements about the crawl *)

(** Every queue entry lies between depth 1, the seed's, and [max_depth]. *)
Definition depth_bounded (st : crawl_state) : Prop :=
  Forall (fun entry => 1 <= snd entry <= Z.max 1 max_depth) (url_queue st).

(** A line of the HTML file that records an answer 200 to its URL. *)
Definition from_answer_200 (r : html_data) : Prop :=
  hd_status r = true /\ hd_host_url r = domain_prefix /\
  exists k, web k (hd_url r) = Answered 200 (hd_text r).

(** What the crawl keeps true of the HTML file: every line records an
    answer 200, and the lines follow the fetches. *)
Definition records_sound (st : crawl_state) : Prop :=
  Forall from_answer_200 (html_file st) /\
  map hd_url (html_file st) `sublist_of` fetched st.

(** [st'] has everything [st] had: nothing processed, fetched, recorded
    or written has been lost or changed. *)
Definition grown_from (st st' : crawl_state) : Prop :=
  processed_urls st ⊆ processed_urls st' /\
  fetched st `prefix_of` fetched st' /\
  html_file st `prefix_of` html_file st' /\
  code_data st `prefix_of` code_data st' /\
  files (on_disk st) ⊆ files (on_disk st') /\
  emitted (on_disk st) `prefix_of` emitted (on_disk st').

(** What every schedule keeps true of the pool: queue, tasks and fetches
    stay in scope. *)
Definition pool_in_scope (p : pool) : Prop :=
  Forall (fun entry => in_scope (fst entry)) (url_queue (shared p)) /\
  Forall (fun t => in_scope (task_url t)) (futures p) /\
  Forall in_scope (fetched (shared p)).

(** What a pool of one worker keeps true besides: at most one task, which
    is the only one to have touched its URL. *)
Definition lone_task (st : crawl_state) (t : task) : Prop :=
  match task_at t with
  | Submitted | Checked => task_url t ∉ processed_urls st
  | Marked => task_url t ∈ processed_urls st /\ task_url t ∉ fetched st
  | Finished => True
  end.

(** How often the URL [u] occurs in a list of URLs. *)
Definition times (u : string) (l : list string) : nat :=
  List.length (List.filter (String.eqb u) l).

(** A task on [u] that is past the membership test of line 51 and has
    not fetched yet: it will fetch, whatever the others do. *)
Definition committed_to (u : string) (t : task) : bool :=
  String.eqb (task_url t) u &&
  match task_at t with
  | Checked | Marked => true
  | Submitted | Finished => false
  end.

Definition committed (u : string) (l : list task) : nat :=
  List.length (List.filter (committed_to u) l).

(** What every schedule keeps true of a pool of [max_threads] workers:
    the fetches of a URL made and the fetches of it still to come are
    together no more than the workers. *)
Definition fetch_bounded (max_threads : nat) (p : pool) : Prop :=
  (List.length (futures p) <= max_threads)%nat /\
  (forall u, u ∈ fetched (shared p) -> u ∈ processed_urls (shared p)) /\
  Forall (fun t => task_at t = Marked -> task_url t ∈ processed_urls (shared p))
    (futures p) /\
  forall u, (times u (fetched (shared p)) + committed u (futures p) <= max_threads)%nat.

Definition one_worker (p : pool) : Prop :=
  NoDup (fetched (shared p)) /\
  (forall u, u ∈ fetched (shared p) -> u ∈ processed_urls (shared p)) /\
  (List.length (futures p) <= 1)%nat /\
  Forall (lone_task (shared p)) (futures p).

End Run.

End Extraction.

(** *** Scenarios *)

Definition seed : string := "https://example.com/".
Definition page_a : string := "https://example.com/a".
Definition page_b : string := "https://example.com/b".
Definition elsewhere : string := "https://other.org/x".

(** Stand-ins for the library functions, right on the inputs the scenarios
    feed them: absolute links, headings of plain words, text without
    entities that none of the patterns of [_detect_language] matches. *)
Definition no_entities : string -> string := fun s => s.
Definition no_match : string -> string -> bool := fun _ _ => false.
Definition length_hash : string -> Z := fun s => Z.of_nat (String.length s).
Definition plain_re_sub : string -> string -> string -> string :=
  fun pattern _ s => if String.eqb pattern "\s+" then replace_char " " "_" s else s.
Definition path_of_example : string -> string := slice_from 19.
Definition absolute_urljoin : string -> string -> result string :=
  fun _ href => Return href.
Definition https : string -> string := fun _ => "https".
Definition example_com : string -> string := fun _ => "example.com".

Definition empty_disk : disk := mk_disk ∅ [].

Definition hello_block : element :=
  mk_element (Tag "pre" (Some ["highlight"]) [NavigableString "print('hello, world')"])
             None None None.

(** Every page answers 200 with its own URL as its text; the parser
    below reads the page off that. *)
Definition serve_all : nat -> string -> web_answer := fun _ url => Answered 200 url.

(** Scenario A: the seed links to two pages of the site and to one
    elsewhere. *)
Definition site_A : string -> page :=
  fun text => if String.eqb text seed
              then mk_page [page_a; page_b; elsewhere] []
              else mk_page [] [].

(** The seed links to two pages that show the same code block. *)
Definition site_same_block : string -> page :=
  fun text => if String.eqb text seed
              then mk_page [page_a; page_b] []
              else mk_page [] [hello_block].

(** One page that shows the same code block twice. *)
Definition page_twice : page := mk_page [] [hello_block; hello_block].

(** The seed links to the same page twice. *)
Definition site_twin_links : string -> page :=
  fun text => if String.eqb text seed
              then mk_page [page_a; page_a] []
              else mk_page [] [].

(** The seed links to a page, then shows a malformed link, then links
    to another page. *)
Definition site_malformed_link : string -> page :=
  fun text => if String.eqb text seed
              then mk_page [page_a; "http://[::1"; page_b] []
              else mk_page [] [].

(** Two workers, both started before either has marked its URL. *)
Definition racing_schedule : list action :=
  [Dispatch; Dispatch; Dispatch; Work 0; Work 1; Work 0; Work 1; Work 0; Work 1]%nat.

(** One worker: each task is run to its end and dropped before the next
    queue entry is taken. *)
Definition serial_schedule : list action :=
  [Dispatch; Dispatch; Work 0; Work 0; Work 0; Reap 0; Dispatch]%nat.

(** A site none of whose pages is there. *)
Definition serve_404 : nat -> string -> web_answer := fun _ _ => Answered 404 "".

(** A [code] node whose class is an explicit token with a second dash. *)
Definition objc_block : element :=
  mk_element (Tag "code" (Some ["language-objective-c"]) [NavigableString "x"])
             None None None.

(** A [pre] block of one indented line. *)
Definition one_line_block : node :=
  Tag "pre" (Some ["highlight"]) [NavigableString "    total = compute(1)"].

(** A [pre] block of three lines, the middle one blank. *)
Definition three_line_block : node :=
  Tag "pre" (Some ["highlight"])
    [Tag "code" None
       [NavigableString ("  def f():" +:+ String newline "" +:+ String newline "" +:+
                         "      return 1")]].

(** A node whose first class token names a language and whose second is
    an explicit [language-] token. *)
Definition mixed_tokens : element :=
  mk_element (Tag "code" (Some ["highlight-python"; "language-ruby"]) [NavigableString "x"])
             (Some (Tag "pre" None [])) None None.

End WebCrawler.

(** ** The fetcher's files: the saving methods of [WebHtmlExtractor] *)

Module WebHtmlExtractorFiles.
Import PyStr WebHtmlExtractor.

(** [list(dict.fromkeys(l))]: a dictionary keeps its keys in the order
    of their first insertion. [keys] are the keys inserted so far. *)
Fixpoint fromkeys (l keys : list string) : list string :=
  match l with
  | [] => keys
  | x :: rest =>
      if bool_decide (x ∈ keys) then fromkeys rest keys
      else fromkeys rest (keys ++ [x])
  end.

(** The two modes the methods open the file with: ["w"] and ["a"]. *)
Inductive file_mode : Type := overwrite | append.

(** The JSONL files, each a list of lines, one dictionary a line. *)
Abbreviation jsonl_files := (gmap string (list html_dict)).

Section Saver.

Variable network : nat -> request -> http_outcome.
Variable user_agent : nat -> string.
Variable browser : nat -> browser_outcome.
Variable urlsplit_scheme urlsplit_netloc : string -> string.
Variable self : settings.

(** The parser and the file system: the [href] of every [a] tag of a
    page, in document order ([None] for a tag without one); [urljoin],
    which raises [ValueError] on a malformed URL; whether [open] succeeds
    on a path; what [os.makedirs(os.path.dirname(path), exist_ok=True)]
    raises, if it does. *)
Variable hrefs : string -> list (option string).
Variable urljoin : string -> string -> result string.
Variable writable : string -> bool.
Variable makedirs_dirname : string -> option pyexn.

(** Line 324 *)
Definition skipped (href : string) : bool :=
  startswith "#" href || startswith "javascript:" href || startswith "mailto:" href.

(** Line 333: [absolute_url.split('#')[0]] *)
Definition clean_url (absolute_url : string) : string :=
  match split_char "#" absolute_url with
  | u :: _ => u
  | [] => ""
  end.

(** The [for link in links] loop, lines 320-334: what it appends. An
    exception of [urljoin] (line 328 has no handler) leaves the loop and
    the method. *)
Fixpoint link_urls (host_url target_url_prefix : string) (links : list (option string))
    : result (list string) :=
  match links with
  | [] => Return []
  | Some href :: rest =>
      if nonempty href && negb (skipped href) then
        match urljoin host_url href with
        | Raise e => Raise e
        | Return absolute_url =>
            match link_urls host_url target_url_prefix rest with
            | Raise e => Raise e
            | Return sub_urls =>
                Return (if startswith target_url_prefix absolute_url
                        then clean_url absolute_url :: sub_urls
                        else sub_urls)
            end
        end
      else link_urls host_url target_url_prefix rest
  | None :: rest => link_urls host_url target_url_prefix rest
  end.

(** [get_link_sub_url_list], lines 291-337 *)
Definition get_link_sub_url_list (d : html_dict) (target_url_prefix : option string)
    : result (list string) :=
  let url := url_of d in
  let sub_url_list := if nonempty url then [url] else [] in
  match text d with
  | None => Return sub_url_list
  | Some html_content =>
      if nonempty html_content then
        let target_url_prefix := default url target_url_prefix in
        let host_url := split_host_url urlsplit_scheme urlsplit_netloc url in
        match link_urls host_url target_url_prefix (hrefs html_content) with
        | Raise e => Raise e
        | Return found => Return (fromkeys (sub_url_list ++ found) [])
        end
      else Return sub_url_list
  end.

(** [save_jsonl], lines 339-348: an error of [open] is logged and
    swallowed. *)
Definition save_jsonl (json_list : list html_dict) (file_path : string)
    (mode : file_mode) (fs : jsonl_files) : jsonl_files :=
  if writable file_path then
    match mode with
    | overwrite => <[file_path := json_list]> fs
    | append => <[file_path := default [] (fs !! file_path) ++ json_list]> fs
    end
  else fs.

(** [save_url_html], lines 52-76 *)
Definition save_url_html (base_url : string) (lib : reptile_lib) (method : http_method)
    (time_sleep_arg time_out_arg : option Q) (html_dir : string) (mode : file_mode)
    (fs : jsonl_files) (w : World) : result bool * jsonl_files * World :=
  let time_out' := default (time_out self) time_out_arg in
  let time_sleep' := default (time_sleep self) time_sleep_arg in
  match makedirs_dirname html_dir with
  | Some e => (Raise e, fs, w)
  | None =>
      match get_html_dict network user_agent browser urlsplit_scheme urlsplit_netloc
              self base_url lib method true (Some time_sleep') (Some time_out') w with
      | (Raise e, w') => (Raise e, fs, w')
      | (Return d, w') =>
          if status d then (Return true, save_jsonl [d] html_dir mode fs, w')
          else (Return false, fs, w')
      end
  end.

(** The loop of [save_1_jump_url_in_base], lines 109-124, over the
    sub-URLs that follow the first *)
Fixpoint save_sub_pages (lib : reptile_lib) (method : http_method)
    (time_sleep' time_out' : Q) (html_dir : string) (sub_urls : list string)
    (fs : jsonl_files) (w : World) : result unit * jsonl_files * World :=
  match sub_urls with
  | [] => (Return tt, fs, w)
  | sub_url :: rest =>
      match get_html_dict network user_agent browser urlsplit_scheme urlsplit_netloc
              self sub_url lib method true (Some time_sleep') (Some time_out') w with
      | (Raise e, w') => (Raise e, fs, w')
      | (Return d, w') =>
          save_sub_pages lib method time_sleep' time_out' html_dir rest
            (if status d then save_jsonl [d] html_dir append fs else fs) w'
      end
  end.

(** [save_1_jump_url_in_base], lines 78-124 *)
Definition save_1_jump_url_in_base (base_url : string) (target_url_prefix : option string)
    (lib : reptile_lib) (method : http_method) (time_sleep_arg time_out_arg : option Q)
    (html_dir : string) (mode : file_mode) (fs : jsonl_files) (w : World)
    : result unit * jsonl_files * World :=
  let time_out' := default (time_out self) time_out_arg in
  let time_sleep' := default (time_sleep self) time_sleep_arg in
  match makedirs_dirname html_dir with
  | Some e => (Raise e, fs, w)
  | None =>
      match get_html_dict network user_agent browser urlsplit_scheme urlsplit_netloc
              self base_url lib method true (Some time_sleep') (Some time_out') w with
      | (Raise e, w') => (Raise e, fs, w')
      | (Return d, w') =>
          let target_url_prefix := default (url_of d) target_url_prefix in
          match get_link_sub_url_list d (Some target_url_prefix) with
          | Raise e => (Raise e, fs, w')
          | Return sub_url_list =>
              let fs := save_jsonl [d] html_dir mode fs in
              save_sub_pages lib method time_sleep' time_out' html_dir
                (tail sub_url_list) fs w'
          end
      end
  end.

End Saver.

(** *** Scenarios *)

(** A page with a link to itself, two links to one page, an anchor, a
    mail address and a link elsewhere. *)
Definition home_links : string -> list (option string) :=
  fun _ => [Some "https://example.com/"; Some "https://example.com/docs#intro";
            Some "#top"; None; Some "mailto:me@example.com";
            Some "https://example.com/docs"; Some "https://other.org/"].

Definition absolute : string -> string -> result string := fun _ href => Return href.

(** A page one of whose links is malformed, and a [urljoin] that
    refuses it. *)
Definition broken_links : string -> list (option string) :=
  fun _ => [Some "https://example.com/docs"; Some "http://[::1"].
Definition strict_urljoin : string -> string -> result string :=
  fun _ href => if String.eqb href "http://[::1" then Raise ValueError else Return href.
Definition all_writable : string -> bool := fun _ => true.
Definition read_only : string -> bool := fun _ => false.
Definition makedirs_ok : string -> option pyexn := fun _ => None.

(** A server that answers 200 with a page everywhere. *)
Definition always_200 : nat -> request -> http_outcome :=
  fun _ q => Responded (mk_response 200 (req_url q) "<html></html>").

End WebHtmlExtractorFiles.

(** ** The text extractor: the saving loop of [Html2Text] *)

Module Html2Text.
Import PyStr.

(** One dictionary of [extract_code_blocks], lines 339-346, with the
    fields the saving loop reads. *)
Record block : Type := mk_block {
  b_language : string;
  b_name : string;
  b_content : string
}.

(** One dictionary of [saved_files], lines 496-501 *)
Record saved_file : Type := mk_saved_file {
  sf_url : string;
  sf_file : string;
  sf_name : string;
  sf_language : string
}.

(** Lines 486-494: the fence names the language unless it is empty or
    ['text']. *)
Definition file_text (url : string) (b : block) : string :=
  url +:+ String newline (String newline "") +:+
  (if nonempty (b_language b) && negb (String.eqb (b_language b) "text")
   then "```" +:+ b_language b +:+ String newline ""
   else "```" +:+ String newline "") +:+
  b_content b +:+
  (if endswith (String newline "") (b_content b) then "" else String newline "") +:+
  "```" +:+ String newline "".

(** Line 473 *)
Definition section_of (b : block) : string := replace_char "." "_" (b_name b).

Section Saving.

(** What [open(file_path, 'w')] raises, if it does. *)
Variable open_raises : string -> option pyexn.

(** The loop of [extract_and_save_code_blocks], lines 471-501. An error
    of [open] leaves the function; what was written before stays. *)
Fixpoint save_blocks (url page_dir : string) (blocks : list block)
    (section_counts : gmap string nat) (saved_files : list saved_file)
    (fs : gmap string string) : result (list saved_file) * gmap string string :=
  match blocks with
  | [] => (Return saved_files, fs)
  | b :: rest =>
      let section := section_of b in
      let file_name :=
        match section_counts !! section with
        | Some n => section +:+ "_" +:+ string_of_nat (n + 1) +:+ ".md"
        | None => section +:+ ".md"
        end in
      let section_counts :=
        match section_counts !! section with
        | Some n => <[section := (n + 1)%nat]> section_counts
        | None => <[section := 1%nat]> section_counts
        end in
      let file_path := os_path_join page_dir file_name in
      match open_raises file_path with
      | Some e => (Raise e, fs)
      | None =>
          save_blocks url page_dir rest section_counts
            (saved_files ++ [mk_saved_file url file_path (b_name b) (b_language b)])
            (<[file_path := file_text url b]> fs)
      end
  end.

End Saving.

(** *** Notions for the statements *)

(** How many blocks of a list have the section [s]. *)
Definition occurrences (s : string) (l : list block) : nat :=
  List.length (List.filter (fun b => String.eqb (section_of b) s) l).

(** The file name of the k-th block of a section: [s.md], then
    [s_2.md], [s_3.md], ... *)
Definition numbered (s : string) (k : nat) : string :=
  match k with
  | 0%nat | 1%nat => s +:+ ".md"
  | _ => s +:+ "_" +:+ string_of_nat k +:+ ".md"
  end.

(** *** Scenarios *)

Definition opens : string -> option pyexn := fun _ => None.

(** Three blocks: two of one name, and one named like the second file
    of that name. *)
Definition clashing_blocks : list block :=
  [mk_block "python" "setup" "a = 1"; mk_block "python" "setup" "b = 2";
   mk_block "text" "setup_2" "c = 3"].

End Html2Text.

(** ** The site parser: [WebSiteParser.link_handler] *)

Module WebSiteParser.
Import PyStr.

(** [link_handler], lines 399-442 of [web_services.py], on the [href] of
    the element and [self.url_base]; it returns [js_skip], [link_out]
    and [link_type]. The rules run one after the other and a later one
    overwrites what an earlier one has set. *)
Definition link_handler (url_base href : string) : result (Z * string * string) :=
  let link_out := "" in
  let link_type := "" in
  let js_skip := 0 in
  let '(js_skip, link_out, link_type) :=
    if endswith ".js" href then (1, href, "js") else (js_skip, link_out, link_type) in
  let '(js_skip, link_out, link_type) :=
    if endswith ".ico" href || endswith ".ttf" href
    then (1, href, "other_formatting") else (js_skip, link_out, link_type) in
  let '(js_skip, link_out, link_type) :=
    if endswith ".css" href then (1, href, "css") else (js_skip, link_out, link_type) in
  let '(link_out, link_type) :=
    if startswith url_base href
    then (slice_from (String.length url_base) href, "internal")
    else (link_out, link_type) in
  match href with
  | EmptyString => Raise IndexError
  | String c _ =>
      let '(link_out, link_type) :=
        if Ascii.eqb c "/" then
          if startswith "//" href then (link_out, link_type) else (href, "internal")
        else (link_out, link_type) in
      let '(link_out, link_type) :=
        if startswith "https://" href && negb (startswith url_base href)
        then (href, "external") else (link_out, link_type) in
      Return (js_skip, link_out, link_type)
  end.

End WebSiteParser.

(** ** Facts about float products *)

Section FloatFacts.
Import PyFloat.

Lemma round_half_even_near n d :
  0 < d ->
  2 * n - d <= 2 * round_half_even n d * d <= 2 * n + d.
Proof.
  intros Hd. unfold round_half_even.
  pose proof (Z.div_mod n d ltac:(lia)) as Hdm.
  pose proof (Z.mod_pos_bound n d Hd) as Hr.
  destruct (Z.compare_spec (2 * (n mod d)) d) as [He | Hl | Hg].
  - destruct (Z.even (n / d)); nia.
  - nia.
  - nia.
Qed.

Lemma exponent_lower n d :
  let e := exponent n d in
  2 ^ 52 * snd (scaled n d e) <= fst (scaled n d e) /\ 0 < snd (scaled n d e).
Proof.
  cbv zeta. unfold exponent.
  set (ln := Z.log2 (Zpos n)). set (ld := Z.log2 (Zpos d)).
  pose proof (Z.log2_spec (Zpos n) ltac:(lia)) as [Hn1 Hn2]. fold ln in Hn1, Hn2.
  pose proof (Z.log2_spec (Zpos d) ltac:(lia)) as [Hd1 Hd2]. fold ld in Hd1, Hd2.
  pose proof (Z.log2_nonneg (Zpos n)) as Hln. fold ln in Hln.
  pose proof (Z.log2_nonneg (Zpos d)) as Hld. fold ld in Hld.
  set (e0 := ln - ld - 53).
  assert (Hpos : forall e, 0 < snd (scaled n d e)).
  { intros e. unfold scaled; cbn [snd].
    pose proof (Z.pow_pos_nonneg 2 (Z.max 0 e) ltac:(lia) ltac:(lia)). nia. }
  destruct (Z.leb_spec (2 ^ 53 * snd (scaled n d e0)) (fst (scaled n d e0))) as [Hbig | _].
  - split; [| apply Hpos]. clear Hpos.
    unfold scaled in *; cbn [fst snd] in *.
    destruct (Z_le_gt_dec 0 e0) as [He | He].
    + (* e0 >= 0 *)
      rewrite (Z.max_r 0 e0), (Z.max_l 0 (- e0)) in Hbig by lia.
      rewrite (Z.max_r 0 (e0 + 1)), (Z.max_l 0 (- (e0 + 1))) by lia.
      rewrite Z.pow_add_r by lia.
      replace (2 ^ 52 * (Z.pos d * (2 ^ e0 * 2 ^ 1)))
        with (2 ^ 53 * (Z.pos d * 2 ^ e0)) by (change (2 ^ 53) with (2 ^ 52 * 2 ^ 1); ring).
      exact Hbig.
    + (* e0 < 0 *)
      rewrite (Z.max_l 0 e0), (Z.max_r 0 (- e0)) in Hbig by lia.
      rewrite (Z.max_l 0 (e0 + 1)), (Z.max_r 0 (- (e0 + 1))) by lia.
      replace (- e0) with (- (e0 + 1) + 1) in Hbig by lia.
      rewrite Z.pow_add_r in Hbig by lia.
      change (2 ^ 53) with (2 ^ 52 * 2) in Hbig. change (2 ^ 1) with 2 in Hbig.
      rewrite Z.pow_0_r in *. lia.
  - split; [| apply Hpos]. clear Hpos.
    unfold scaled in *; cbn [fst snd] in *.
    destruct (Z_le_gt_dec 0 e0) as [He | He].
    + (* e0 >= 0: 2^52 d 2^e0 < 2^ln <= n *)
      rewrite (Z.max_r 0 e0), (Z.max_l 0 (- e0)) by lia.
      rewrite Z.pow_0_r.
      assert (Hsplit : 2 ^ ln = 2 ^ 52 * 2 ^ Z.succ ld * 2 ^ e0).
      { rewrite <- !Z.pow_add_r by lia. f_equal. unfold e0. lia. }
      pose proof (Z.pow_pos_nonneg 2 e0 ltac:(lia) ltac:(lia)) as Hp.
      revert Hn1 Hd2 Hsplit Hp. generalize (2 ^ ln) (2 ^ Z.succ ld) (2 ^ e0).
      intros A B C Hn1 Hd2 -> Hp. nia.
    + (* e0 < 0 *)
      rewrite (Z.max_l 0 e0), (Z.max_r 0 (- e0)) by lia.
      rewrite Z.pow_0_r.
      assert (Hsplit : 2 ^ ln * 2 ^ (- e0) = 2 ^ 52 * 2 ^ Z.succ ld).
      { rewrite <- !Z.pow_add_r by lia. f_equal. unfold e0. lia. }
      pose proof (Z.pow_pos_nonneg 2 (- e0) ltac:(lia) ltac:(lia)) as Hp.
      revert Hn1 Hd2 Hsplit Hp. generalize (2 ^ ln) (2 ^ Z.succ ld) (2 ^ (- e0)).
      intros A B C Hn1 Hd2 Hsplit Hp. nia.
Qed.

Local Open Scope Q_scope.
Local Open Scope Z_scope.
Local Open Scope Q_scope.

Lemma two_to_pos e : 0 < two_to e.
Proof.
  unfold two_to. apply Qlt_shift_div_l.
  - change 0 with (inject_Z 0). rewrite <- Zlt_Qlt. apply Z.pow_pos_nonneg; lia.
  - rewrite Qmult_0_l. change 0 with (inject_Z 0). rewrite <- Zlt_Qlt.
    apply Z.pow_pos_nonneg; lia.
Qed.

Lemma scaled_value n d e :
  Zpos n # d == inject_Z (fst (scaled n d e)) / inject_Z (snd (scaled n d e)) * two_to e.
Proof.
  unfold scaled, two_to; cbn [fst snd].
  rewrite Qmake_Qdiv, !inject_Z_mult.
  assert (Ha : ~ inject_Z (2 ^ Z.max 0 e) == 0).
  { change 0 with (inject_Z 0). rewrite inject_Z_injective.
    pose proof (Z.pow_pos_nonneg 2 (Z.max 0 e) ltac:(lia) ltac:(lia)). lia. }
  assert (Hb : ~ inject_Z (2 ^ Z.max 0 (- e)) == 0).
  { change 0 with (inject_Z 0). rewrite inject_Z_injective.
    pose proof (Z.pow_pos_nonneg 2 (Z.max 0 (- e)) ltac:(lia) ltac:(lia)). lia. }
  assert (Hd : ~ inject_Z (Zpos d) == 0).
  { change 0 with (inject_Z 0). rewrite inject_Z_injective. lia. }
  field. auto.
Qed.

(** Rounding moves a positive value by no more than one part in [2^53]. *)
Lemma round_pos_error n d :
  (Zpos n # d) * (1 - (1 # 9007199254740992)) <= round_pos n d /\
  round_pos n d <= (Zpos n # d) * (1 + (1 # 9007199254740992)).
Proof.
  unfold round_pos. rewrite Qred_correct.
  set (e := exponent n d).
  destruct (exponent_lower n d) as [Hlow Hden]. fold e in Hlow, Hden.
  pose proof (round_half_even_near (fst (scaled n d e)) (snd (scaled n d e)) Hden) as [Hm1 Hm2].
  rewrite (scaled_value n d e).
  set (num := fst (scaled n d e)) in *. set (den := snd (scaled n d e)) in *.
  set (m := round_half_even num den) in *.
  pose proof (two_to_pos e) as HT.
  assert (Hlow' : inject_Z (2 ^ 52) * inject_Z den <= inject_Z num)
    by (rewrite <- inject_Z_mult, <- Zle_Qle; exact Hlow).
  assert (Hm1' : 2 * inject_Z num <= 2 * inject_Z m * inject_Z den + inject_Z den).
  { change 2 with (inject_Z 2).
    rewrite <- !inject_Z_mult, <- inject_Z_plus, <- Zle_Qle. lia. }
  assert (Hm2' : 2 * inject_Z m * inject_Z den <= 2 * inject_Z num + inject_Z den).
  { change 2 with (inject_Z 2).
    rewrite <- !inject_Z_mult, <- inject_Z_plus, <- Zle_Qle. lia. }
  assert (Hden' : 0 < inject_Z den)
    by (change 0 with (inject_Z 0); rewrite <- Zlt_Qlt; exact Hden).
  change (inject_Z (2 ^ 52)) with (4503599627370496 # 1) in Hlow'.
  revert Hlow' Hm1' Hm2' Hden' HT.
  generalize (inject_Z num) (inject_Z den) (inject_Z m) (two_to e).
  clear. intros Qn Qd Qm T Hlow Hm1 Hm2 Hden HT.
  assert (Hr : Qn / Qd * Qd == Qn) by (field; intros H; rewrite H in Hden; by apply Qlt_irrefl in Hden).
  set (r := Qn / Qd) in *. clearbody r.
  assert (H52 : (4503599627370496 # 1) <= r).
  { apply Qnot_lt_le. intros Hlt.
    assert (r * Qd < (4503599627370496 # 1) * Qd) by (apply Qmult_lt_compat_r; assumption).
    lra. }
  assert (Hlo : 2 * r - 1 <= 2 * Qm).
  { apply Qnot_lt_le. intros Hlt.
    assert (2 * Qm * Qd < (2 * r - 1) * Qd) by (apply Qmult_lt_compat_r; assumption).
    lra. }
  assert (Hhi : 2 * Qm <= 2 * r + 1).
  { apply Qnot_lt_le. intros Hlt.
    assert ((2 * r + 1) * Qd < 2 * Qm * Qd) by (apply Qmult_lt_compat_r; assumption).
    lra. }
  split.
  - assert (E : r * T * (1 - (1 # 9007199254740992))
                 == (r * (1 - (1 # 9007199254740992))) * T) by ring.
    rewrite E. apply Qmult_le_compat_r; [lra | by apply Qlt_le_weak].
  - assert (E : r * T * (1 + (1 # 9007199254740992))
                 == (r * (1 + (1 # 9007199254740992))) * T) by ring.
    rewrite E. apply Qmult_le_compat_r; [lra | by apply Qlt_le_weak].
Qed.

Lemma round_float_nonneg x : 0 <= x -> 0 <= round_float x.
Proof.
  intros Hx. unfold round_float. destruct x as [[| n | n] d]; cbn [Qnum Qden].
  - apply Qle_refl.
  - destruct (round_pos_error n d) as [Hlo _].
    eapply Qle_trans; [| exact Hlo].
    apply Qmult_le_0_compat; [done | lra].
  - exfalso. unfold Qle in Hx. cbn in Hx. lia.
Qed.

Lemma float_mul_nonneg x y : 0 <= x -> 0 <= y -> 0 <= float_mul x y.
Proof. intros Hx Hy. apply round_float_nonneg. by apply Qmult_le_0_compat. Qed.

(** A positive delay times 1.5 is a larger delay, rounding included, and
    within one part in [2^53] of the exact product. *)
Lemma float_mul_grows x :
  0 < x ->
  x < float_mul x (3 # 2) /\
  x * (3 # 2) * (1 - (1 # 9007199254740992)) <= float_mul x (3 # 2) /\
  float_mul x (3 # 2) <= x * (3 # 2) * (1 + (1 # 9007199254740992)).
Proof.
  intros Hx. unfold float_mul, round_float.
  assert (Hy : 0 < x * (3 # 2)) by (apply Qmult_lt_0_compat; [exact Hx | reflexivity]).
  destruct (x * (3 # 2)) as [[| n | n] d] eqn:Hprod; cbn [Qnum Qden].
  - exfalso. unfold Qlt in Hy. cbn in Hy. lia.
  - destruct (round_pos_error n d) as [Hlo Hhi].
    assert (Hval : Zpos n # d == x * (3 # 2)) by (by rewrite <- Hprod).
    repeat split; [| exact Hlo | exact Hhi].
    eapply Qlt_le_trans; [| exact Hlo]. rewrite Hval. lra.
  - exfalso. unfold Qlt in Hy. cbn in Hy. lia.
Qed.

End FloatFacts.

(** ** Facts about strings *)

Section StringFacts.
Import PyStr.

Lemma split_char_nonempty c s : split_char c s <> [].
Proof.
  destruct s as [| a s]; cbn -[Ascii.eqb]; [done |].
  destruct (Ascii.eqb a c); [done |]. by destruct (split_char c s).
Qed.

Lemma split_char_free c s : Forall (fun l => has_char c l = false) (split_char c s).
Proof.
  induction s as [| a s IH]; cbn -[Ascii.eqb]; [by repeat constructor |].
  destruct (Ascii.eqb a c) eqn:E; [by constructor |].
  destruct (split_char c s) as [| h t]; [by repeat constructor; cbn -[Ascii.eqb]; rewrite E |].
  inversion IH; subst. constructor; [| done]. cbn -[Ascii.eqb]. by rewrite E.
Qed.

Lemma split_char_piece c l :
  has_char c l = false -> split_char c l = [l].
Proof.
  induction l as [| a l IH]; cbn -[Ascii.eqb]; [done |].
  intros H. apply orb_false_iff in H as [E H]. rewrite E, (IH H). done.
Qed.

Lemma append_cons a (l s : string) : String a l +:+ s = String a (l +:+ s).
Proof. reflexivity. Qed.

Lemma append_empty (s : string) : "" +:+ s = s.
Proof. reflexivity. Qed.

Lemma split_char_app c l s :
  has_char c l = false ->
  split_char c (l +:+ String c s) = l :: split_char c s.
Proof.
  induction l as [| a l IH]; intros H.
  - rewrite append_empty. cbn [split_char]. by rewrite Ascii.eqb_refl.
  - cbn -[Ascii.eqb] in H. apply orb_false_iff in H as [E H].
    rewrite append_cons. cbn [split_char]. by rewrite E, (IH H).
Qed.

Lemma split_char_join c ls :
  ls <> [] -> Forall (fun l => has_char c l = false) ls ->
  split_char c (join (String c "") ls) = ls.
Proof.
  induction ls as [| l ls IH]; [done |]. intros _ Hall.
  inversion Hall as [| ? ? Hl Hls]; subst.
  destruct ls as [| l' ls].
  - cbn [join]. by apply split_char_piece.
  - cbn [join]. rewrite append_cons, append_empty.
    rewrite split_char_app by exact Hl. f_equal. by apply IH.
Qed.

Lemma has_char_slice_from c n : forall l,
  has_char c l = false -> has_char c (slice_from n l) = false.
Proof.
  induction n as [| n IH]; intros l H; [by destruct l |].
  destruct l as [| a l]; [done |]. cbn -[Ascii.eqb] in *.
  apply orb_false_iff in H as [_ H]. by apply IH.
Qed.

Lemma lstrip_length l : (String.length (lstrip l) <= String.length l)%nat.
Proof. induction l as [| a l IH]; cbn -[Ascii.eqb]; [lia |]. destruct (is_space a); cbn -[Ascii.eqb]; lia. Qed.

Lemma slice_from_leading n : forall l,
  (n <= String.length l - String.length (lstrip l))%nat ->
  exists ws, l = ws +:+ slice_from n l /\ String.length ws = n /\ all_space ws = true.
Proof.
  induction n as [| n IH]; intros l Hn.
  - exists "". by destruct l.
  - destruct l as [| a l]; [cbn -[Ascii.eqb] in Hn; lia |].
    cbn -[Ascii.eqb] in Hn. destruct (is_space a) eqn:E; [| cbn -[Ascii.eqb] in Hn; lia].
    pose proof (lstrip_length l).
    destruct (IH l) as (ws & Hl & Hlen & Hsp); [lia |].
    exists (String a ws). rewrite append_cons. cbn [slice_from all_space String.length].
    rewrite E, Hsp, Hlen. by rewrite <- Hl.
Qed.

Lemma prefix_append p : forall s,
  String.prefix p s = true -> exists r, s = p +:+ r.
Proof.
  induction p as [| a p IH]; intros s H.
  - by exists s.
  - destruct s as [| b s]; [discriminate |]. cbn in H.
    destruct (ascii_dec a b) as [-> | _]; [| discriminate].
    destruct (IH s H) as [r ->]. by exists r.
Qed.

Lemma no_space_rev_append s : forall acc,
  no_space s = true -> no_space acc = true -> no_space (rev_append s acc) = true.
Proof.
  induction s as [| a s IH]; intros acc Hs Hacc; [done |].
  cbn in Hs. apply andb_true_iff in Hs as [Ha Hs].
  cbn. apply IH; [done |]. cbn. by rewrite Ha, Hacc.
Qed.

Lemma split_str_aux_no_space sep s : forall skip cur,
  no_space s = true -> no_space cur = true ->
  Forall (fun part => no_space part = true) (split_str_aux sep s skip cur).
Proof.
  induction s as [| a s IH]; intros skip cur Hs Hcur.
  - cbn. constructor; [| constructor]. by apply no_space_rev_append.
  - cbn in Hs. apply andb_true_iff in Hs as [Ha Hs].
    cbn [split_str_aux]. destruct skip as [| k]; [| by apply IH].
    destruct (String.prefix sep (String a s)).
    + constructor; [by apply no_space_rev_append | by apply IH].
    + apply IH; [done |]. cbn. by rewrite Ha, Hcur.
Qed.

Lemma first_word_no_space part :
  no_space part = true -> nonempty part = true -> is_Some (first_word part).
Proof.
  destruct part as [| a part]; [discriminate |]. cbn.
  intros H _. apply andb_true_iff in H as [Ha _].
  unfold first_word. cbn. apply negb_true_iff in Ha. by rewrite Ha.
Qed.

Lemma append_cancel_l p : forall x y : string, p +:+ x = p +:+ y -> x = y.
Proof.
  induction p as [| a p IH]; intros x y H; [done |].
  rewrite !append_cons in H. injection H as H. by apply IH.
Qed.

Lemma append_length (x y : string) :
  String.length (x +:+ y) = (String.length x + String.length y)%nat.
Proof. induction x as [| a x IH]; [done |]. rewrite append_cons. cbn. by rewrite IH. Qed.

Lemma append_cancel_r s : forall x y : string, x +:+ s = y +:+ s -> x = y.
Proof.
  induction x as [| a x IH]; intros y H.
  - destruct y as [| b y]; [done |].
    apply (f_equal String.length) in H. rewrite !append_length in H. cbn in H. lia.
  - destruct y as [| b y].
    + apply (f_equal String.length) in H. rewrite !append_length in H. cbn in H. lia.
    + rewrite !append_cons in H. injection H as -> H. f_equal. by apply IH.
Qed.

Lemma append_assoc_string (x y z : string) : (x +:+ y) +:+ z = x +:+ (y +:+ z).
Proof. induction x as [| a x IH]; [done |]. rewrite !append_cons. by rewrite IH. Qed.

Lemma string_of_nat_inj j k : string_of_nat j = string_of_nat k -> j = k.
Proof.
  unfold string_of_nat. intros H.
  apply (f_equal NilEmpty.uint_of_string) in H. rewrite !NilEmpty.usu in H.
  injection H as H. by apply Unsigned.to_uint_inj.
Qed.

End StringFacts.

Section FetcherProofs.
Import PyFloat WebHtmlExtractor.

Variable network : nat -> request -> http_outcome.
Variable user_agent : nat -> string.
Variable urlsplit_scheme urlsplit_netloc : string -> string.
Variable self : settings.

Let grh := get_request_html network user_agent urlsplit_scheme urlsplit_netloc self.

Lemma grh_unfold url m ts_arg r header data tout w :
  (0 <= default (time_sleep self) ts_arg)%Q ->
  grh url m ts_arg r header data tout w =
  let ts := default (time_sleep self) ts_arg in
  let w1 := after_prologue user_agent header data ts w in
  let q := the_request url m (default (time_out self) tout) w1 in
  let w2 := after_send q w1 in
  let d0 := failure_dict urlsplit_scheme urlsplit_netloc url in
  if ok_response (network (List.length (sent w)) q) then
    (Return (success_dict urlsplit_scheme urlsplit_netloc (network (List.length (sent w)) q)), w2)
  else if decide (r <= max_retry_times self) then
    grh url m (Some (float_mul ts (3 # 2))) (r + 1) None None None w2
  else (Return d0, w2).
Proof.
  intros Hts. unfold grh. rewrite get_request_html_equation_1.
  unfold bind, sleep, set_self_header, set_self_data, get_self_header,
    get_self_data, random_user_agent, send, ret.
  cbn zeta.
  destruct (truthy header) eqn:Hh; destruct (truthy data) eqn:Hd; cbn.
  all: destruct (Qlt_le_dec _ 0) as [Hneg | _]; [exfalso; revert Hneg; apply Qle_not_lt, Hts |].
  all: unfold after_prologue, after_send, the_request, ok_response; rewrite ?Hh, ?Hd; cbn.
  all: destruct m; cbn.
  all: match goal with |- context [network ?k ?q] => destruct (network k q) as [resp | e] end; cbn.
  all: try destruct (status_code resp =? 200)%Z; cbn; try reflexivity.
  all: destruct (Z_le_dec r (max_retry_times self)); destruct (decide (r <= max_retry_times self)); try lia; reflexivity.
Qed.

Lemma ok_response_success o :
  ok_response o = true ->
  status (success_dict urlsplit_scheme urlsplit_netloc o) = true /\
  is_Some (text (success_dict urlsplit_scheme urlsplit_netloc o)).
Proof. destruct o; cbn; [eauto | discriminate]. Qed.

Lemma the_request_of_call url m t header data ts w :
  request_of_call url m (eff_header header w) (eff_data data w)
    (the_request url m t (after_prologue user_agent header data ts w)).
Proof.
  unfold request_of_call, the_request, after_prologue, eff_header, eff_data.
  destruct m; cbn; destruct (truthy header); cbn;
    rewrite ?delete_insert_eq; auto.
Qed.

Lemma the_request_timeout url m t w : req_timeout (the_request url m t w) = t.
Proof. by destruct m. Qed.

Lemma grh_trace n : forall r url m ts_arg header data tout w,
  Z.to_nat (max_retry_times self + 1 - r) = n ->
  (0 <= default (time_sleep self) ts_arg)%Q ->
  exists d w' q0 rest,
    grh url m ts_arg r header data tout w = (Return d, w') /\
    sent w' = sent w ++ q0 :: rest /\
    slept w' = slept w ++ backoff (default (time_sleep self) ts_arg) (S (List.length rest)) /\
    (List.length rest <= n)%nat /\
    req_timeout q0 = default (time_out self) tout /\
    Forall (fun q => req_timeout q = time_out self) rest /\
    Forall (request_of_call url m (eff_header header w) (eff_data data w)) (q0 :: rest) /\
    ((status d = true /\ is_Some (text d)) \/
     (d = failure_dict urlsplit_scheme urlsplit_netloc url /\ List.length rest = n)) /\
    ((forall k q, req_url q = url -> ok_response (network k q) = false) ->
     d = failure_dict urlsplit_scheme urlsplit_netloc url /\ List.length rest = n) /\
    (r <= max_retry_times self ->
     ok_response (network (List.length (sent w)) q0) = false -> rest <> []).
Proof.
  induction n as [| n IH]; intros r url m ts_arg header data tout w Hn Hts.
  all: rewrite grh_unfold by exact Hts; cbn zeta.
  all: set (ts := default (time_sleep self) ts_arg) in *.
  all: set (w1 := after_prologue user_agent header data ts w).
  all: set (q := the_request url m (default (time_out self) tout) w1).
  all: assert (Hq : request_of_call url m (eff_header header w) (eff_data data w) q)
         by apply the_request_of_call.
  all: destruct (ok_response (network (List.length (sent w)) q)) eqn:Hok.
  - exists (success_dict urlsplit_scheme urlsplit_netloc (network (List.length (sent w)) q)),
      (after_send q w1), q, [].
    cbn. repeat apply conj; auto; try lia.
    all: first [ apply the_request_timeout
               | left; by apply ok_response_success
               | congruence
               | intros Hall; rewrite Hall in Hok; [discriminate | apply Hq] ].
  - destruct (decide (r <= max_retry_times self)); [lia |].
    exists (failure_dict urlsplit_scheme urlsplit_netloc url), (after_send q w1), q, [].
    cbn. repeat apply conj; auto; try lia; apply the_request_timeout.
  - exists (success_dict urlsplit_scheme urlsplit_netloc (network (List.length (sent w)) q)),
      (after_send q w1), q, [].
    cbn. repeat apply conj; auto; try lia.
    all: first [ apply the_request_timeout
               | left; by apply ok_response_success
               | congruence
               | intros Hall; rewrite Hall in Hok; [discriminate | apply Hq] ].
  - destruct (decide (r <= max_retry_times self)); [| lia].
    destruct (IH (r + 1) url m (Some (float_mul ts (3 # 2))) None None None (after_send q w1))
      as (d & w' & q1 & rest & Hrun & Hsent & Hslept & Hlen & Ht1 & Htr & Hreqs & Hres & Hall & _).
    { lia. }
    { cbn. apply float_mul_nonneg; [exact Hts | discriminate]. }
    exists d, w', q, (q1 :: rest).
    split; [exact Hrun |].
    split; [rewrite Hsent; cbn; by rewrite <- app_assoc |].
    split; [rewrite Hslept; cbn; by rewrite <- app_assoc |].
    split; [cbn; lia |].
    split; [apply the_request_timeout |].
    split; [constructor; [exact Ht1 | exact Htr] |].
    split.
    { constructor; [exact Hq |].
      eapply Forall_impl; [exact Hreqs |].
      intros q' (Hu & Hm & Hh & Hd). unfold request_of_call.
      repeat apply conj; auto.
      all: first [rewrite Hh | rewrite Hd].
      all: unfold eff_header, eff_data, w1, after_prologue; cbn.
      all: destruct (truthy header), (truthy data); cbn.
      all: by rewrite ?delete_insert_eq. }
    split.
    { destruct Hres as [Hres | [Hd Hl]]; [by left | right]. cbn. by rewrite Hl. }
    split.
    { intros Hf. destruct (Hall Hf) as [Hd Hl]. cbn. by rewrite Hl. }
    intros _ _. discriminate.
Qed.

(** *** Backoff arithmetic *)

Lemma backoff_length d k : List.length (backoff d k) = k.
Proof. revert d; induction k as [| k IH]; intros d; cbn; [done | by rewrite IH]. Qed.

Lemma backoff_ratio k : forall d i a b,
  backoff d k !! i = Some a -> backoff d k !! S i = Some b ->
  b = float_mul a (3 # 2).
Proof.
  induction k as [| k IH]; intros d i a b Ha Hb; [discriminate |].
  destruct i as [| i]; cbn in Ha, Hb.
  - destruct k; cbn in Hb; [discriminate | congruence].
  - eapply IH; eassumption.
Qed.

Lemma backoff_positive k : forall d a i,
  (0 < d)%Q -> backoff d k !! i = Some a -> (0 < a)%Q.
Proof.
  induction k as [| k IH]; intros d a i Hd Ha; [discriminate |].
  destruct i as [| i]; cbn in Ha.
  - congruence.
  - eapply IH; [| exact Ha].
    eapply Qlt_trans; [exact Hd | apply float_mul_grows, Hd].
Qed.

Lemma save_sub_urls_trace browser m ts t l : forall w0,
  (0 <= ts)%Q ->
  exists saved w' more,
    save_sub_urls network user_agent browser urlsplit_scheme urlsplit_netloc
      self requests m ts t l w0 = (Return saved, w') /\
    sent w' = sent w0 ++ more /\
    Forall (fun u => exists q, q ∈ more /\ req_url q = u) l.
Proof.
  induction l as [| u l IH]; intros w0 Hts.
  - exists [], w0, []. by rewrite app_nil_r.
  - cbn [save_sub_urls]. unfold bind at 1, get_html_dict.
    cbn [default from_option id].
    destruct (grh_trace (Z.to_nat (max_retry_times self + 1 - 1)) 1 u m (Some ts)
                None None (Some t) w0)
      as (d & w1 & q0 & rest & Hrun & Hsent & _ & _ & _ & _ & Hreqs & _);
      [reflexivity | exact Hts |].
    unfold grh in Hrun. rewrite Hrun.
    destruct (IH w1 Hts) as (saved & w' & more & Hloop & Hmore & Hall).
    unfold bind at 1. rewrite Hloop. unfold ret.
    eexists _, w', ((q0 :: rest) ++ more).
    split; [reflexivity |].
    split; [by rewrite Hmore, Hsent, <- app_assoc |].
    constructor.
    + exists q0. split; [set_solver |].
      inversion Hreqs as [| ? ? Hq0 _]; subst. apply Hq0.
    + eapply Forall_impl; [exact Hall |].
      intros v (q & Hin & Hq). exists q. split; [set_solver | exact Hq].
Qed.

(** *** The statements about [get_request_html] *)

(** C2, as amended: when every attempt on a URL fails, a call with the
    default [retry_times = 1] issues one first request and then
    [max_retry_times] retries, that is [max_retry_times + 1] requests in
    all, before it returns the failure dictionary. *)
Theorem get_request_html_attempts url m ts_arg header data tout w :
  (0 <= default (time_sleep self) ts_arg)%Q ->
  (forall k q, req_url q = url -> ok_response (network k q) = false) ->
  exists w',
    grh url m ts_arg 1 header data tout w
      = (Return (failure_dict urlsplit_scheme urlsplit_netloc url), w') /\
    List.length (sent w')
      = (List.length (sent w) + (Z.to_nat (max_retry_times self) + 1))%nat.
Proof.
  intros Hts Hfail.
  destruct (grh_trace (Z.to_nat (max_retry_times self)) 1 url m ts_arg header data tout w)
    as (d & w' & q0 & rest & Hrun & Hsent & _ & _ & _ & _ & _ & _ & Hall & _);
    [f_equal; lia | exact Hts |].
  destruct (Hall Hfail) as [-> Hlen].
  exists w'. split; [exact Hrun |].
  rewrite Hsent, length_app. cbn. rewrite Hlen. lia.
Qed.

(** C5: once every attempt has failed, the call returns (it does not
    raise) a dictionary whose status is false and whose text is absent;
    and the loop over the sub-URLs of a page carries on past such a URL:
    it returns too, and has issued a request for each sub-URL. *)
Theorem get_request_html_exhausted url m ts_arg r header data tout w :
  (0 <= default (time_sleep self) ts_arg)%Q ->
  (forall k q, req_url q = url -> ok_response (network k q) = false) ->
  (exists d w',
     grh url m ts_arg r header data tout w = (Return d, w') /\
     status d = false /\ text d = None /\ url_of d = url) /\
  (forall browser ts t before after w0,
     (0 <= ts)%Q ->
     exists saved w',
       save_sub_urls network user_agent browser urlsplit_scheme urlsplit_netloc
         self requests m ts t (before ++ url :: after) w0 = (Return saved, w') /\
       Forall (fun u => exists q, q ∈ drop (List.length (sent w0)) (sent w') /\ req_url q = u)
         (before ++ url :: after)).
Proof.
  intros Hts Hfail. split.
  - destruct (grh_trace (Z.to_nat (max_retry_times self + 1 - r)) r url m ts_arg
                header data tout w)
      as (d & w' & q0 & rest & Hrun & _ & _ & _ & _ & _ & _ & _ & Hall & _);
      [reflexivity | exact Hts |].
    destruct (Hall Hfail) as [Hd _]. subst d.
    eexists _, w'. repeat apply conj; [exact Hrun | reflexivity ..].
  - intros browser ts t before after w0 Hts0.
    destruct (save_sub_urls_trace browser m ts t (before ++ url :: after) w0 Hts0)
      as (saved & w' & more & Hloop & Hsent & Hall).
    exists saved, w'. split; [exact Hloop |].
    by rewrite Hsent, drop_app_length.
Qed.



(** What the instance holds at that point: an argument that was truthy
    on the first attempt has replaced the attribute. *)
Lemma after_prologue_stores header data ts w :
  (truthy header = true ->
   self_header (after_prologue user_agent header data ts w) = default ∅ header) /\
  (truthy data = true ->
   self_data (after_prologue user_agent header data ts w) = default ∅ data).
Proof. unfold after_prologue; cbn. split; intros ->; reflexivity. Qed.

End FetcherProofs.

(** *** The rendered strategy: [get_selenium_html] *)

Section SeleniumProofs.
Import PyFloat WebHtmlExtractor.

Variable user_agent : nat -> string.
Variable browser : nat -> browser_outcome.
Variable urlsplit_scheme urlsplit_netloc : string -> string.
Variable self : settings.

Let gsh := get_selenium_html user_agent browser urlsplit_scheme urlsplit_netloc self.

Lemma sleep_frame d w r w' :
  sleep d w = (r, w') ->
  drivers_created w' = drivers_created w /\ open_drivers w' = open_drivers w /\
  quit_log w' = quit_log w.
Proof.
  unfold sleep. destruct (Qlt_le_dec d 0); intros [= <- <-]; by cbn.
Qed.

Lemma selenium_try_spec url ts t d0 w driver d e w1 :
  selenium_try browser urlsplit_scheme urlsplit_netloc url ts t d0 w
    = ((driver, d, e), w1) ->
  drivers_created w1 = S (drivers_created w) /\
  quit_log w1 = quit_log w /\
  match driver with
  | Some k => k = drivers_created w /\ open_drivers w1 = {[k]} ∪ open_drivers w
  | None => open_drivers w1 = open_drivers w /\
            ~ session_created (browser (drivers_created w))
  end.
Proof.
  unfold selenium_try, chrome.
  destruct (browser (drivers_created w)) as [e0 | load] eqn:Hb; cbn.
  - intros [= <- <- <- <-]. cbn. auto.
  - match goal with |- context [sleep ts ?w0] =>
      destruct (sleep ts w0) as [[[] | e1] w2] eqn:Hs1;
      apply sleep_frame in Hs1 as (Hc1 & Ho1 & Hq1); cbn in Hc1, Ho1, Hq1
    end.
    + destruct (load url t) as [e2 | e2 | src cur].
      * intros [= <- <- <- <-]. by rewrite Hc1, Ho1, Hq1.
      * intros [= <- <- <- <-]. by rewrite Hc1, Ho1, Hq1.
      * destruct (sleep ts w2) as [[[] | e3] w3] eqn:Hs2;
          apply sleep_frame in Hs2 as (Hc2 & Ho2 & Hq2);
          intros [= <- <- <- <-]; by rewrite Hc2, Ho2, Hq2, Hc1, Ho1, Hq1.
    + intros [= <- <- <- <-]. by rewrite Hc1, Ho1, Hq1.
Qed.

Lemma gsh_releases n : forall r url m ts_arg headless tout w,
  Z.to_nat (max_retry_times self + 1 - r) = n ->
  releases browser w (snd (gsh url m ts_arg r headless tout w)).
Proof.
  induction n as [| n IH]; intros r url m ts_arg headless tout w Hn.
  all: unfold gsh; rewrite get_selenium_html_equation_1.
  all: destruct m; [| cbn; unfold releases; split; [done | split; [done | lia]]].
  all: cbn zeta; unfold bind at 1, random_user_agent.
  all: match goal with |- context [selenium_try _ _ _ ?u ?a ?b ?c ?w0] =>
         destruct (selenium_try browser urlsplit_scheme urlsplit_netloc u a b c w0)
           as [[[driver d] e] w1] eqn:Htry;
         apply selenium_try_spec in Htry as (Hc & Hq & Hd); cbn in Hc, Hq, Hd
       end.
  all: destruct e as [e |]; [destruct (is_selenium_error e) |].
  all: try destruct (Z_le_dec r (max_retry_times self)); try lia.
  all: unfold try_finally, ret, raise, bind.
  all: try (destruct driver as [k0 |]; cbn [quit_if]; unfold quit, ret; cbn;
            unfold releases; cbn; rewrite Hc;
            [destruct Hd as [-> Ho] | destruct Hd as [Ho Hnc]]; rewrite ?Hq, Ho;
            (split; [set_solver | split; [lia |]]);
            intros k Hk Hs; assert (k = drivers_created w) as -> by lia;
            [split; set_solver | contradiction]).
  destruct driver as [k0 |]; cbn [quit_if]; unfold quit, ret.
  all: match goal with |- context [get_selenium_html _ _ _ _ _ ?u ?mm ?a ?b ?c ?dd ?w2] =>
         pose proof (IH b u mm a c dd w2 ltac:(lia)) as Hrec;
         unfold gsh in Hrec;
         destruct (get_selenium_html user_agent browser urlsplit_scheme
                     urlsplit_netloc self u mm a b c dd w2) as [r0 w3]
       end.
  all: destruct Hrec as (Ho3 & Hc3 & Hk3); cbn in Ho3, Hc3, Hk3.
  all: rewrite Hc in Hc3, Hk3; unfold releases; cbn.
  - destruct Hd as [-> Ho]. rewrite Ho in Ho3.
    split; [set_solver | split; [lia |]].
    intros k Hk Hs.
    destruct (decide (k = drivers_created w)) as [-> | Hne]; [split; set_solver |].
    destruct (Hk3 k ltac:(lia) Hs). split; set_solver.
  - destruct Hd as [Ho Hnc]. rewrite Ho in Ho3.
    split; [set_solver | split; [lia |]].
    intros k Hk Hs.
    destruct (decide (k = drivers_created w)) as [-> | Hne]; [contradiction |].
    apply Hk3; [lia | exact Hs].
Qed.

(** C9: whatever the browser does, and whether the call returns or
    raises, a rendered fetch leaves open no session it started: the set
    of open sessions does not grow, and every session started during the
    call has been quit and is closed at the exit. *)
Theorem get_selenium_html_releases_driver url m ts_arg r headless tout w :
  let w' := snd (gsh url m ts_arg r headless tout w) in
  open_drivers w' ⊆ open_drivers w /\
  forall k, (drivers_created w <= k < drivers_created w')%nat ->
            session_created (browser k) ->
            k ∈ quit_log w' /\ k ∉ open_drivers w'.
Proof.
  destruct (gsh_releases (Z.to_nat (max_retry_times self + 1 - r)) r url m ts_arg
              headless tout w eq_refl) as (Ho & _ & Hk).
  by split.
Qed.

End SeleniumProofs.

(** *** Concrete runs *)

Section FetcherRuns.
Import PyFloat WebHtmlExtractor.

(** C2, refuted as stated: against a server that answers 500 every time,
    with [max_retry_times = 3], the fetcher issues four requests, not
    three, before it returns the failure dictionary. *)
Lemma three_attempts_refuted :
  let run := get_request_html always_500 fixed_agent example_scheme example_netloc
               default_settings "https://example.com/" get None 1 None None None idle in
  status_of_result (fst run) = Some false /\
  List.length (sent (snd run)) = 4%nat /\
  Z.of_nat (List.length (sent (snd run))) <> max_retry_times default_settings.
Proof. vm_compute. repeat split; discriminate. Qed.

Lemma get_request_html_attempts_witness :
  (0 <= default (time_sleep default_settings) None)%Q /\
  (forall k q, req_url q = "https://example.com/" ->
               ok_response (always_500 k q) = false) /\
  exists w',
    get_request_html always_500 fixed_agent example_scheme example_netloc
      default_settings "https://example.com/" get None 1 None None None idle
      = (Return (failure_dict example_scheme example_netloc "https://example.com/"), w') /\
    List.length (sent w') = (List.length (sent idle) + (Z.to_nat 3 + 1))%nat.
Proof.
  assert (H0 : (0 <= default (time_sleep default_settings) None)%Q)
    by (unfold Qle; simpl; lia).
  assert (H1 : forall k q, req_url q = "https://example.com/" ->
                           ok_response (always_500 k q) = false)
    by (intros; reflexivity).
  split; [exact H0 | split; [exact H1 |]].
  exact (get_request_html_attempts always_500 fixed_agent example_scheme
           example_netloc default_settings "https://example.com/" get None None
           None None idle H0 H1).
Defined.

Lemma get_request_html_exhausted_witness :
  (0 <= default (time_sleep default_settings) None)%Q /\
  (forall k q, req_url q = "https://example.com/a" ->
               ok_response (down_on "https://example.com/a" k q) = false) /\
  (exists d w',
     get_request_html (down_on "https://example.com/a") fixed_agent example_scheme
       example_netloc default_settings "https://example.com/a" get None 1 None
       None None idle = (Return d, w') /\
     status d = false /\ text d = None /\ url_of d = "https://example.com/a") /\
  (forall browser ts t before after w0,
     (0 <= ts)%Q ->
     exists saved w',
       save_sub_urls (down_on "https://example.com/a") fixed_agent browser
         example_scheme example_netloc default_settings requests get ts t
         (before ++ "https://example.com/a" :: after) w0 = (Return saved, w') /\
       Forall (fun u => exists q, q ∈ drop (List.length (sent w0)) (sent w') /\
                                  req_url q = u)
         (before ++ "https://example.com/a" :: after)).
Proof.
  assert (H0 : (0 <= default (time_sleep default_settings) None)%Q)
    by (unfold Qle; simpl; lia).
  assert (H1 : forall k q, req_url q = "https://example.com/a" ->
                           ok_response (down_on "https://example.com/a" k q) = false)
    by (intros k q Hq; unfold down_on; rewrite Hq; reflexivity).
  split; [exact H0 | split; [exact H1 |]].
  exact (get_request_html_exhausted (down_on "https://example.com/a") fixed_agent
           example_scheme example_netloc default_settings "https://example.com/a"
           get None 1 None None None idle H0 H1).
Defined.

(** C6, refuted as stated: with the base delay 0.1 and three retries,
    against a server that answers 500 every time, the fetcher sleeps
    four times. The second delay is the float product of 0.1 and 1.5,
    0.15000000000000002, not 1.5 times the first. The delays that start
    at the base delay are four, one more than the retries; the three
    delays between attempts start above the base delay. *)
Lemma backoff_exact_ratio_refuted :
  let run := get_request_html always_500 fixed_agent example_scheme example_netloc
               tenth_settings "https://example.com/" get None 1 None None None idle in
  slept (snd run)
  = [tenth; 1351079888211149 # 9007199254740992;
     4053239664633447 # 18014398509481984; 3039929748475085 # 9007199254740992]%Q /\
  ~ (1351079888211149 # 9007199254740992 == tenth * (3 # 2))%Q /\
  (Z.to_nat (max_retry_times tenth_settings) < List.length (slept (snd run)))%nat /\
  head (tail (slept (snd run))) <> Some (time_sleep tenth_settings).
Proof.
  cbv zeta. split; [vm_compute; reflexivity |].
  split; [vm_compute; discriminate |].
  split; [vm_compute; lia |].
  vm_compute. discriminate.
Qed.


(** The delays of that run, spelled out. *)
Example backoff_of_the_defaults :
  slept (snd (get_request_html always_500 fixed_agent example_scheme example_netloc
                default_settings "https://example.com/" get None 1 None None None idle))
  = [1; 3 # 2; 9 # 4; 27 # 8]%Q.
Proof. vm_compute. reflexivity. Qed.

(** C10, refuted as stated: a POST with a header, a payload and a
    timeout of its own, against a server that answers 500. The three
    retries are issued with the instance's timeout, but they carry the
    caller's payload and the caller's header entry, not what the
    instance held before the call. *)
Lemma retry_discards_arguments_refuted :
  let run := get_request_html always_500 fixed_agent example_scheme example_netloc
               default_settings "https://example.com/search" post None 1
               (Some caller_header) (Some caller_data) (Some 5%Q) idle in
  let retries := tail (sent (snd run)) in
  map req_timeout retries = [20; 20; 20]%Q /\
  map req_data retries = [Some caller_data; Some caller_data; Some caller_data] /\
  map (fun q => req_headers q !! "X-Token") retries
  = [Some (Some "abc"); Some (Some "abc"); Some (Some "abc")] /\
  caller_data <> self_data idle /\
  self_header idle !! "X-Token" = None.
Proof.
  cbv zeta. split; [vm_compute; reflexivity |].
  split; [vm_compute; reflexivity |].
  split; [vm_compute; reflexivity |].
  split; [| reflexivity].
  intros H. apply (f_equal (fun d : payload => d !! "q")) in H.
  vm_compute in H. discriminate H.
Qed.


(** That run, spelled out: a POST with a header, a payload and a timeout
    of its own, against a server that answers 500. The caller's timeout
    is on the first request only; the caller's payload, stored on the
    instance by the first attempt, is on all four. *)
Example retries_of_a_post :
  let run := get_request_html always_500 fixed_agent example_scheme example_netloc
               default_settings "https://example.com/search" post None 1
               (Some caller_header) (Some caller_data) (Some 5%Q) idle in
  map req_timeout (sent (snd run)) = [5; 20; 20; 20]%Q /\
  map req_data (sent (snd run))
    = [Some caller_data; Some caller_data; Some caller_data; Some caller_data].
Proof. vm_compute. split; reflexivity. Qed.

(** Two runs of the rendered strategy: one that returns after two crashed
    sessions, one that is left by an exception. Both end with no session
    open. *)
Example flaky_browser_run :
  let run := get_selenium_html fixed_agent flaky_browser example_scheme example_netloc
               default_settings "https://example.com/" get None 1 true None idle in
  status_of_result (fst run) = Some true /\
  drivers_created (snd run) = 3%nat /\
  open_drivers (snd run) = ∅ /\
  quit_log (snd run) = [0; 1; 2; 1; 0]%nat.
Proof. vm_compute. repeat split. Qed.

Example broken_browser_run :
  let run := get_selenium_html fixed_agent broken_browser example_scheme example_netloc
               default_settings "https://example.com/" get None 1 true None idle in
  fst run = Raise (OtherError 0) /\
  drivers_created (snd run) = 1%nat /\
  open_drivers (snd run) = ∅ /\
  quit_log (snd run) = [0]%nat.
Proof. vm_compute. repeat split. Qed.

End FetcherRuns.

(** *** The file name search finds a free name *)

Section FileNames.
Import PyStr WebCrawler.

Lemma candidate_inj h j k : candidate h j = candidate h k -> j = k.
Proof.
  destruct j as [| j], k as [| k]; cbn [candidate]; intros H.
  - done.
  - apply append_cancel_l in H. discriminate H.
  - apply append_cancel_l in H. discriminate H.
  - apply append_cancel_l in H. rewrite !append_cons, !append_empty in H.
    injection H as H. apply append_cancel_r in H. by apply string_of_nat_inj.
Qed.

Lemma candidate_slash h j k :
  startswith "/" (candidate h j) = startswith "/" (candidate h k).
Proof.
  assert (Hcons : forall a x, startswith "/" (String a x)
                               = if ascii_dec "/" a then true else false).
  { intros a x. unfold startswith. cbn [String.prefix].
    destruct (ascii_dec "/" a); [by destruct x | done]. }
  destruct h as [| a h]; [destruct j, k; reflexivity |].
  destruct j, k; cbn [candidate]; by rewrite !append_cons, !Hcons.
Qed.

Lemma candidate_path_inj dir h j k :
  os_path_join dir (candidate h j) = os_path_join dir (candidate h k) -> j = k.
Proof.
  unfold os_path_join. rewrite (candidate_slash h j k).
  destruct (startswith "/" (candidate h k)); [apply candidate_inj |].
  destruct (String.eqb dir "" || endswith "/" dir).
  - intros H. apply append_cancel_l in H. by apply candidate_inj in H.
  - intros H. apply append_cancel_l in H. rewrite !append_cons, !append_empty in H.
    injection H as H. by apply candidate_inj in H.
Qed.

Lemma free_filename_from fs dir h : forall fuel i (taken : gset string),
  (forall k, (i <= k)%nat -> is_Some (fs !! os_path_join dir (candidate h k)) ->
             os_path_join dir (candidate h k) ∈ taken) ->
  (size taken < fuel)%nat ->
  exists k, free_filename fs dir h (candidate h i) (S i) fuel = candidate h k /\
            fs !! os_path_join dir (candidate h k) = None.
Proof.
  induction fuel as [| fuel IH]; intros i taken Htaken Hsize; [lia |].
  cbn [free_filename]. case_bool_decide as Hi.
  - change (h +:+ "_" +:+ string_of_nat (S i) +:+ ".md") with (candidate h (S i)).
    apply (IH (S i) (taken ∖ {[os_path_join dir (candidate h i)]})).
    + intros k Hk Hex. apply elem_of_difference. split; [apply Htaken; [lia | done] |].
      intros Heq. apply elem_of_singleton in Heq. apply candidate_path_inj in Heq. lia.
    + assert (Hin : os_path_join dir (candidate h i) ∈ taken) by (apply Htaken; [lia | done]).
      rewrite size_difference by set_solver. rewrite size_singleton.
      assert (size taken <> 0)%nat; [| lia].
      intros Hz. apply size_empty_inv in Hz. set_solver.
  - exists i. split; [done |]. by apply eq_None_not_Some.
Qed.

(** The name the loop of lines 264-266 settles on is not on disk. *)
Lemma free_filename_free (fs : gmap string string) dir h :
  fs !! os_path_join dir (free_filename fs dir h (h +:+ ".md") 1 (S (size fs))) = None.
Proof.
  change (h +:+ ".md") with (candidate h 0).
  destruct (free_filename_from fs dir h (S (size fs)) 0 (dom fs)) as (k & -> & Hk).
  - intros k _ Hex. by apply elem_of_dom.
  - rewrite size_dom. lia.
  - exact Hk.
Qed.

End FileNames.

(** ** The crawler *)

Section CrawlerProofs.
Import PyStr WebCrawler.

Variable unescape : string -> string.
Variable re_search re_search_ignorecase : string -> string -> bool.
Variable hash : string -> Z.
Variable re_sub : string -> string -> string -> string.
Variable urlparse_path : string -> string.

Let formatted := _preserve_code_formatting unescape.
Let extract := extract_code_blocks unescape re_search re_search_ignorecase hash
                 re_sub urlparse_path.
Let loop := extract_loop unescape re_search re_search_ignorecase hash re_sub
              urlparse_path.

(** *** Fingerprints within one call of [extract_code_blocks] *)

Lemma extract_loop_emits url dir : forall els i seen blocks d,
  exists new added,
    emitted (snd (loop url dir i els seen blocks d)) = emitted d ++ new /\
    NoDup (map hash new) /\
    Forall (fun t => hash t ∉ seen) new /\
    Forall (fun t => exists e, e ∈ els /\ t = formatted (this e)) new /\
    files d ⊆ files (snd (loop url dir i els seen blocks d)) /\
    size (files (snd (loop url dir i els seen blocks d)))
      = (size (files d) + List.length new)%nat /\
    (forall r, fst (loop url dir i els seen blocks d) = Return r ->
               r = blocks ++ added /\ List.length added = List.length new).
Proof.
  induction els as [| e els IH]; intros i seen blocks d.
  - exists [], []. cbn. rewrite !app_nil_r.
    repeat apply conj; auto using NoDup_nil_2. intros r [= <-]. auto.
  - cbn [loop extract_loop]. unfold loop in IH |- *. cbn [extract_loop].
    fold formatted.
    set (code_text := formatted (this e)).
    destruct (negb (nonempty code_text) || (String.length (strip code_text) <? 15)%nat).
    { destruct (IH (S i) seen blocks d) as (new & added & H1 & H2 & H3 & H4 & H5 & H6 & H7).
      exists new, added. repeat apply conj; auto.
      eapply Forall_impl; [exact H4 |]. intros t (e' & Hin & Ht). exists e'. set_solver. }
    case_bool_decide as Hseen.
    { destruct (IH (S i) seen blocks d) as (new & added & H1 & H2 & H3 & H4 & H5 & H6 & H7).
      exists new, added. repeat apply conj; auto.
      eapply Forall_impl; [exact H4 |]. intros t (e' & Hin & Ht). exists e'. set_solver. }
    destruct (_detect_language re_search re_search_ignorecase e) as [language | err].
    2:{ exists [], []. cbn. rewrite app_nil_r.
        repeat apply conj; auto using NoDup_nil_2. intros r [=]. }
    set (save_dir := os_path_join dir (subfolder_for urlparse_path url)).
    set (safe_heading := safe_heading_for re_sub (heading_for e) i).
    pose proof (free_filename_free (files d) save_dir safe_heading) as Hfree.
    set (file_path := os_path_join save_dir
           (free_filename (files d) save_dir safe_heading (safe_heading +:+ ".md") 1
              (S (size (files d))))) in *.
    match goal with |- context [extract_loop _ _ _ _ _ _ _ _ _ _ ?seen' ?blocks' ?d'] =>
      destruct (IH (S i) seen' blocks' d')
        as (new & added & H1 & H2 & H3 & H4 & H5 & H6 & H7)
    end.
    cbn [files emitted] in H1, H5, H6.
    exists (code_text :: new),
      (mk_code_block url file_path (heading_for e) language :: added).
    split; [rewrite H1; cbn; by rewrite <- app_assoc |].
    split.
    { cbn. constructor; [| exact H2].
      intros Hin. apply list_elem_of_fmap in Hin as (t & Ht & Hint).
      rewrite Forall_forall in H3. specialize (H3 t Hint). set_solver. }
    split.
    { constructor; [exact Hseen |].
      eapply Forall_impl; [exact H3 |]. intros t Ht. set_solver. }
    split.
    { constructor; [exists e; set_solver |].
      eapply Forall_impl; [exact H4 |]. intros t (e' & Hin & Ht). exists e'. set_solver. }
    split.
    { etrans; [| exact H5]. by apply insert_subseteq. }
    split.
    { rewrite H6, map_size_insert_None by exact Hfree. cbn. lia. }
    intros r Hr. destruct (H7 r Hr) as [-> Hlen].
    split; [by rewrite <- app_assoc | cbn; lia].
Qed.

(** C1, as amended: within one call of [extract_code_blocks], that is
    within one page, the code files written come from texts with pairwise
    different fingerprints, each the formatted text of a code element of
    the page; each is a new file that replaces none, and each has one
    metadata record when the call returns. The fingerprint set is local
    to the call: nothing is promised across the pages of a run. *)
Theorem extract_code_blocks_one_per_fingerprint soup url dir d :
  exists new,
    emitted (snd (extract soup url dir d)) = emitted d ++ new /\
    NoDup (map hash new) /\
    Forall (fun t => exists e, e ∈ find_code_elements soup /\ t = formatted (this e)) new /\
    files d ⊆ files (snd (extract soup url dir d)) /\
    size (files (snd (extract soup url dir d))) = (size (files d) + List.length new)%nat /\
    (forall blocks, fst (extract soup url dir d) = Return blocks ->
                    List.length blocks = List.length new).
Proof.
  destruct (extract_loop_emits url dir (find_code_elements soup) 0 ∅ [] d)
    as (new & added & H1 & H2 & _ & H4 & H5 & H6 & H7).
  exists new. repeat apply conj; auto.
  intros blocks Hb. destruct (H7 blocks Hb) as [-> Hlen]. exact Hlen.
Qed.

(** *** The crawl loop *)

Variable web : nat -> string -> web_answer.
Variable parse : string -> page.
Variable urljoin : string -> string -> result string.
Variable urlparse_scheme urlparse_netloc : string -> string.
Variable start_url : string.
Variable max_depth : Z.

Local Abbreviation child_entry_of := (child_entry urlparse_scheme urlparse_netloc start_url).
Local Abbreviation in_scope_of := (in_scope urlparse_scheme urlparse_netloc start_url).
Local Abbreviation orderly_of := (orderly urlparse_scheme urlparse_netloc start_url).
Let links_of := queue_links urljoin urlparse_scheme urlparse_netloc start_url.
Let body := fetch_and_extract unescape re_search re_search_ignorecase hash re_sub
              urlparse_path web parse urljoin urlparse_scheme urlparse_netloc
              start_url max_depth.
Let process := process_url unescape re_search re_search_ignorecase hash re_sub
                 urlparse_path web parse urljoin urlparse_scheme urlparse_netloc
                 start_url max_depth.
Let run_loop := crawl_loop unescape re_search re_search_ignorecase hash re_sub
                  urlparse_path web parse urljoin urlparse_scheme urlparse_netloc
                  start_url max_depth.
Let run := crawl unescape re_search re_search_ignorecase hash re_sub
             urlparse_path web parse urljoin urlparse_scheme urlparse_netloc
             start_url max_depth.

Lemma queue_links_adds url depth : forall links st,
  exists added,
    processed_urls (snd (links_of url depth links st)) = processed_urls st /\
    fetched (snd (links_of url depth links st)) = fetched st /\
    url_queue (snd (links_of url depth links st)) = url_queue st ++ added /\
    Forall (child_entry_of depth) added.
Proof.
  induction links as [| href links IH]; intros st.
  - exists []. cbn. by rewrite app_nil_r.
  - unfold links_of in *. cbn [queue_links].
    destruct (skipped_href href); [apply IH |].
    destruct (next_url_of urljoin url href) as [next_url | e].
    2:{ exists []. cbn. by rewrite app_nil_r. }
    destruct (startswith _ _ && _) eqn:Hok; [| apply IH].
    match goal with |- context [queue_links _ _ _ _ _ _ _ ?st'] =>
      destruct (IH st') as (added & Hp & Hf & Hq & Ha)
    end.
    cbn in Hp, Hf, Hq.
    exists ((next_url, depth + 1) :: added).
    repeat apply conj; auto.
    + rewrite Hq. by rewrite <- app_assoc.
    + constructor; [| exact Ha]. split; [| reflexivity].
      apply andb_true_iff in Hok as [Hok _]. exact Hok.
Qed.

Lemma fetch_and_extract_adds url depth st :
  exists added,
    processed_urls (snd (body url depth st)) = processed_urls st /\
    fetched (snd (body url depth st)) = fetched st ++ [url] /\
    url_queue (snd (body url depth st)) = url_queue st ++ added /\
    Forall (child_entry_of depth) added /\
    (max_depth <= depth -> added = []).
Proof.
  unfold body, fetch_and_extract.
  destruct (web _ url) as [| code html]; cbn.
  { exists []. by rewrite app_nil_r. }
  destruct (negb (code =? 200)%Z); cbn.
  { exists []. by rewrite app_nil_r. }
  destruct (extract_code_blocks _ _ _ _ _ _ _ _ _ _) as [[blocks | e] d]; cbn.
  2:{ exists []. by rewrite app_nil_r. }
  destruct (depth <? max_depth)%Z eqn:Hd; cbn.
  - match goal with |- context [queue_links _ _ _ _ ?u ?dd ?l ?st'] =>
      destruct (queue_links_adds u dd l st') as (added & Hp & Hf & Hq & Ha);
      unfold links_of in *;
      destruct (queue_links urljoin urlparse_scheme urlparse_netloc start_url u dd l st')
        as [[[] | e] st2]
    end.
    all: cbn in Hp, Hf, Hq |- *.
    all: exists added; repeat apply conj; auto; lia.
  - exists []. by rewrite app_nil_r.
Qed.

Lemma process_url_effect url depth st :
  (url ∈ processed_urls st /\ snd (process url depth st) = st) \/
  (url ∉ processed_urls st /\
   exists added,
     processed_urls (snd (process url depth st)) = {[url]} ∪ processed_urls st /\
     fetched (snd (process url depth st)) = fetched st ++ [url] /\
     url_queue (snd (process url depth st)) = url_queue st ++ added /\
     Forall (child_entry_of depth) added /\
     (max_depth <= depth -> added = [])).
Proof.
  unfold process, process_url, already_processed.
  case_bool_decide as Hin; [by left | right].
  split; [exact Hin |].
  destruct (fetch_and_extract_adds url depth (mark_processed url st))
    as (added & Hp & Hf & Hq & Ha & Hd).
  exists added. unfold body in *. by rewrite Hp, Hf, Hq.
Qed.

Lemma crawl_loop_empty_queue rounds st :
  url_queue st = [] -> run_loop rounds st = st.
Proof. intros Hq. destruct rounds; cbn; [done | by rewrite Hq]. Qed.

Lemma crawl_loop_split n k st :
  run_loop (n + k) st = run_loop k (run_loop n st).
Proof.
  revert st. induction n as [| n IH]; intros st; [done |].
  cbn. destruct (url_queue st) as [| [url depth] q] eqn:Hq.
  - symmetry. by apply crawl_loop_empty_queue.
  - destruct (already_processed url st); apply IH.
Qed.

Lemma child_entry_in_scope depth added :
  Forall (child_entry_of depth) added -> Forall (fun entry => in_scope_of (fst entry)) added.
Proof. intros H. eapply Forall_impl; [exact H |]. intros entry [Hs _]. by right. Qed.

Lemma process_url_orderly url depth st :
  in_scope_of url -> orderly_of st -> orderly_of (snd (process url depth st)).
Proof.
  intros Hu (Hq & Hf & Hnd & Hsub).
  destruct (process_url_effect url depth st)
    as [[_ ->] | (Hnew & added & Hp & Hf' & Hq' & Ha & _)]; [done |].
  unfold orderly. rewrite Hp, Hf', Hq'.
  repeat apply conj.
  - apply Forall_app. split; [exact Hq | by eapply child_entry_in_scope].
  - apply Forall_app. split; [exact Hf | by constructor].
  - apply NoDup_app. repeat apply conj; [exact Hnd | | apply NoDup_singleton].
    intros u Hin Hin'. apply list_elem_of_singleton in Hin' as ->. auto.
  - intros u Hin. apply elem_of_app in Hin as [Hin | Hin]; set_solver.
Qed.

Lemma pop_queue_orderly st : orderly_of st -> orderly_of (pop_queue st).
Proof.
  intros (Hq & Hf & Hnd & Hsub). unfold orderly, pop_queue; cbn.
  repeat apply conj; auto.
  destruct (url_queue st); [done | by inversion Hq].
Qed.

Lemma crawl_loop_orderly rounds : forall st, orderly_of st -> orderly_of (run_loop rounds st).
Proof.
  induction rounds as [| rounds IH]; intros st Hst; [done |].
  cbn. destruct (url_queue st) as [| [url depth] q] eqn:Hq; [done |].
  destruct (already_processed url st).
  - apply IH. by apply pop_queue_orderly.
  - apply IH. apply process_url_orderly; [| by apply pop_queue_orderly].
    destruct Hst as (Hall & _). rewrite Hq in Hall. by inversion Hall.
Qed.

Lemma crawl_orderly rounds d : orderly_of (run rounds d).
Proof.
  apply crawl_loop_orderly. apply process_url_orderly; [by left |].
  unfold orderly; cbn. repeat apply conj.
  - constructor; [by left | constructor].
  - constructor.
  - apply NoDup_nil_2.
  - intros u Hu. by apply elem_of_nil in Hu.
Qed.

(** With [max_depth] at most 1 the seed, itself at depth 1, is the only
    URL ever processed. *)
Lemma crawl_depth_one rounds d :
  max_depth <= 1 ->
  processed_urls (run rounds d) = {[start_url]} /\ fetched (run rounds d) = [start_url].
Proof.
  intros Hd. unfold run, crawl, start.
  set (st0 := mk_state ∅ [(start_url, 1)] [] [] d []).
  destruct (process_url_effect start_url 1 st0)
    as [[Hin _] | (_ & added & Hp & Hf & Hq & _ & Hnone)];
    [by apply not_elem_of_empty in Hin |].
  rewrite (Hnone Hd) in Hq. cbn in Hp, Hf, Hq.
  fold process. set (st1 := snd (process start_url 1 st0)) in *.
  fold run_loop.
  assert (Hstable : forall r, processed_urls (run_loop r st1) = processed_urls st1 /\
                              fetched (run_loop r st1) = fetched st1).
  { intros [| r]; [done |]. cbn. rewrite Hq.
    unfold already_processed. rewrite Hp.
    rewrite bool_decide_eq_true_2 by set_solver.
    fold run_loop. by rewrite crawl_loop_empty_queue by (cbn; by rewrite Hq). }
  destruct (Hstable rounds) as [-> ->]. rewrite Hp, Hf. split; [set_solver | done].
Qed.

End CrawlerProofs.

(** *** Concrete crawls *)

Section CrawlerRuns.
Import PyStr WebCrawler.

(** The crawl of a scenario site from [seed]. *)
Local Abbreviation crawl_site site max_depth rounds :=
  (crawl no_entities no_match no_match length_hash plain_re_sub path_of_example
     serve_all site absolute_urljoin https example_com seed max_depth rounds
     empty_disk).

Lemma not_processed_by_evaluation (u : string) (urls : gset string) :
  bool_decide (u ∈ urls) = false -> u ∉ urls.
Proof. intros H. by apply bool_decide_eq_false_1 in H. Qed.

(** C1, refuted as stated: two pages of one run show the same code
    block; each page gets its own fingerprint set, and the run writes the
    block twice, with two metadata records. *)
Lemma one_artifact_per_run_refuted :
  let run := crawl_site site_same_block 2 10%nat in
  emitted (on_disk run) = ["print('hello, world')"; "print('hello, world')"] /\
  map cb_file (code_data run)
    = ["data/code/example_com/a/Code_Example.md";
       "data/code/example_com/b/Code_Example.md"] /\
  ~ NoDup (map length_hash (emitted (on_disk run))).
Proof.
  cbv zeta.
  split; [vm_compute; reflexivity |].
  split; [vm_compute; reflexivity |].
  intros H.
  assert (E : map length_hash (emitted (on_disk (crawl_site site_same_block 2 10%nat)))
              = [21; 21]) by (vm_compute; reflexivity).
  rewrite E in H. apply NoDup_cons_1_1 in H. apply H. set_solver.
Qed.

(** The same block twice on one page is written once. *)
Example same_block_on_one_page :
  let out := extract_code_blocks no_entities no_match no_match length_hash
               plain_re_sub path_of_example page_twice page_a
               "data/code/example_com" empty_disk in
  emitted (snd out) = ["print('hello, world')"] /\
  option_map (map cb_file) (match fst out with Return b => Some b | Raise _ => None end)
    = Some ["data/code/example_com/a/Code_Example.md"].
Proof. vm_compute. split; reflexivity. Qed.

(** C3, refuted as stated: in scenario A with [max_depth = 1] the crawl
    processes the seed and nothing else; the two internal links are not
    admitted. *)
Lemma depth_one_admits_links_refuted :
  let run := crawl_site site_A 1 10%nat in
  fetched run = [seed] /\ url_queue run = [] /\
  page_a ∉ processed_urls run /\ page_b ∉ processed_urls run.
Proof.
  cbv zeta.
  split; [vm_compute; reflexivity |].
  split; [vm_compute; reflexivity |].
  split; apply not_processed_by_evaluation; vm_compute; reflexivity.
Qed.

(** C3, as amended: the seed is itself at depth 1 and links are queued
    only from a page at a depth below [max_depth]. So with [max_depth] at
    most 1 the seed is the only URL admitted, whatever it links to; in
    scenario A it takes [max_depth = 2] for the two internal links to be
    admitted next to the seed. At every depth the crawl fetches, besides
    the seed, only URLs that start with the domain prefix, so never the
    external link. *)
Theorem crawl_admits_by_depth unescape re_search re_search_ignorecase hash re_sub
    urlparse_path web parse urljoin urlparse_scheme urlparse_netloc
    start_url max_depth rounds d :
  let run := crawl unescape re_search re_search_ignorecase hash re_sub urlparse_path
               web parse urljoin urlparse_scheme urlparse_netloc start_url
               max_depth rounds d in
  (max_depth <= 1 ->
   processed_urls run = {[start_url]} /\ fetched run = [start_url]) /\
  Forall (in_scope urlparse_scheme urlparse_netloc start_url) (fetched run) /\
  (forall k,
     let run_A := crawl_site site_A 2 (3 + k)%nat in
     processed_urls run_A = {[seed; page_a; page_b]} /\
     fetched run_A = [seed; page_a; page_b] /\
     elsewhere ∉ processed_urls run_A).
Proof.
  cbv zeta.
  split; [apply crawl_depth_one |].
  split; [apply crawl_orderly |].
  intros k. unfold crawl. rewrite crawl_loop_split.
  rewrite crawl_loop_empty_queue by (vm_compute; reflexivity).
  split; [vm_compute; reflexivity |].
  split; [vm_compute; reflexivity |].
  apply not_processed_by_evaluation. vm_compute. reflexivity.
Qed.

Lemma crawl_admits_by_depth_witness :
  1 <= 1 /\
  processed_urls (crawl_site site_A 1 10%nat) = {[seed]} /\
  fetched (crawl_site site_A 1 10%nat) = [seed].
Proof.
  assert (H : 1 <= 1) by lia.
  split; [exact H |].
  exact (proj1 (crawl_admits_by_depth no_entities no_match no_match length_hash
                  plain_re_sub path_of_example serve_all site_A absolute_urljoin
                  https example_com seed 1 10%nat empty_disk) H).
Defined.

(** C4 at the failing input: the seed links twice to one page; with two
    workers the main thread submits that page twice before either worker
    has marked it, both workers pass the membership test of line 51, and
    the page is fetched and recorded twice. *)
Theorem racing_workers_fetch_twice :
  exists p,
    pool_run no_entities no_match no_match length_hash plain_re_sub path_of_example
      serve_all site_twin_links absolute_urljoin https example_com seed 2 2
      racing_schedule
      (pool_start no_entities no_match no_match length_hash plain_re_sub
         path_of_example serve_all site_twin_links absolute_urljoin https
         example_com seed 2 empty_disk) = Some p /\
    fetched (shared p) = [seed; page_a; page_a] /\
    map hd_url (html_file (shared p)) = [seed; page_a; page_a] /\
    map task_url (futures p) = [page_a; page_a].
Proof.
  eexists. split; [vm_compute; reflexivity |].
  cbn. repeat split.
Qed.

End CrawlerRuns.

(** ** Formatting and language detection *)


Section FormattingProofs.
Import PyStr WebCrawler.

Variable unescape : string -> string.

Lemma min_indent_from_spec lines : forall acc,
  match min_indent_from acc lines with
  | None => acc = None /\ Forall (fun l => nonblank l = false) lines
  | Some m =>
      (forall a, acc = Some a -> (m <= a)%nat) /\
      Forall (fun l => nonblank l = true -> (m <= indent l)%nat) lines /\
      (acc = Some m \/ Exists (fun l => nonblank l = true /\ indent l = m) lines)
  end.
Proof.
  induction lines as [| l lines IH]; intros acc; cbn.
  - destruct acc as [a |]; [| done].
    repeat apply conj; [by intros ? [= ->] | constructor | by left].
  - destruct (nonblank l) eqn:Hl.
    + match goal with |- context [min_indent_from ?acc' lines] =>
        specialize (IH acc'); destruct (min_indent_from acc' lines) as [m |]
      end.
      * destruct IH as (Hacc & Hall & Hex).
        specialize (Hacc _ eq_refl).
        repeat apply conj.
        -- intros a ->. lia.
        -- constructor; [intros _; destruct acc; lia | exact Hall].
        -- destruct Hex as [[= Hm] | Hex]; [| by right; constructor].
           destruct acc as [a |].
           ++ destruct (Nat.min_spec a (indent l)) as [[Hlt Hmin] | [Hle Hmin]].
              ** left. congruence.
              ** right. constructor. split; [done | congruence].
           ++ right. constructor. by split.
      * by destruct IH as [[=] _].
    + specialize (IH acc). destruct (min_indent_from acc lines) as [m |].
      * destruct IH as (Hacc & Hall & Hex).
        repeat apply conj; [exact Hacc | constructor; [by rewrite Hl | exact Hall] |].
        destruct Hex as [Hex | Hex]; [by left | by right; constructor].
      * destruct IH as (-> & Hall). split; [done | by constructor].
Qed.

Lemma fix_lines_free m lines :
  Forall (fun l => has_char newline l = false) lines ->
  Forall (fun l => has_char newline l = false) (fix_lines m lines).
Proof.
  intros H. unfold fix_lines. apply Forall_fmap.
  eapply Forall_impl; [exact H |]. intros l Hl. cbn.
  destruct (nonblank l); [by apply has_char_slice_from | done].
Qed.

(** C8, as amended: a [pre] block is read with its line breaks and
    with entities decoded; when that text has more than one line, the
    output has the same number of lines, each non-blank line has lost
    exactly the minimum indentation of the non-blank lines, all of it
    leading whitespace, and each blank line is as it was; a text of a
    single line is returned as it is, indentation included. *)
Theorem preserve_code_formatting_block class contents :
  let element := Tag "pre" class contents in
  let content := block_text unescape element in
  let lines := split_char newline content in
  let out := _preserve_code_formatting unescape element in
  ((List.length lines <= 1)%nat -> out = content) /\
  ((1 < List.length lines)%nat ->
   List.length (split_char newline out) = List.length lines /\
   (forall i line, lines !! i = Some line ->
      if nonblank line then
        exists m ws,
          min_indent_from None lines = Some m /\
          String.length ws = m /\ all_space ws = true /\
          line = ws +:+ slice_from m line /\
          split_char newline out !! i = Some (slice_from m line)
      else split_char newline out !! i = Some line) /\
   (forall m, min_indent_from None lines = Some m ->
      Forall (fun l => nonblank l = true -> (m <= indent l)%nat) lines /\
      Exists (fun l => nonblank l = true /\ indent l = m) lines)).
Proof.
  cbv zeta.
  assert (Hout : _preserve_code_formatting unescape (Tag "pre" class contents)
                 = fix_indentation (block_text unescape (Tag "pre" class contents)))
    by reflexivity.
  rewrite Hout. clear Hout.
  set (content := block_text unescape (Tag "pre" class contents)).
  unfold fix_indentation. set (lines := split_char newline content).
  pose proof (min_indent_from_spec lines None) as Hmin.
  pose proof (split_char_free newline content) as Hfree. fold lines in Hfree.
  split.
  { intros Hlen. destruct (Nat.ltb_spec 1 (List.length lines)); [lia | done]. }
  intros Hlen. destruct (Nat.ltb_spec 1 (List.length lines)); [| lia].
  destruct (min_indent_from None lines) as [m |].
  - destruct Hmin as (_ & Hall & [[=] | Hex]).
    assert (Hsplit : split_char newline (join (String newline "") (fix_lines m lines))
                     = fix_lines m lines).
    { apply split_char_join; [| by apply fix_lines_free].
      unfold fix_lines. destruct lines; [cbn in Hlen; lia | done]. }
    rewrite Hsplit. repeat apply conj.
    + unfold fix_lines. by rewrite length_fmap.
    + intros i line Hi.
      assert (Hfix : fix_lines m lines !! i
                     = Some (if nonblank line then slice_from m line else line)).
      { unfold fix_lines. by rewrite list_lookup_fmap, Hi. }
      destruct (nonblank line) eqn:Hnb; [| exact Hfix].
      rewrite Forall_forall in Hall.
      assert (Hm : (m <= indent line)%nat).
      { apply Hall; [| exact Hnb]. by eapply list_elem_of_lookup_2. }
      destruct (slice_from_leading m line Hm) as (ws & Hl & Hws & Hsp).
      exists m, ws. repeat apply conj; auto.
    + intros m' [= <-]. by split.
  - destruct Hmin as (_ & Hblank). fold lines. repeat apply conj.
    + done.
    + intros i line Hi. rewrite Forall_forall in Hblank.
      rewrite (Hblank line) by (by eapply list_elem_of_lookup_2). exact Hi.
    + intros m [=].
Qed.

End FormattingProofs.

Section LanguageProofs.
Import PyStr WebCrawler.

Variable re_search re_search_ignorecase : string -> string -> bool.

Let detect := _detect_language re_search re_search_ignorecase.
Let by_content := content_rules re_search re_search_ignorecase.

Lemma scan_tokens_app l1 l2 :
  scan_tokens (l1 ++ l2)
  = match scan_tokens l1 with
    | Some r => Some r
    | None => scan_tokens l2
    end.
Proof.
  induction l1 as [| cls l1 IH]; cbn; [done |].
  by destruct (class_rules cls).
Qed.

Lemma scan_tokens_none l :
  Forall (fun t => class_rules t = None) l -> scan_tokens l = None.
Proof. induction 1 as [| t l Ht _ IH]; cbn; [done | by rewrite Ht]. Qed.

Lemma detect_language_scan e :
  detect e = match scan_tokens (class_tokens e) with
             | Some r => r
             | None => Return (by_content (get_text "" (this e)))
             end.
Proof.
  unfold detect, _detect_language, class_tokens, scan_classes.
  rewrite scan_tokens_app.
  destruct (get_class (this e)) as [l1 |]; cbn [default from_option id].
  - destruct (scan_tokens l1); [done |].
    destruct (parent e) as [n |]; [| done]. by destruct (get_class n).
  - cbn [scan_tokens]. destruct (parent e) as [n |]; [| done].
    by destruct (get_class n).
Qed.

Lemma explicit_token_has_language cls :
  startswith "language-" cls = true ->
  exists x, split_char "-" cls !! 1%nat = Some x.
Proof.
  intros H. apply prefix_append in H as [r ->].
  change ("language-" +:+ r) with ("language" +:+ String "-" r).
  rewrite split_char_app by reflexivity.
  pose proof (split_char_nonempty "-" r) as Hne.
  destruct (split_char "-" r) as [| h t]; [done |]. by exists h.
Qed.

Lemma class_rules_returns cls r :
  no_space cls = true -> class_rules cls = Some r -> exists l, r = Return l.
Proof.
  intros Hns. unfold class_rules.
  destruct (startswith "language-" cls) eqn:Hp.
  - destruct (explicit_token_has_language cls Hp) as [x ->]. intros [= <-]. by exists x.
  - unfold embedded_language. destruct (contains "language-" cls).
    + destruct (split_str "language-" cls !! 1%nat) as [part1 |] eqn:Hpart.
      * destruct (nonempty part1) eqn:Hne.
        -- assert (Hfree : no_space part1 = true).
           { pose proof (split_str_aux_no_space "language-" cls 0 "" Hns eq_refl) as Hall.
             rewrite Forall_forall in Hall. apply Hall.
             by eapply list_elem_of_lookup_2. }
           destruct (first_word_no_space part1 Hfree Hne) as [w ->].
           intros [= <-]. by exists w.
        -- destruct (language_named_in cls) as [lang |]; intros [= <-]. by exists lang.
      * destruct (language_named_in cls) as [lang |]; intros [= <-]. by exists lang.
    + destruct (language_named_in cls) as [lang |]; intros [= <-]. by exists lang.
Qed.


End LanguageProofs.

Section FormattingRuns.
Import PyStr WebCrawler.

(** C8, refuted as stated: a [pre] block of one indented line keeps its
    indentation; the common-indent removal of the design document would
    have taken it away. *)
Lemma single_line_dedent_refuted :
  _preserve_code_formatting no_entities one_line_block = "    total = compute(1)" /\
  documented_formatting (block_text no_entities one_line_block) = "total = compute(1)" /\
  _preserve_code_formatting no_entities one_line_block
    <> documented_formatting (block_text no_entities one_line_block).
Proof. vm_compute. repeat split. discriminate. Qed.

Lemma preserve_code_formatting_block_witness :
  (1 < List.length (split_char newline (block_text no_entities three_line_block)))%nat /\
  split_char newline (_preserve_code_formatting no_entities three_line_block)
    = ["def f():"; ""; "    return 1"] /\
  List.length (split_char newline (_preserve_code_formatting no_entities three_line_block))
    = List.length (split_char newline (block_text no_entities three_line_block)).
Proof.
  assert (H : (1 < List.length (split_char newline
                                  (block_text no_entities three_line_block)))%nat)
    by (vm_compute; lia).
  split; [exact H |].
  split; [vm_compute; reflexivity |].
  exact (proj1 (proj2 (preserve_code_formatting_block no_entities (Some ["highlight"])
     [Tag "code" None
        [NavigableString ("  def f():" +:+ String newline "" +:+ String newline "" +:+
                          "      return 1")]]) H)).
Defined.



End FormattingRuns.

(** ** More on the fetcher *)

Section FetcherMore.
Import PyFloat WebHtmlExtractor.

Variable network : nat -> request -> http_outcome.
Variable user_agent : nat -> string.
Variable browser : nat -> browser_outcome.
Variable urlsplit_scheme urlsplit_netloc : string -> string.
Variable self : settings.

Local Abbreviation fetch := (get_request_html network user_agent urlsplit_scheme
                               urlsplit_netloc self).
Local Abbreviation render := (get_selenium_html user_agent browser urlsplit_scheme
                                urlsplit_netloc self).

(** X1: the call stops at the first response with status 200. If the
    first [k] requests fail and the next one is answered 200, the call
    has issued [k + 1] requests and slept [k + 1] backoff delays, and the
    dictionary it returns carries the text and the final URL of that
    response (the URL after redirects, not the one asked for). *)
Theorem get_request_html_first_success k : forall url m ts_arg r header data tout w resp,
  (0 <= default (time_sleep self) ts_arg)%Q ->
  r + Z.of_nat k <= max_retry_times self + 1 ->
  (forall i q, (i < k)%nat ->
               ok_response (network (List.length (sent w) + i) q) = false) ->
  (forall q, req_url q = url ->
             network (List.length (sent w) + k) q = Responded resp) ->
  status_code resp = 200 ->
  exists w',
    fetch url m ts_arg r header data tout w
      = (Return {| url_of := response_url resp;
                   host_url := split_host_url urlsplit_scheme urlsplit_netloc
                                 (response_url resp);
                   text := Some (response_text resp); status := true |}, w') /\
    List.length (sent w') = (List.length (sent w) + k + 1)%nat /\
    slept w' = slept w ++ backoff (default (time_sleep self) ts_arg) (S k).
Proof.
  induction k as [| k IH]; intros url m ts_arg r header data tout w resp Hts Hr Hfail Hok H200.
  - rewrite grh_unfold by exact Hts. cbv zeta.
    rewrite Nat.add_0_r in Hok.
    rewrite Hok by (by destruct m). cbn [ok_response]. rewrite H200. cbn.
    eexists. split; [reflexivity |]. cbn. split; [rewrite length_app; cbn; lia | done].
  - rewrite grh_unfold by exact Hts. cbv zeta.
    pose proof (Hfail 0%nat) as H0. rewrite Nat.add_0_r in H0.
    rewrite H0 by lia.
    rewrite decide_True by lia.
    match goal with |- context [get_request_html _ _ _ _ _ _ _ ?ts' ?r' _ _ _ ?w2] =>
      destruct (IH url m ts' r' None None None w2 resp) as (w' & Hrun & Hsent & Hslept)
    end.
    + cbn. apply float_mul_nonneg; [exact Hts | discriminate].
    + lia.
    + intros i q Hi. cbn. rewrite length_app. cbn.
      replace (List.length (sent w) + 1 + i)%nat with (List.length (sent w) + S i)%nat by lia.
      apply Hfail. lia.
    + intros q Hq. cbn. rewrite length_app. cbn.
      replace (List.length (sent w) + 1 + k)%nat with (List.length (sent w) + S k)%nat by lia.
      by apply Hok.
    + exact H200.
    + exists w'. split; [exact Hrun |]. cbn in Hsent, Hslept.
      rewrite length_app in Hsent. cbn in Hsent.
      split; [lia |]. rewrite Hslept. cbn. by rewrite <- app_assoc.
Qed.

(** X2: a negative delay is an error before anything is sent:
    [time.sleep] raises [ValueError], which no handler catches, and the
    call has issued no request and slept nothing. *)
Theorem get_request_html_negative_delay url m ts_arg r header data tout w :
  (default (time_sleep self) ts_arg < 0)%Q ->
  exists w',
    get_request_html network user_agent urlsplit_scheme urlsplit_netloc self
      url m ts_arg r header data tout w = (Raise ValueError, w') /\
    sent w' = sent w /\ slept w' = slept w.
Proof.
  intros Hneg. rewrite get_request_html_equation_1.
  unfold bind, sleep, set_self_header, set_self_data, get_self_header,
    get_self_data, random_user_agent, ret.
  cbn zeta.
  destruct (truthy header); destruct (truthy data); cbn.
  all: destruct (Qlt_le_dec _ 0) as [_ | Hpos];
    [| exfalso; revert Hneg; by apply Qle_not_lt].
  all: eexists; split; [reflexivity | by cbn].
Qed.

Lemma selenium_try_fails url ts t d0 w :
  (0 <= ts)%Q ->
  session_fails url (browser (drivers_created w)) ->
  exists driver e w1,
    selenium_try browser urlsplit_scheme urlsplit_netloc url ts t d0 w
      = ((driver, d0, Some e), w1) /\
    is_selenium_error e = true /\
    drivers_created w1 = S (drivers_created w) /\
    sent w1 = sent w.
Proof.
  intros Hts Hfail. unfold selenium_try, chrome.
  destruct (browser (drivers_created w)) as [e0 | load]; cbn in Hfail |- *.
  - by exists None, e0, (mk_World (self_header w) (self_data w) (slept w) (sent w)
                           (ua_drawn w) (S (drivers_created w)) (open_drivers w)
                           (quit_log w)).
  - unfold sleep at 1. destruct (Qlt_le_dec ts 0) as [Hneg | _];
      [exfalso; revert Hneg; by apply Qle_not_lt |].
    specialize (Hfail t). destruct (load url t) as [e | e |]; [| | done].
    all: eexists (Some _), e, _; by repeat split.
Qed.

Lemma quit_if_frame driver w :
  exists w', quit_if driver w = (Return tt, w') /\
             drivers_created w' = drivers_created w /\ sent w' = sent w.
Proof. destruct driver; eexists; by repeat split. Qed.

Lemma get_selenium_html_exhausted_by n : forall r url ts_arg headless tout w,
  Z.to_nat (max_retry_times self + 1 - r) = n ->
  (0 <= default (time_sleep self) ts_arg)%Q ->
  (forall k, session_fails url (browser k)) ->
  exists w',
    render url get ts_arg r headless tout w
      = (Return (failure_dict urlsplit_scheme urlsplit_netloc url), w') /\
    drivers_created w' = (drivers_created w + n + 1)%nat /\
    sent w' = sent w.
Proof.
  induction n as [| n IH]; intros r url ts_arg headless tout w Hn Hts Hfail.
  all: rewrite get_selenium_html_equation_1; cbn zeta.
  all: unfold bind at 1, random_user_agent.
  all: match goal with |- context [selenium_try _ _ _ ?u ?a ?b ?c ?w0] =>
         destruct (selenium_try_fails u a b c w0 Hts (Hfail _))
           as (driver & e & w1 & -> & He & Hc & Hs)
       end.
  all: cbn in Hc, Hs; rewrite He.
  all: destruct (Z_le_dec r (max_retry_times self)); try lia.
  - unfold try_finally, ret.
    destruct (quit_if_frame driver w1) as (w2 & -> & Hc2 & Hs2).
    exists w2. split; [reflexivity |]. split; [lia | congruence].
  - unfold try_finally, bind.
    destruct (quit_if_frame driver w1) as (w2 & -> & Hc2 & Hs2).
    destruct (IH (r + 1) url (Some (float_mul (default (time_sleep self) ts_arg) (3 # 2)))
                headless None w2) as (w3 & Hrun & Hc3 & Hs3).
    + lia.
    + cbn. apply float_mul_nonneg; [exact Hts | discriminate].
    + exact Hfail.
    + rewrite Hrun.
      destruct (quit_if_frame driver w3) as (w4 & -> & Hc4 & Hs4).
      exists w4. split; [reflexivity |]. split; [lia | congruence].
Qed.

(** X3: the rendered strategy gives up like the direct one. When every
    browser session ends in a Selenium error, a call with the default
    [retry_times = 1] returns (it does not raise) the failure dictionary,
    after [max_retry_times + 1] sessions, and sends no HTTP request of
    its own. *)
Theorem get_selenium_html_exhausted url ts_arg headless tout w :
  (0 <= default (time_sleep self) ts_arg)%Q ->
  (forall k, session_fails url (browser k)) ->
  exists w',
    render url get ts_arg 1 headless tout w
      = (Return (failure_dict urlsplit_scheme urlsplit_netloc url), w') /\
    drivers_created w'
      = (drivers_created w + Z.to_nat (max_retry_times self) + 1)%nat /\
    sent w' = sent w.
Proof.
  intros Hts Hfail.
  apply get_selenium_html_exhausted_by; [f_equal; lia | exact Hts | exact Hfail].
Qed.

(** X4: an error that is not Selenium's is not retried. If the first
    session is left by such an error, the call raises it after that one
    session, whatever retries are left, and sends no HTTP request. *)
Theorem get_selenium_html_other_error url ts_arg r headless tout w e :
  (0 <= default (time_sleep self) ts_arg)%Q ->
  is_selenium_error e = false ->
  session_breaks url e (browser (drivers_created w)) ->
  exists w',
    render url get ts_arg r headless tout w = (Raise e, w') /\
    drivers_created w' = S (drivers_created w) /\
    sent w' = sent w.
Proof.
  intros Hts He Hbreak. rewrite get_selenium_html_equation_1; cbn zeta.
  unfold bind at 1, random_user_agent, selenium_try, chrome. cbn.
  destruct (browser (drivers_created w)) as [e0 | load]; cbn in Hbreak |- *.
  - subst e0. rewrite He. unfold try_finally, raise, quit_if, ret. cbn.
    eexists. split; [reflexivity | by cbn].
  - unfold sleep at 1. destruct (Qlt_le_dec _ 0) as [Hneg | _];
      [exfalso; revert Hneg; by apply Qle_not_lt |].
    destruct (Hbreak (default (time_out self) tout)) as [-> | ->].
    all: rewrite He; unfold try_finally, raise, quit_if, quit; cbn.
    all: eexists; split; [reflexivity | by cbn].
Qed.

End FetcherMore.

Section QueueLinks.
Import PyStr WebCrawler.

Variable urljoin : string -> string -> result string.
Variable urlparse_scheme urlparse_netloc : string -> string.
Variable start_url : string.

(** The link loop touches the queue only. *)
Lemma queue_links_records url depth : forall links st,
  html_file (snd (queue_links urljoin urlparse_scheme urlparse_netloc start_url
                    url depth links st)) = html_file st /\
  code_data (snd (queue_links urljoin urlparse_scheme urlparse_netloc start_url
                    url depth links st)) = code_data st /\
  on_disk (snd (queue_links urljoin urlparse_scheme urlparse_netloc start_url
                  url depth links st)) = on_disk st.
Proof.
  induction links as [| href links IH]; intros st; [done |].
  cbn [queue_links]. destruct (skipped_href href); [apply IH |].
  destruct (next_url_of urljoin url href) as [next_url | e]; [| done].
  destruct (startswith _ _ && _); [| apply IH].
  match goal with |- context [queue_links _ _ _ _ _ _ _ ?st'] =>
    destruct (IH st') as (H1 & H2 & H3)
  end. by rewrite H1, H2, H3.
Qed.

End QueueLinks.

(** ** More on the crawl *)

Section CrawlerMore.
Import PyStr WebCrawler.

Variable unescape : string -> string.
Variable re_search re_search_ignorecase : string -> string -> bool.
Variable hash : string -> Z.
Variable re_sub : string -> string -> string -> string.
Variable urlparse_path : string -> string.
Variable web : nat -> string -> web_answer.
Variable parse : string -> page.
Variable urljoin : string -> string -> result string.
Variable urlparse_scheme urlparse_netloc : string -> string.
Variable start_url : string.
Variable max_depth : Z.

Local Abbreviation prefix_of_site := (domain_prefix urlparse_scheme urlparse_netloc start_url).
Local Abbreviation child_of := (child_entry urlparse_scheme urlparse_netloc start_url).
Local Abbreviation scoped := (in_scope urlparse_scheme urlparse_netloc start_url).
Local Abbreviation body := (fetch_and_extract unescape re_search re_search_ignorecase
   hash re_sub urlparse_path web parse urljoin urlparse_scheme urlparse_netloc
   start_url max_depth).
Local Abbreviation process := (process_url unescape re_search re_search_ignorecase
   hash re_sub urlparse_path web parse urljoin urlparse_scheme urlparse_netloc
   start_url max_depth).
Local Abbreviation run_loop := (crawl_loop unescape re_search re_search_ignorecase
   hash re_sub urlparse_path web parse urljoin urlparse_scheme urlparse_netloc
   start_url max_depth).
Local Abbreviation run := (crawl unescape re_search re_search_ignorecase
   hash re_sub urlparse_path web parse urljoin urlparse_scheme urlparse_netloc
   start_url max_depth).
Local Abbreviation recorded := (from_answer_200 web urlparse_scheme urlparse_netloc start_url).
Local Abbreviation grown := grown_from.
Local Abbreviation sound := (records_sound web urlparse_scheme urlparse_netloc start_url).

(** What the [try] block does to the records, whatever it does to the
    queue: nothing when the answer is not a 200, one more line of the
    HTML file when it is. *)
Lemma fetch_and_extract_records url depth st :
  (fst (body url depth st) = None /\
   (forall text, web (List.length (fetched st)) url <> Answered 200 text) /\
   html_file (snd (body url depth st)) = html_file st /\
   code_data (snd (body url depth st)) = code_data st /\
   on_disk (snd (body url depth st)) = on_disk st /\
   url_queue (snd (body url depth st)) = url_queue st) \/
  (exists text,
     web (List.length (fetched st)) url = Answered 200 text /\
     html_file (snd (body url depth st))
       = html_file st ++ [mk_html_data url text true prefix_of_site] /\
     code_data st `prefix_of` code_data (snd (body url depth st)) /\
     files (on_disk st) ⊆ files (on_disk (snd (body url depth st))) /\
     emitted (on_disk st) `prefix_of` emitted (on_disk (snd (body url depth st)))).
Proof.
  unfold fetch_and_extract.
  destruct (web _ url) as [| code html] eqn:Hweb; cbn.
  { left. by repeat split. }
  destruct (code =? 200)%Z eqn:Hcode; cbn.
  2:{ left. repeat split; try done. intros text [= -> _]. discriminate Hcode. }
  apply Z.eqb_eq in Hcode as ->.
  right. exists html. split; [done |].
  unfold extract_code_blocks.
  match goal with |- context [extract_loop _ _ _ _ _ _ ?u ?dir ?i ?els ?seen ?bl ?d] =>
    destruct (extract_loop_emits unescape re_search re_search_ignorecase hash re_sub
                urlparse_path u dir els i seen bl d)
      as (new & added & Hem & _ & _ & _ & Hfiles & _ & Hret);
    destruct (extract_loop unescape re_search re_search_ignorecase hash re_sub
                urlparse_path u dir i els seen bl d) as [[blocks | e] d'] eqn:Hloop
  end; cbn in Hem, Hfiles, Hret |- *.
  - destruct (depth <? max_depth)%Z; cbn.
    + match goal with |- context [queue_links _ _ _ _ ?u ?dd ?l ?st'] =>
        pose proof (queue_links_records urljoin urlparse_scheme urlparse_netloc
                      start_url u dd l st') as (Hh & Hc & Hd);
        destruct (queue_links urljoin urlparse_scheme urlparse_netloc start_url u dd l st')
          as [[[] | e] st2]
      end.
      all: cbn in Hh, Hc, Hd |- *; rewrite Hh, Hc, Hd.
      all: repeat split;
        [by apply prefix_app_r | exact Hfiles | rewrite Hem; by apply prefix_app_r].
    + repeat split; [by apply prefix_app_r | exact Hfiles | rewrite Hem; by apply prefix_app_r].
  - repeat split; [done | exact Hfiles | rewrite Hem; by apply prefix_app_r].
Qed.

Lemma process_url_unfold url depth st :
  process url depth st
  = if already_processed url st then (None, st)
    else body url depth (mark_processed url st).
Proof. reflexivity. Qed.

(** *** Depth bookkeeping *)

Lemma process_url_depth url depth st :
  1 <= depth ->
  depth_bounded max_depth st -> depth_bounded max_depth (snd (process url depth st)).
Proof.
  intros Hd Hst.
  destruct (process_url_effect unescape re_search re_search_ignorecase hash re_sub
              urlparse_path web parse urljoin urlparse_scheme urlparse_netloc
              start_url max_depth url depth st)
    as [[_ ->] | (_ & added & _ & _ & Hq & Hadd & Hnone)]; [done |].
  unfold depth_bounded. rewrite Hq. apply Forall_app. split; [exact Hst |].
  destruct (decide (max_depth <= depth)) as [Hge | Hlt].
  - rewrite (Hnone Hge). constructor.
  - eapply Forall_impl; [exact Hadd |]. intros entry [_ ->]. lia.
Qed.

Lemma crawl_loop_depth rounds : forall st,
  depth_bounded max_depth st -> depth_bounded max_depth (run_loop rounds st).
Proof.
  induction rounds as [| rounds IH]; intros st Hst; [done |].
  cbn. destruct (url_queue st) as [| [url depth] q] eqn:Hq; [done |].
  assert (Hpop : depth_bounded max_depth (pop_queue st)).
  { unfold depth_bounded, pop_queue in *; cbn. rewrite Hq in *. by inversion Hst. }
  destruct (already_processed url st); apply IH; [done |].
  apply process_url_depth; [| done].
  unfold depth_bounded in Hst. rewrite Hq in Hst. inversion Hst; subst. cbn in *. lia.
Qed.

(** X5: depth bookkeeping. What a page at [depth] adds to the queue are
    entries at [depth + 1] whose URL starts with the domain prefix, and
    nothing at all once [depth] has reached [max_depth]; so, however long
    the crawl runs, every queue entry has a depth between 1 and
    [max_depth] (the seed alone, at depth 1, when [max_depth] is below 1). *)
Theorem crawl_depth_bookkeeping rounds d :
  (forall url depth st,
     exists added,
       url_queue (snd (process url depth st)) = url_queue st ++ added /\
       Forall (fun entry => snd entry = depth + 1 /\
                            startswith prefix_of_site (fst entry) = true) added /\
       (max_depth <= depth -> added = [])) /\
  depth_bounded max_depth (run rounds d).
Proof.
  split.
  - intros url depth st.
    destruct (process_url_effect unescape re_search re_search_ignorecase hash re_sub
                urlparse_path web parse urljoin urlparse_scheme urlparse_netloc
                start_url max_depth url depth st)
      as [[_ ->] | (_ & added & _ & _ & Hq & Hadd & Hnone)].
    + exists []. by rewrite app_nil_r.
    + exists added. repeat split; [exact Hq | | exact Hnone].
      eapply Forall_impl; [exact Hadd |]. by intros entry [H1 H2].
  - apply crawl_loop_depth. apply process_url_depth; [lia |].
    unfold depth_bounded; cbn. constructor; [cbn; lia | constructor].
Qed.

(** *** Exactly once, with one worker *)

Lemma process_url_fetches url depth st :
  processed_urls st = list_to_set (fetched st) ->
  processed_urls (snd (process url depth st))
    = list_to_set (fetched (snd (process url depth st))).
Proof.
  intros Hst.
  destruct (process_url_effect unescape re_search re_search_ignorecase hash re_sub
              urlparse_path web parse urljoin urlparse_scheme urlparse_netloc
              start_url max_depth url depth st)
    as [[_ ->] | (_ & added & Hp & Hf & _)]; [done |].
  rewrite Hp, Hf, list_to_set_app_L, list_to_set_singleton_L, Hst. set_solver.
Qed.

Lemma crawl_loop_fetches rounds : forall st,
  processed_urls st = list_to_set (fetched st) ->
  processed_urls (run_loop rounds st) = list_to_set (fetched (run_loop rounds st)).
Proof.
  induction rounds as [| rounds IH]; intros st Hst; [done |].
  cbn. destruct (url_queue st) as [| [url depth] q]; [done |].
  destruct (already_processed url st); apply IH; [done |].
  by apply process_url_fetches.
Qed.

(** X6: with one worker every URL is fetched exactly once: however long
    the crawl runs, no URL occurs twice among the calls of
    [requests.get], and the processed set it returns is exactly the set
    of URLs fetched, the seed among them. *)
Theorem crawl_fetches_exactly_once rounds d :
  NoDup (fetched (run rounds d)) /\
  processed_urls (run rounds d) = list_to_set (fetched (run rounds d)) /\
  start_url ∈ processed_urls (run rounds d).
Proof.
  destruct (crawl_orderly unescape re_search re_search_ignorecase hash re_sub
              urlparse_path web parse urljoin urlparse_scheme urlparse_netloc
              start_url max_depth rounds d) as (_ & _ & Hnd & _).
  split; [exact Hnd |].
  assert (Hgrow : forall n st, start_url ∈ processed_urls st ->
                               start_url ∈ processed_urls (run_loop n st)).
  { induction n as [| n IH]; intros st Hst; [done |].
    cbn. destruct (url_queue st) as [| [url depth] q]; [done |].
    destruct (already_processed url st); apply IH; [done |].
    destruct (process_url_effect unescape re_search re_search_ignorecase hash re_sub
                urlparse_path web parse urljoin urlparse_scheme urlparse_netloc
                start_url max_depth url depth (pop_queue st))
      as [[_ ->] | (_ & added & -> & _)]; [done | set_solver]. }
  split.
  - apply crawl_loop_fetches. by apply process_url_fetches.
  - apply Hgrow. unfold start.
    destruct (process_url_effect unescape re_search re_search_ignorecase hash re_sub
                urlparse_path web parse urljoin urlparse_scheme urlparse_netloc
                start_url max_depth start_url 1 (mk_state ∅ [(start_url, 1)] [] [] d []))
      as [[Hin _] | (_ & added & -> & _)]; [| set_solver].
    by apply not_elem_of_empty in Hin.
Qed.

(** *** A fetch that fails *)

(** X7: a fetch that fails is recorded as processed and leaves no other
    trace. When [requests.get] raises or answers anything but 200 for a
    URL not yet processed, [process_url] returns [None]: the URL joins
    the processed set, and the HTML file, the code metadata, the disk and
    the queue are as they were. *)
Theorem process_url_failed_fetch url depth st :
  url ∉ processed_urls st ->
  (forall text, web (List.length (fetched st)) url <> Answered 200 text) ->
  process url depth st
  = (None, mk_state ({[url]} ∪ processed_urls st) (url_queue st) (html_file st)
             (code_data st) (on_disk st) (fetched st ++ [url])).
Proof.
  intros Hnew Hfail. rewrite process_url_unfold. unfold already_processed.
  rewrite bool_decide_eq_false_2 by exact Hnew.
  unfold fetch_and_extract, mark_processed. cbn.
  destruct (web _ url) as [| code html] eqn:Hweb; [done |].
  destruct (code =? 200)%Z eqn:Hcode; [| done].
  apply Z.eqb_eq in Hcode as ->. by destruct (Hfail html).
Qed.

(** *** The HTML file *)

Lemma process_url_records url depth st :
  sound st -> sound (snd (process url depth st)).
Proof.
  intros [Hrec Hsub]. rewrite process_url_unfold.
  destruct (already_processed url st); [done |].
  pose proof (fetch_and_extract_adds unescape re_search re_search_ignorecase hash
                re_sub urlparse_path web parse urljoin urlparse_scheme
                urlparse_netloc start_url max_depth url depth (mark_processed url st))
    as (added & _ & Hf & _).
  destruct (fetch_and_extract_records url depth (mark_processed url st))
    as [(_ & _ & Hh & _) | (text & Hweb & Hh & _)].
  - unfold records_sound. rewrite Hh, Hf. cbn.
    split; [done | by apply sublist_inserts_r].
  - unfold records_sound. rewrite Hh, Hf. cbn. split.
    + apply Forall_app. split; [done |]. constructor; [| constructor].
      unfold from_answer_200; cbn. repeat split. eauto.
    + rewrite map_app. cbn. by apply sublist_app.
Qed.

Lemma crawl_loop_records rounds : forall st,
  sound st -> sound (run_loop rounds st).
Proof.
  induction rounds as [| rounds IH]; intros st Hst; [done |].
  cbn. destruct (url_queue st) as [| [url depth] q]; [done |].
  destruct (already_processed url st); apply IH; [done |].
  by apply process_url_records.
Qed.

(** X8: every line of the HTML file records an answer 200: its status is
    true, its host URL is the domain prefix, and its text is what the web
    answered with status 200 to its URL. The lines follow the order of
    the fetches, and with one worker no URL has two lines. *)
Theorem crawl_html_file_sound rounds d :
  Forall recorded (html_file (run rounds d)) /\
  map hd_url (html_file (run rounds d)) `sublist_of` fetched (run rounds d) /\
  NoDup (map hd_url (html_file (run rounds d))).
Proof.
  assert (H : sound (run rounds d)).
  { apply crawl_loop_records, process_url_records. split; [constructor | ].
    cbn. apply sublist_nil_l. }
  destruct H as [Hrec Hsub]. repeat split; [done | done |].
  eapply sublist_NoDup; [| exact Hsub].
  apply (crawl_orderly unescape re_search re_search_ignorecase hash re_sub
           urlparse_path web parse urljoin urlparse_scheme urlparse_netloc
           start_url max_depth rounds d).
Qed.

(** *** More time never loses work *)

Lemma grown_refl st : grown st st.
Proof. by repeat split. Qed.

Lemma grown_trans st1 st2 st3 : grown st1 st2 -> grown st2 st3 -> grown st1 st3.
Proof.
  intros (A1 & A2 & A3 & A4 & A5 & A6) (B1 & B2 & B3 & B4 & B5 & B6).
  repeat split; etrans; eassumption.
Qed.

Lemma pop_queue_grown st : grown st (pop_queue st).
Proof. by repeat split. Qed.

Lemma process_url_grown url depth st : grown st (snd (process url depth st)).
Proof.
  rewrite process_url_unfold.
  destruct (already_processed url st); [apply grown_refl |].
  pose proof (fetch_and_extract_adds unescape re_search re_search_ignorecase hash
                re_sub urlparse_path web parse urljoin urlparse_scheme
                urlparse_netloc start_url max_depth url depth (mark_processed url st))
    as (added & Hp & Hf & _).
  destruct (fetch_and_extract_records url depth (mark_processed url st))
    as [(_ & _ & Hh & Hc & Hd & _) | (text & _ & Hh & Hc & Hfiles & Hem)].
  - unfold grown_from. rewrite Hp, Hf, Hh, Hc, Hd. cbn.
    repeat split; try done; [set_solver | by apply prefix_app_r].
  - unfold grown_from. rewrite Hp, Hf, Hh. cbn.
    repeat split; try done; [set_solver | by apply prefix_app_r | by apply prefix_app_r].
Qed.

Lemma crawl_loop_grown rounds : forall st, grown st (run_loop rounds st).
Proof.
  induction rounds as [| rounds IH]; intros st; [apply grown_refl |].
  cbn. destruct (url_queue st) as [| [url depth] q]; [apply grown_refl |].
  destruct (already_processed url st).
  - eapply grown_trans; [apply pop_queue_grown | apply IH].
  - eapply grown_trans; [apply pop_queue_grown |].
    eapply grown_trans; [apply process_url_grown | apply IH].
Qed.

(** X9: a later deadline never loses work. What the crawl has after [n]
    rounds it still has after [n + k]: the same URLs processed, the same
    fetches, HTML lines and code metadata as a prefix, the same files
    with the same contents. And once the queue is empty, further rounds
    change nothing. *)
Theorem crawl_later_deadline n k d :
  grown (run n d) (run (n + k) d) /\
  (url_queue (run n d) = [] -> run (n + k) d = run n d).
Proof.
  unfold crawl.
  rewrite (crawl_loop_split unescape re_search re_search_ignorecase hash re_sub
             urlparse_path web parse urljoin urlparse_scheme urlparse_netloc
             start_url max_depth n k).
  split; [apply crawl_loop_grown |].
  intros Hq. by apply crawl_loop_empty_queue.
Qed.

(** *** The pool under every schedule *)

Local Abbreviation step := (pool_step unescape re_search re_search_ignorecase
   hash re_sub urlparse_path web parse urljoin urlparse_scheme urlparse_netloc
   start_url max_depth).
Local Abbreviation pool_of := (pool_run unescape re_search re_search_ignorecase
   hash re_sub urlparse_path web parse urljoin urlparse_scheme urlparse_netloc
   start_url max_depth).
Local Abbreviation first_pool := (pool_start unescape re_search re_search_ignorecase
   hash re_sub urlparse_path web parse urljoin urlparse_scheme urlparse_netloc
   start_url max_depth).
Local Abbreviation in_scope_pool := (pool_in_scope urlparse_scheme urlparse_netloc start_url).

Lemma pool_run_invariant (P : pool -> Prop) max_threads :
  (forall a p p', step max_threads a p = Some p' -> P p -> P p') ->
  forall schedule p p', pool_of max_threads schedule p = Some p' -> P p -> P p'.
Proof.
  intros Hstep. induction schedule as [| a schedule IH]; intros p p' Hrun Hp.
  - cbn in Hrun. by injection Hrun as <-.
  - cbn in Hrun. destruct (step max_threads a p) as [p1 |] eqn:Ha; [| done].
    eapply IH; [exact Hrun |]. by eapply Hstep.
Qed.

Lemma start_orderly d :
  orderly urlparse_scheme urlparse_netloc start_url
    (start unescape re_search re_search_ignorecase hash re_sub urlparse_path web
       parse urljoin urlparse_scheme urlparse_netloc start_url max_depth d).
Proof.
  apply (crawl_orderly unescape re_search re_search_ignorecase hash re_sub
           urlparse_path web parse urljoin urlparse_scheme urlparse_netloc
           start_url max_depth 0 d).
Qed.

Lemma pool_step_in_scope max_threads a p p' :
  step max_threads a p = Some p' -> in_scope_pool p -> in_scope_pool p'.
Proof.
  intros Hstep (Hq & Ht & Hf). destruct a as [| i | i]; unfold pool_step in Hstep.
  - destruct (url_queue (shared p)) as [| [url depth] q] eqn:Hqueue; [done |].
    destruct (_ <? _)%nat; [| done].
    inversion Hq as [| ? ? Hurl Hrest]; subst.
    destruct (already_processed url (shared p)); injection Hstep as <-.
    + unfold pool_in_scope, pop_queue; cbn. rewrite Hqueue. by repeat split.
    + unfold pool_in_scope, pop_queue; cbn. rewrite Hqueue. repeat split; [done | | done].
      apply Forall_app. split; [done |]. constructor; [exact Hurl | constructor].
  - destruct (futures p !! i) as [t |]; [| done].
    destruct (task_at t); try done. injection Hstep as <-.
    unfold pool_in_scope; cbn. repeat split; [done | by apply Forall_delete | done].
  - destruct (futures p !! i) as [t |] eqn:Hi; [| done].
    assert (Hin : scoped (task_url t)).
    { rewrite Forall_forall in Ht. apply Ht. by eapply list_elem_of_lookup_2. }
    unfold advance in Hstep.
    destruct (task_at t) eqn:Hat; [| | | done].
    + destruct (already_processed (task_url t) (shared p)); injection Hstep as <-.
      all: unfold pool_in_scope; cbn; repeat split; [done | | done].
      all: by apply Forall_insert.
    + injection Hstep as <-. unfold pool_in_scope; cbn.
      repeat split; [done | by apply Forall_insert | done].
    + injection Hstep as <-.
      destruct (fetch_and_extract_adds unescape re_search re_search_ignorecase hash
                  re_sub urlparse_path web parse urljoin urlparse_scheme
                  urlparse_netloc start_url max_depth (task_url t) (task_depth t)
                  (shared p)) as (added & _ & Hf' & Hq' & Ha & _).
      unfold pool_in_scope; cbn. rewrite Hf', Hq'. repeat split.
      * apply Forall_app. split; [done |].
        eapply Forall_impl; [exact Ha |]. intros entry [Hs _]. by right.
      * by apply Forall_insert.
      * apply Forall_app. split; [done | constructor; [exact Hin | constructor]].
Qed.

(** X10: under every schedule and with any number of workers the pool
    stays in scope: whatever state a schedule leads to, every URL
    fetched so far is the seed or starts with the domain prefix, and so
    does every URL queued or handed to a worker. The race between
    workers can fetch a page twice, not a page elsewhere. *)
Theorem pool_stays_in_scope max_threads schedule d p :
  pool_run unescape re_search re_search_ignorecase hash re_sub urlparse_path web
    parse urljoin urlparse_scheme urlparse_netloc start_url max_depth max_threads schedule
    (pool_start unescape re_search re_search_ignorecase hash re_sub urlparse_path
       web parse urljoin urlparse_scheme urlparse_netloc start_url max_depth d) = Some p ->
  Forall scoped (fetched (shared p)) /\
  Forall (fun t => scoped (task_url t)) (futures p) /\
  Forall (fun entry => scoped (fst entry)) (url_queue (shared p)).
Proof.
  intros Hrun.
  assert (H : in_scope_pool p).
  { eapply (pool_run_invariant in_scope_pool); [| exact Hrun |].
    - intros a p1 p2. apply pool_step_in_scope.
    - destruct (start_orderly d) as (Hq & Hf & _).
      unfold pool_in_scope, pool_start; cbn. repeat split; [done | constructor | done]. }
  destruct H as (Hq & Ht & Hf). by repeat split.
Qed.

Local Abbreviation alone := one_worker.

Lemma pool_step_one_worker a p p' :
  step 1%nat a p = Some p' -> alone p -> alone p'.
Proof.
  intros Hstep (Hnd & Hsub & Hlen & Hall). destruct a as [| i | i]; unfold pool_step in Hstep.
  - destruct (url_queue (shared p)) as [| [url depth] q] eqn:Hqueue; [done |].
    destruct (List.length (futures p) <? 1)%nat eqn:Hfree; [| done].
    apply Nat.ltb_lt in Hfree.
    destruct (futures p) as [| t0 l] eqn:Hfut; [| cbn in Hfree; lia].
    unfold already_processed in Hstep. case_bool_decide as Hseen; injection Hstep as <-.
    + unfold one_worker, pop_queue; cbn. rewrite ?Hfut. by repeat split.
    + unfold one_worker, pop_queue; cbn. rewrite ?Hfut. cbn.
      repeat split; try done. by repeat constructor.
  - destruct (futures p !! i) as [t |] eqn:Hi; [| done].
    destruct (task_at t); try done. injection Hstep as <-.
    unfold one_worker; cbn. repeat split; [done | done | | by apply Forall_delete].
    rewrite length_delete by eauto. lia.
  - destruct (futures p !! i) as [t |] eqn:Hi; [| done].
    destruct (futures p) as [| t0 [| t1 l]] eqn:Hfut; [done | | cbn in Hlen; lia].
    destruct i as [| i]; [| done]. cbn in Hi. injection Hi as ->.
    inversion Hall as [| ? ? Ht _]; subst. unfold lone_task in Ht.
    unfold advance in Hstep.
    destruct (task_at t) eqn:Hat; [| | | done].
    + unfold already_processed in Hstep. rewrite bool_decide_eq_false_2 in Hstep by done.
      injection Hstep as <-. unfold one_worker; cbn. rewrite ?Hfut. cbn.
      repeat split; try done. by repeat constructor.
    + injection Hstep as <-. unfold one_worker, mark_processed; cbn. rewrite ?Hfut. cbn.
      split_and!; [done | | lia |].
      * intros u Hu. apply elem_of_union_r. by apply Hsub.
      * constructor; [| constructor]. unfold lone_task; cbn.
        split; [by apply elem_of_union_l, elem_of_singleton |].
        intros Hin. by apply Ht, Hsub.
    + destruct Ht as [Hproc Hnew]. injection Hstep as <-.
      destruct (fetch_and_extract_adds unescape re_search re_search_ignorecase hash
                  re_sub urlparse_path web parse urljoin urlparse_scheme
                  urlparse_netloc start_url max_depth (task_url t) (task_depth t)
                  (shared p)) as (added & Hp' & Hf' & _).
      unfold one_worker; cbn. rewrite Hf', Hp', ?Hfut. cbn. repeat split.
      * apply NoDup_app. repeat split; [done | | apply NoDup_singleton].
        intros u Hu Hu'. apply list_elem_of_singleton in Hu' as ->. done.
      * intros u Hu. apply elem_of_app in Hu as [Hu | Hu]; [by apply Hsub |].
        by apply list_elem_of_singleton in Hu as ->.
      * lia.
      * by repeat constructor.
Qed.

(** X11: the race needs two workers. With [max_threads = 1] no schedule
    makes the pool fetch a URL twice, and every URL fetched is in the
    processed set. *)
Theorem pool_one_worker_no_refetch schedule d p :
  pool_run unescape re_search re_search_ignorecase hash re_sub urlparse_path web
    parse urljoin urlparse_scheme urlparse_netloc start_url max_depth 1%nat schedule
    (pool_start unescape re_search re_search_ignorecase hash re_sub urlparse_path
       web parse urljoin urlparse_scheme urlparse_netloc start_url max_depth d) = Some p ->
  NoDup (fetched (shared p)) /\
  (forall u, u ∈ fetched (shared p) -> u ∈ processed_urls (shared p)).
Proof.
  intros Hrun.
  assert (H : alone p).
  { eapply (pool_run_invariant alone); [| exact Hrun |].
    - intros a p1 p2. apply pool_step_one_worker.
    - destruct (start_orderly d) as (_ & _ & Hnd & Hsub).
      unfold one_worker, pool_start; cbn. repeat split; [done | done | lia | constructor]. }
  destruct H as (Hnd & Hsub & _). by split.
Qed.

End CrawlerMore.

(** ** More on the extraction *)

Section ExtractionMore.
Import PyStr WebCrawler.

Variable unescape : string -> string.
Variable re_search re_search_ignorecase : string -> string -> bool.
Variable hash : string -> Z.
Variable re_sub : string -> string -> string -> string.
Variable urlparse_path : string -> string.

Local Abbreviation formatted := (_preserve_code_formatting unescape).
Local Abbreviation extract := (extract_code_blocks unescape re_search re_search_ignorecase
                                 hash re_sub urlparse_path).
Local Abbreviation loop := (extract_loop unescape re_search re_search_ignorecase hash re_sub
                              urlparse_path).

(** *** The file name search *)

Lemma free_filename_search fs dir h : forall fuel i (taken : gset string),
  (forall k, (i <= k)%nat -> is_Some (fs !! os_path_join dir (candidate h k)) ->
             os_path_join dir (candidate h k) ∈ taken) ->
  (size taken < fuel)%nat ->
  exists k, (i <= k)%nat /\
            free_filename fs dir h (candidate h i) (S i) fuel = candidate h k /\
            fs !! os_path_join dir (candidate h k) = None /\
            forall j, (i <= j < k)%nat -> is_Some (fs !! os_path_join dir (candidate h j)).
Proof.
  induction fuel as [| fuel IH]; intros i taken Htaken Hsize; [lia |].
  cbn [free_filename]. case_bool_decide as Hi.
  - change (h +:+ "_" +:+ string_of_nat (S i) +:+ ".md") with (candidate h (S i)).
    destruct (IH (S i) (taken ∖ {[os_path_join dir (candidate h i)]}))
      as (k & Hk & Hname & Hfree & Hbelow).
    + intros k Hk Hex. apply elem_of_difference. split; [apply Htaken; [lia | done] |].
      intros Heq. apply elem_of_singleton in Heq. apply candidate_path_inj in Heq. lia.
    + assert (Hin : os_path_join dir (candidate h i) ∈ taken) by (apply Htaken; [lia | done]).
      rewrite size_difference by set_solver. rewrite size_singleton.
      assert (size taken <> 0)%nat; [| lia].
      intros Hz. apply size_empty_inv in Hz. set_solver.
    + exists k. repeat apply conj; [lia | exact Hname | exact Hfree |].
      intros j Hj. destruct (decide (j = i)) as [-> | Hne]; [exact Hi |].
      apply Hbelow. lia.
  - exists i. repeat apply conj; [lia | done | by apply eq_None_not_Some |].
    intros j Hj. lia.
Qed.

(** X12: the loop of lines 260-266 settles on the first free name of
    the sequence [heading.md], [heading_1.md], [heading_2.md], ...: the
    name it returns is not on disk, and every name before it in the
    sequence is. *)
Theorem free_filename_least (fs : gmap string string) dir h :
  exists k,
    free_filename fs dir h (h +:+ ".md") 1 (S (size fs)) = candidate h k /\
    fs !! os_path_join dir (candidate h k) = None /\
    forall j, (j < k)%nat -> is_Some (fs !! os_path_join dir (candidate h j)).
Proof.
  change (h +:+ ".md") with (candidate h 0).
  destruct (free_filename_search fs dir h (S (size fs)) 0 (dom fs))
    as (k & _ & Hname & Hfree & Hbelow).
  - intros k _ Hex. by apply elem_of_dom.
  - rewrite size_dom. lia.
  - exists k. repeat apply conj; [exact Hname | exact Hfree |].
    intros j Hj. apply Hbelow. lia.
Qed.

(** *** Metadata and disk *)

Lemma heading_for_nonempty e : nonempty (heading_for e) = true.
Proof.
  unfold heading_for.
  destruct (heading_above e) as [s |]; cbn.
  - destruct (nonempty s) eqn:Hs; [exact Hs |].
    destruct (section_heading e) as [s' |]; cbn; [| done].
    by destruct (nonempty s') eqn:Hs'.
  - destruct (section_heading e) as [s' |]; cbn; [| done].
    by destruct (nonempty s') eqn:Hs'.
Qed.

(** What ties a metadata record [b] and the text [t] written for it to
    the code elements [els], counted from [i], and to the disk before
    and after. *)
Local Abbreviation written url dir els i d d' :=
  (fun b t =>
     cb_url b = url /\ nonempty (cb_heading b) = true /\
     (exists j e k,
        els !! j = Some e /\ t = formatted (this e) /\
        cb_heading b = heading_for e /\
        _detect_language re_search re_search_ignorecase e = Return (cb_language b) /\
        cb_file b
        = os_path_join (os_path_join dir (subfolder_for urlparse_path url))
            (candidate (safe_heading_for re_sub (cb_heading b) (i + j)) k)) /\
     files d !! cb_file b = None /\
     files d' !! cb_file b = Some (file_text url (cb_language b) t)).

Lemma written_later url dir e els i d d' b t :
  written url dir els (S i) d d' b t -> written url dir (e :: els) i d d' b t.
Proof.
  intros (Hu & Hh & (j & e' & k & Hj & Ht & Hhead & Hlang & Hfile) & Hnone & Hsome).
  repeat apply conj; auto.
  exists (S j), e', k. repeat apply conj; auto.
  by rewrite Nat.add_succ_r.
Qed.

Lemma extract_loop_files url dir : forall els i seen blocks d r,
  fst (loop url dir i els seen blocks d) = Return r ->
  exists added texts,
    r = blocks ++ added /\
    emitted (snd (loop url dir i els seen blocks d)) = emitted d ++ texts /\
    Forall2 (written url dir els i d (snd (loop url dir i els seen blocks d)))
      added texts /\
    NoDup (map cb_file added) /\
    Forall (fun t => (15 <= String.length (strip t))%nat) texts.
Proof.
  induction els as [| e els IH]; intros i seen blocks d r.
  - cbn. intros [= <-]. exists [], []. rewrite !app_nil_r.
    repeat apply conj; auto using NoDup_nil_2.
  - cbn [extract_loop].
    set (code_text := formatted (this e)).
    assert (Hskip : forall r',
      fst (loop url dir (S i) els seen blocks d) = Return r' ->
      exists added texts,
        r' = blocks ++ added /\
        emitted (snd (loop url dir (S i) els seen blocks d)) = emitted d ++ texts /\
        Forall2 (written url dir (e :: els) i d
                   (snd (loop url dir (S i) els seen blocks d))) added texts /\
        NoDup (map cb_file added) /\
        Forall (fun t => (15 <= String.length (strip t))%nat) texts).
    { intros r' Hr'.
      destruct (IH (S i) seen blocks d r' Hr') as (added & texts & Hadd & Hem & Hall & Hnd & Hlen).
      exists added, texts. repeat apply conj; auto.
      eapply Forall2_impl; [exact Hall |]. intros b t. apply written_later. }
    destruct (negb (nonempty code_text) || (String.length (strip code_text) <? 15)%nat)
      eqn:Hshort; [apply Hskip |].
    case_bool_decide as Hseen; [apply Hskip |]. clear Hskip.
    destruct (_detect_language re_search re_search_ignorecase e) as [language | err] eqn:Hlang;
      [| intros [=]].
    set (save_dir := os_path_join dir (subfolder_for urlparse_path url)).
    set (safe_heading := safe_heading_for re_sub (heading_for e) i).
    destruct (free_filename_least (files d) save_dir safe_heading) as (k & Hname & Hfree & _).
    rewrite Hname.
    set (file_path := os_path_join save_dir (candidate safe_heading k)) in *.
    intros Hr.
    match type of Hr with context [extract_loop _ _ _ _ _ _ _ _ _ _ ?seen' ?blocks' ?d'] =>
      destruct (IH (S i) seen' blocks' d' r Hr)
        as (added & texts & Hadd & Hem & Hall & Hnd & Hlen);
      pose proof (extract_loop_emits unescape re_search re_search_ignorecase hash re_sub
                    urlparse_path url dir els (S i) seen' blocks' d')
        as (new & added' & _ & _ & _ & _ & Hsub & _)
    end.
    cbn [files emitted] in Hem, Hall, Hsub.
    exists (mk_code_block url file_path (heading_for e) language :: added),
           (code_text :: texts).
    repeat apply conj.
    + by rewrite Hadd, <- app_assoc.
    + by rewrite Hem, <- app_assoc.
    + constructor.
      * cbn. repeat apply conj; [done | apply heading_for_nonempty | | exact Hfree |].
        -- exists 0%nat, e, k. rewrite Nat.add_0_r. by repeat apply conj.
        -- eapply lookup_weaken; [| exact Hsub]. by rewrite lookup_insert_eq.
      * eapply Forall2_impl; [exact Hall |].
        intros b t Hw. apply written_later.
        destruct Hw as (Hu & Hh & Hc & Hnone & Hsome).
        repeat apply conj; auto.
        apply lookup_insert_None in Hnone. tauto.
    + cbn. constructor; [| exact Hnd].
      intros Hin. apply list_elem_of_fmap in Hin as (b & Hb & Hin).
      apply list_elem_of_lookup_1 in Hin as [n Hn].
      destruct (Forall2_lookup_l _ _ _ _ _ Hall Hn) as (t & _ & _ & _ & _ & Hnone & _).
      rewrite <- Hb in Hnone. cbn in Hnone. by rewrite lookup_insert_eq in Hnone.
    + constructor; [| exact Hlen].
      apply orb_false_iff in Hshort as [_ Hshort]. apply Nat.ltb_ge in Hshort. exact Hshort.
Qed.

(** X13: the metadata [extract_code_blocks] returns and the disk agree.
    Each record stands for one code element of the page: it carries the
    page's URL, the element's heading, which is not empty, and the
    language detected on the element. Its file lies in the page's
    subfolder and is named after that heading as lines 238-241 clean it
    (or [code_example_] and the element's position when nothing is left
    of it), with [_k] before [.md] when the plain name was taken; the
    file was not on disk before the call, and holds at the end of the
    call the URL, the fence with the record's language and the formatted
    text of the element. No two records share a file, and no block whose
    stripped text is shorter than 15 characters is written. *)
Theorem extract_code_blocks_files soup url dir d blocks :
  fst (extract_code_blocks unescape re_search re_search_ignorecase hash re_sub
         urlparse_path soup url dir d) = Return blocks ->
  exists texts,
    emitted (snd (extract soup url dir d)) = emitted d ++ texts /\
    Forall2 (fun b t =>
               cb_url b = url /\ nonempty (cb_heading b) = true /\
               (exists j e k,
                  find_code_elements soup !! j = Some e /\
                  t = _preserve_code_formatting unescape (this e) /\
                  cb_heading b = heading_for e /\
                  _detect_language re_search re_search_ignorecase e
                  = Return (cb_language b) /\
                  cb_file b
                  = os_path_join (os_path_join dir (subfolder_for urlparse_path url))
                      (candidate (safe_heading_for re_sub (cb_heading b) j) k)) /\
               files d !! cb_file b = None /\
               files (snd (extract soup url dir d)) !! cb_file b
                 = Some (file_text url (cb_language b) t))
            blocks texts /\
    NoDup (map cb_file blocks) /\
    Forall (fun t => (15 <= String.length (strip t))%nat) texts.
Proof.
  intros Hr.
  destruct (extract_loop_files url dir (find_code_elements soup) 0 ∅ [] d blocks Hr)
    as (added & texts & -> & Hem & Hall & Hnd & Hlen).
  exists texts. by repeat apply conj.
Qed.

End ExtractionMore.

Section LanguageMore.
Import PyStr WebCrawler.

Variable re_search re_search_ignorecase : string -> string -> bool.

Lemma split_char_head c : forall s,
  exists x more tail,
    split_char c s = x :: more /\ has_char c x = false /\
    s = x +:+ tail /\ (tail = "" \/ exists rest, tail = String c rest).
Proof.
  induction s as [| a s IH].
  - exists "", [], "". repeat split. by left.
  - cbn [split_char]. destruct (Ascii.eqb a c) eqn:Hac.
    + apply Ascii.eqb_eq in Hac as ->.
      exists "", (split_char c s), (String c s). repeat split. right. by eexists.
    + destruct IH as (x & more & tail & -> & Hx & Hs & Htail).
      exists (String a x), more, tail. repeat split; [| by rewrite append_cons, <- Hs | done].
      cbn. by rewrite Hac.
Qed.

(** X14: an explicit [language-] token gives what stands between its
    first and its second dash, no more: the label has no dash, and the
    token is [language-], the label, and then nothing or a dash and the
    rest (so [language-objective-c] is labelled [objective], and the bare
    token [language-] gives the empty label). *)
Theorem detect_language_explicit_token e pre cls post :
  class_tokens e = pre ++ cls :: post ->
  Forall (fun t => class_rules t = None) pre ->
  startswith "language-" cls = true ->
  exists x tail,
    _detect_language re_search re_search_ignorecase e = Return x /\
    has_char "-" x = false /\
    cls = "language-" +:+ x +:+ tail /\
    (tail = "" \/ exists rest, tail = String "-" rest).
Proof.
  intros Htok Hpre Hp.
  rewrite detect_language_scan, Htok, scan_tokens_app, (scan_tokens_none pre Hpre).
  cbn [scan_tokens]. unfold class_rules. rewrite Hp.
  apply prefix_append in Hp as [r ->].
  change ("language-" +:+ r) with ("language" +:+ String "-" r).
  rewrite split_char_app by reflexivity.
  destruct (split_char_head "-" r) as (x & more & tail & -> & Hx & -> & Htail).
  exists x, tail. by repeat split.
Qed.

End LanguageMore.

Section FormattingMore.
Import PyStr WebCrawler.

Lemma lstrip_all_space ws : forall rest,
  all_space ws = true -> lstrip (ws +:+ rest) = lstrip rest.
Proof.
  induction ws as [| a ws IH]; intros rest Hws; [done |].
  cbn in Hws. apply andb_true_iff in Hws as [Ha Hws].
  rewrite append_cons. cbn [lstrip]. rewrite Ha. by apply IH.
Qed.

Lemma slice_from_keeps m line :
  (m <= indent line)%nat ->
  nonblank (slice_from m line) = nonblank line /\
  indent line = (m + indent (slice_from m line))%nat.
Proof.
  intros Hm. destruct (slice_from_leading m line Hm) as (ws & Hline & Hlen & Hws).
  set (rest := slice_from m line) in *.
  assert (Hl : lstrip line = lstrip rest) by (rewrite Hline; by apply lstrip_all_space).
  split.
  - unfold nonblank, strip. by rewrite Hl.
  - unfold indent. rewrite Hl. rewrite Hline at 1. rewrite append_length, Hlen.
    pose proof (lstrip_length rest). lia.
Qed.

Lemma slice_from_0 s : slice_from 0 s = s.
Proof. by destruct s. Qed.

Lemma fix_lines_0 lines : fix_lines 0 lines = lines.
Proof.
  unfold fix_lines. induction lines as [| l lines IH]; [done |].
  cbn [map]. rewrite IH, slice_from_0. by destruct (nonblank l).
Qed.

Lemma fix_lines_min m lines :
  Forall (fun l => nonblank l = true -> (m <= indent l)%nat) lines ->
  Exists (fun l => nonblank l = true /\ indent l = m) lines ->
  min_indent_from None (fix_lines m lines) = Some 0%nat.
Proof.
  intros Hall Hex.
  pose proof (min_indent_from_spec (fix_lines m lines) None) as Hspec.
  assert (Hzero : Exists (fun l => nonblank l = true /\ indent l = 0%nat) (fix_lines m lines)).
  { unfold fix_lines. apply Exists_fmap. rewrite Forall_forall in Hall.
    apply Exists_exists in Hex as (l & Hin & Hnb & Hind). apply Exists_exists.
    exists l. split; [exact Hin |]. cbn. rewrite Hnb.
    destruct (slice_from_keeps m l) as [Hk Hi]; [lia |].
    split; [congruence |]. fold (indent (slice_from m l)). lia. }
  destruct (min_indent_from None (fix_lines m lines)) as [m' |].
  - destruct Hspec as (_ & Hle & _). rewrite Forall_forall in Hle.
    apply Exists_exists in Hzero as (l & Hin & Hnb & Hind).
    specialize (Hle l Hin Hnb). f_equal. lia.
  - destruct Hspec as (_ & Hblank). rewrite Forall_forall in Hblank.
    apply Exists_exists in Hzero as (l & Hin & Hnb & _).
    rewrite (Hblank l Hin) in Hnb. discriminate.
Qed.

(** X15: the indentation fix of lines 304-324 is idempotent, and it
    leaves nothing to remove: when the text has more than one line and a
    line that is not blank, the minimum indentation of the non-blank
    lines of the result is zero. *)
Theorem fix_indentation_idempotent content :
  fix_indentation (fix_indentation content) = fix_indentation content /\
  ((1 < List.length (split_char newline content))%nat ->
   forall m, min_indent_from None (split_char newline content) = Some m ->
             min_indent_from None (split_char newline (fix_indentation content))
             = Some 0%nat).
Proof.
  unfold fix_indentation at 2 3 4.
  set (lines := split_char newline content).
  pose proof (min_indent_from_spec lines None) as Hmin.
  pose proof (split_char_free newline content) as Hfree. fold lines in Hfree.
  destruct (Nat.ltb_spec 1 (List.length lines)) as [Hlen | Hlen].
  2:{ split; [| lia]. unfold fix_indentation. fold lines.
      by destruct (Nat.ltb_spec 1 (List.length lines)); [lia |]. }
  destruct (min_indent_from None lines) as [m |].
  2:{ split; [| by intros _ m [=]]. unfold fix_indentation. fold lines.
      destruct (Nat.ltb_spec 1 (List.length lines)); [| lia].
      destruct Hmin as [_ Hblank].
      pose proof (min_indent_from_spec lines None) as Hagain.
      destruct (min_indent_from None lines) as [m |]; [| done].
      destruct Hagain as (_ & _ & [[=] | Hex]).
      apply Exists_exists in Hex as (l & Hin & Hnb & _).
      rewrite Forall_forall in Hblank. rewrite (Hblank l Hin) in Hnb. discriminate. }
  destruct Hmin as (_ & Hall & [[=] | Hex]).
  assert (Hsplit : split_char newline (join (String newline "") (fix_lines m lines))
                   = fix_lines m lines).
  { apply split_char_join; [| by apply fix_lines_free].
    unfold fix_lines. destruct lines; [cbn in Hlen; lia | done]. }
  pose proof (fix_lines_min m lines Hall Hex) as Hzero.
  split.
  - unfold fix_indentation. rewrite Hsplit, Hzero, fix_lines_0.
    unfold fix_lines at 1. rewrite length_fmap.
    by destruct (Nat.ltb_spec 1 (List.length lines)); [| lia].
  - intros _ m' _. by rewrite Hsplit.
Qed.

(** *** The class markers *)

Lemma lower_char_not_upper_c a : lower_char a <> "C"%char.
Proof. destruct a as [[] [] [] [] [] [] [] []]; vm_compute; discriminate. Qed.

Lemma has_char_lower s : has_char "C" (lower s) = false.
Proof.
  induction s as [| a s IH]; [done |]. cbn. rewrite IH, orb_false_r.
  apply Ascii.eqb_neq, lower_char_not_upper_c.
Qed.

Lemma contains_has_char a sub : forall s,
  contains (String a sub) s = true -> has_char a s = true.
Proof.
  induction s as [| b s IH]; cbn; [done |].
  intros H. apply orb_true_iff in H as [H | H].
  - destruct (ascii_dec a b) as [-> | Hne]; [| done]. by rewrite Ascii.eqb_refl.
  - rewrite (IH H). apply orb_true_r.
Qed.

(** X16: the marker [CodeMirror] of lines 190-191 never decides. The
    class is lowered before the markers are looked for, so a marker with
    capitals is in no class; a class matches exactly when it contains one
    of the other six markers. *)
Theorem marker_match_lowered c :
  contains "CodeMirror" (lower c) = false /\
  marker_match c
  = nonempty c &&
    existsb (fun x => contains x (lower c))
      ["code"; "highlight"; "syntax"; "language-"; "hljs"; "prettyprint"].
Proof.
  assert (H : contains "CodeMirror" (lower c) = false).
  { destruct (contains "CodeMirror" (lower c)) eqn:Hc; [| done].
    apply contains_has_char in Hc. by rewrite has_char_lower in Hc. }
  split; [exact H |].
  unfold marker_match, markers. cbn [existsb]. by rewrite H, !orb_false_r.
Qed.

End FormattingMore.

(** ** The saving methods of the fetcher *)

Section SaverProofs.
Import PyFloat PyStr WebHtmlExtractor WebHtmlExtractorFiles.

Variable network : nat -> request -> http_outcome.
Variable user_agent : nat -> string.
Variable browser : nat -> browser_outcome.
Variable urlsplit_scheme urlsplit_netloc : string -> string.
Variable self : settings.
Variable hrefs : string -> list (option string).
Variable urljoin : string -> string -> result string.
Variable writable : string -> bool.
Variable makedirs_dirname : string -> option pyexn.

Local Abbreviation host_of := (split_host_url urlsplit_scheme urlsplit_netloc).
Local Abbreviation fetch_dict := (get_html_dict network user_agent browser urlsplit_scheme
                                    urlsplit_netloc self).
Local Abbreviation save := (save_jsonl writable).

(** *** [dict.fromkeys] *)

Lemma fromkeys_spec l : forall keys,
  NoDup keys ->
  NoDup (fromkeys l keys) /\
  keys `prefix_of` fromkeys l keys /\
  (forall x, x ∈ fromkeys l keys <-> x ∈ keys \/ x ∈ l).
Proof.
  induction l as [| a l IH]; intros keys Hnd; cbn [fromkeys].
  - repeat split; [done | done | by left | intros [H | H]; [done | by apply elem_of_nil in H]].
  - case_bool_decide as Hin.
    + destruct (IH keys Hnd) as (H1 & H2 & H3). repeat split; [done | done | |].
      * intros Hx. apply H3 in Hx as [Hx | Hx]; [by left | right; by right].
      * intros [Hx | Hx]; apply H3; [by left |].
        apply elem_of_cons in Hx as [-> | Hx]; [by left | by right].
    + destruct (IH (keys ++ [a])) as (H1 & H2 & H3).
      { apply NoDup_app. repeat split; [done | | apply NoDup_singleton].
        intros x Hx Hx'. by apply list_elem_of_singleton in Hx' as ->. }
      repeat split; [done | | |].
      * etrans; [| exact H2]. by apply prefix_app_r.
      * intros Hx. apply H3 in Hx as [Hx | Hx]; [| right; by right].
        apply elem_of_app in Hx as [Hx | Hx]; [by left |].
        apply list_elem_of_singleton in Hx as ->. right. by left.
      * intros [Hx | Hx]; apply H3.
        -- left. apply elem_of_app. by left.
        -- apply elem_of_cons in Hx as [-> | Hx]; [| by right].
           left. apply elem_of_app. right. by apply list_elem_of_singleton.
Qed.

Lemma clean_url_no_fragment u : has_char "#" (clean_url u) = false.
Proof.
  unfold clean_url. pose proof (split_char_free "#" u) as H.
  destruct (split_char "#" u) as [| x l]; [done |]. by inversion H.
Qed.

(** A link the loop follows: its [href] is not empty and is no anchor,
    script or mail address (lines 322-325). *)
Local Abbreviation followed href := (nonempty href = true /\ skipped href = false).

Lemma followed_dec href :
  nonempty href && negb (skipped href) = true <-> followed href.
Proof. rewrite andb_true_iff, negb_true_iff. tauto. Qed.

Lemma link_urls_return host prefix links : forall l,
  link_urls urljoin host prefix links = Return l ->
  (forall href, Some href ∈ links -> followed href ->
                exists a, urljoin host href = Return a) /\
  (forall u, u ∈ l <->
     exists href a, Some href ∈ links /\ followed href /\
                    urljoin host href = Return a /\
                    startswith prefix a = true /\ u = clean_url a).
Proof.
  induction links as [| [href |] links IH]; intros l; cbn [link_urls].
  - intros [= <-]. split.
    + intros href H. by apply elem_of_nil in H.
    + intros u. split; [intros H; by apply elem_of_nil in H |].
      intros (href & a & H & _). by apply elem_of_nil in H.
  - destruct (nonempty href && negb (skipped href)) eqn:Hok.
    + apply followed_dec in Hok.
      destruct (urljoin host href) as [a0 | e0] eqn:Hj; [| discriminate].
      destruct (link_urls urljoin host prefix links) as [l0 | e0] eqn:Hl0; [| discriminate].
      destruct (IH l0 eq_refl) as [Hall Hiff].
      intros [= <-]. split.
      * intros h Hin Hf. apply elem_of_cons in Hin as [[= ->] | Hin]; [by exists a0 | eauto].
      * intros u. destruct (startswith prefix a0) eqn:Hp.
        -- rewrite elem_of_cons, Hiff. split.
           ++ intros [-> | (h & a & Hin & H)].
              ** exists href, a0. split; [by left | by repeat split; try apply Hok].
              ** exists h, a. split; [by right | exact H].
           ++ intros (h & a & Hin & Hf & Ha & Hpre & Hu).
              apply elem_of_cons in Hin as [[= ->] | Hin].
              ** left. congruence.
              ** right. exists h, a. by repeat split; try apply Hf.
        -- rewrite Hiff. split.
           ++ intros (h & a & Hin & H). exists h, a. split; [by right | exact H].
           ++ intros (h & a & Hin & Hf & Ha & Hpre & Hu).
              apply elem_of_cons in Hin as [[= ->] | Hin]; [congruence |].
              exists h, a. by repeat split; try apply Hf.
    + intros Hl. destruct (IH l Hl) as [Hall Hiff]. split.
      * intros h Hin Hf. apply elem_of_cons in Hin as [[= ->] | Hin]; [| eauto].
        apply followed_dec in Hf. congruence.
      * intros u. rewrite Hiff. split.
        -- intros (h & a & Hin & H). exists h, a. split; [by right | exact H].
        -- intros (h & a & Hin & Hf & H).
           apply elem_of_cons in Hin as [[= ->] | Hin].
           ++ apply followed_dec in Hf. congruence.
           ++ exists h, a. by repeat split; try apply Hf; try apply H.
  - intros Hl. destruct (IH l Hl) as [Hall Hiff]. split.
    + intros h Hin Hf. apply elem_of_cons in Hin as [[=] | Hin]. eauto.
    + intros u. rewrite Hiff. split.
      * intros (h & a & Hin & H). exists h, a. split; [by right | exact H].
      * intros (h & a & Hin & H). apply elem_of_cons in Hin as [[=] | Hin].
        by exists h, a.
Qed.

(** The first followed link that [urljoin] refuses: the ones before it
    are joined. *)
Local Abbreviation first_refused host links i href e :=
  (links !! i = Some (Some href) /\ followed href /\ urljoin host href = Raise e /\
   forall j h, (j < i)%nat -> links !! j = Some (Some h) -> followed h ->
               exists a, urljoin host h = Return a).

Lemma link_urls_raise host prefix links : forall e,
  link_urls urljoin host prefix links = Raise e <->
  exists i href, first_refused host links i href e.
Proof.
  induction links as [| [href |] links IH]; intros e; cbn [link_urls].
  - split; [discriminate | intros (i & h & H & _); by destruct i].
  - destruct (nonempty href && negb (skipped href)) eqn:Hok.
    + pose proof (proj1 (followed_dec href) Hok) as Hf.
      destruct (urljoin host href) as [a0 | e0] eqn:Hj.
      * destruct (link_urls urljoin host prefix links) as [l0 | e1] eqn:Hl0.
        -- split; [discriminate |]. intros ([| i] & h & Hi & Hfh & Hr & Hb).
           ++ cbn in Hi. injection Hi as <-. congruence.
           ++ assert (Raise e = Return l0 :> result (list string)); [| discriminate].
              symmetry. apply IH. exists i, h. repeat split; try apply Hfh; auto.
              intros j k Hlt Hk Hfk. apply (Hb (S j) k); [lia | exact Hk | exact Hfk].
        -- split.
           ++ intros [= ->]. destruct (proj1 (IH e) eq_refl) as (i & h & Hi & Hfh & Hr & Hb).
              exists (S i), h. repeat split; try apply Hfh; auto.
              intros [| j] k Hlt Hk Hfk.
              ** cbn in Hk. injection Hk as <-. by exists a0.
              ** apply (Hb j k); [lia | exact Hk | exact Hfk].
           ++ intros ([| i] & h & Hi & Hfh & Hr & Hb).
              ** cbn in Hi. injection Hi as <-. congruence.
              ** f_equal. assert (H : Raise e = Raise e1 :> result (list string));
                   [| by injection H].
                 symmetry. apply IH. exists i, h. repeat split; try apply Hfh; auto.
                 intros j k Hlt Hk Hfk. apply (Hb (S j) k); [lia | exact Hk | exact Hfk].
      * split.
        -- intros [= ->]. exists 0%nat, href. repeat split; try apply Hf; auto.
           intros j k Hlt. lia.
        -- intros ([| i] & h & Hi & Hfh & Hr & Hb).
           ++ cbn in Hi. injection Hi as <-. congruence.
           ++ destruct (Hb 0%nat href) as [a Ha]; [lia | reflexivity | exact Hf |].
              congruence.
    + rewrite IH. split.
      * intros (i & h & Hi & Hfh & Hr & Hb). exists (S i), h.
        repeat split; try apply Hfh; auto.
        intros [| j] k Hlt Hk Hfk.
        -- cbn in Hk. injection Hk as <-. apply followed_dec in Hfk. congruence.
        -- apply (Hb j k); [lia | exact Hk | exact Hfk].
      * intros ([| i] & h & Hi & Hfh & Hr & Hb).
        -- cbn in Hi. injection Hi as <-. apply followed_dec in Hfh. congruence.
        -- exists i, h. repeat split; try apply Hfh; auto.
           intros j k Hlt Hk Hfk. apply (Hb (S j) k); [lia | exact Hk | exact Hfk].
  - rewrite IH. split.
    + intros (i & h & Hi & Hfh & Hr & Hb). exists (S i), h.
      repeat split; try apply Hfh; auto.
      intros [| j] k Hlt Hk Hfk; [discriminate |].
      apply (Hb j k); [lia | exact Hk | exact Hfk].
    + intros ([| i] & h & Hi & Hfh & Hr & Hb); [discriminate |].
      exists i, h. repeat split; try apply Hfh; auto.
      intros j k Hlt Hk Hfk. apply (Hb (S j) k); [lia | exact Hk | exact Hfk].
Qed.

Lemma link_urls_total host prefix links :
  (forall href, Some href ∈ links -> followed href ->
                exists a, urljoin host href = Return a) ->
  exists l, link_urls urljoin host prefix links = Return l.
Proof.
  intros Hall. destruct (link_urls urljoin host prefix links) as [l | e] eqn:Hl; [by exists l |].
  apply link_urls_raise in Hl as (i & h & Hi & Hf & Hr & _).
  destruct (Hall h) as [a Ha]; [by eapply list_elem_of_lookup_2 | exact Hf | congruence].
Qed.


(** *** What the saving methods write *)

Lemma save_jsonl_other json_list p mode fs q :
  q <> p -> save json_list p mode fs !! q = fs !! q.
Proof.
  intros Hne. unfold save_jsonl. destruct (writable p); [| done].
  destruct mode; by rewrite lookup_insert_ne.
Qed.

Lemma save_jsonl_read_only json_list p mode fs :
  writable p = false -> save json_list p mode fs = fs.
Proof. intros H. unfold save_jsonl. by rewrite H. Qed.

(** The lines of a file once a call has opened it with [mode]. *)
Local Abbreviation lines_before mode fs p :=
  (match mode with overwrite => [] | append => default [] (fs !! p) end).

Lemma save_jsonl_lines json_list p mode fs :
  writable p = true ->
  save json_list p mode fs !! p = Some (lines_before mode fs p ++ json_list).
Proof.
  intros H. unfold save_jsonl. rewrite H. destruct mode; by rewrite lookup_insert_eq.
Qed.

Lemma save_sub_pages_trace m ts t p : forall l fs w0,
  (0 <= ts)%Q ->
  exists saved fs' w' more,
    save_sub_pages network user_agent browser urlsplit_scheme urlsplit_netloc self
      writable requests m ts t p l fs w0 = (Return tt, fs', w') /\
    sent w' = sent w0 ++ more /\
    Forall (fun u => exists q, q ∈ more /\ req_url q = u) l /\
    Forall (fun s => status s = true) saved /\
    (List.length saved <= List.length l)%nat /\
    (forall q, q <> p -> fs' !! q = fs !! q) /\
    (writable p = false -> fs' = fs) /\
    (forall old, writable p = true -> fs !! p = Some old -> fs' !! p = Some (old ++ saved)).
Proof.
  induction l as [| u l IH]; intros fs w0 Hts.
  - exists [], fs, w0, []. cbn. rewrite app_nil_r.
    repeat apply conj; auto. intros old _ ->. by rewrite app_nil_r.
  - cbn [save_sub_pages]. unfold get_html_dict. cbn [default from_option id].
    destruct (grh_trace network user_agent urlsplit_scheme urlsplit_netloc self
                (Z.to_nat (max_retry_times self + 1 - 1)) 1 u m (Some ts)
                None None (Some t) w0)
      as (d & w1 & q0 & rest & Hrun & Hsent & _ & _ & _ & _ & Hreqs & _);
      [reflexivity | exact Hts |].
    rewrite Hrun.
    match goal with |- context [save_sub_pages _ _ _ _ _ _ _ _ _ _ _ _ _ ?fs1 w1] =>
      destruct (IH fs1 w1 Hts)
        as (saved & fs' & w' & more & Hloop & Hmore & Hall & Hst & Hlen & Hother & Hro & Hlines)
    end.
    rewrite Hloop.
    exists (if status d then d :: saved else saved), fs', w', ((q0 :: rest) ++ more).
    split; [reflexivity |].
    split; [by rewrite Hmore, Hsent, <- app_assoc |].
    split.
    { constructor.
      + exists q0. split; [set_solver |].
        inversion Hreqs as [| ? ? Hq0 _]; subst. apply Hq0.
      + eapply Forall_impl; [exact Hall |].
        intros v (q & Hin & Hq). exists q. split; [set_solver | exact Hq]. }
    split; [destruct (status d) eqn:Hd; [by constructor | done] |].
    split; [destruct (status d); cbn; lia |].
    split.
    { intros q Hq. rewrite (Hother q Hq). destruct (status d); [| done].
      by apply save_jsonl_other. }
    split.
    { intros Hw. rewrite (Hro Hw). destruct (status d); [| done].
      by apply save_jsonl_read_only. }
    intros old Hw Hold. destruct (status d).
    + rewrite (Hlines (old ++ [d]) Hw).
      * by rewrite <- app_assoc.
      * rewrite save_jsonl_lines by exact Hw. cbn. by rewrite Hold.
    + by apply Hlines.
Qed.


(** X19: [save_url_html] answers for the fetch, not for the file. With
    the [requests] strategy and a delay that is not negative it returns
    a boolean, the status of the fetch; on [False] no file is touched; on
    [True] the dictionary (of status true) is the one line added to the
    file, provided the file can be opened: if it cannot, the error is
    swallowed, the answer is still [True] and no file has changed. A
    directory that cannot be made is an error before any request. *)
Theorem save_url_html_reports_fetch base_url m ts_arg to_arg p mode fs w :
  (0 <= default (time_sleep self) ts_arg)%Q ->
  (forall e, makedirs_dirname p = Some e ->
     save_url_html network user_agent browser urlsplit_scheme urlsplit_netloc self
       writable makedirs_dirname base_url requests m ts_arg to_arg p mode fs w
     = (Raise e, fs, w)) /\
  (makedirs_dirname p = None ->
   exists d w',
     fetch_dict base_url requests m true (Some (default (time_sleep self) ts_arg))
       (Some (default (time_out self) to_arg)) w = (Return d, w') /\
     save_url_html network user_agent browser urlsplit_scheme urlsplit_netloc self
       writable makedirs_dirname base_url requests m ts_arg to_arg p mode fs w
     = (Return (status d),
        if status d && writable p
        then <[p := lines_before mode fs p ++ [d]]> fs else fs,
        w') /\
     ((forall k q, req_url q = base_url -> ok_response (network k q) = false) ->
      status d = false)).
Proof.
  intros Hts. split.
  - intros e He. unfold save_url_html. by rewrite He.
  - intros Hmk. unfold save_url_html. rewrite Hmk.
    unfold get_html_dict. cbn [default from_option id].
    destruct (grh_trace network user_agent urlsplit_scheme urlsplit_netloc self
                (Z.to_nat (max_retry_times self + 1 - 1)) 1 base_url m
                (Some (default (time_sleep self) ts_arg)) None None
                (Some (default (time_out self) to_arg)) w)
      as (d & w1 & q0 & rest & Hrun & _ & _ & _ & _ & _ & _ & _ & Hall & _);
      [reflexivity | exact Hts |].
    rewrite Hrun. exists d, w1. split; [reflexivity |]. split.
    + unfold save_jsonl. destruct (status d); [| done]. cbn.
      destruct (writable p); [| done]. by destruct mode.
    + intros Hf. destruct (Hall Hf) as [-> _]. reflexivity.
Qed.

End SaverProofs.

(** ** The crawl on a used instance *)

Section CrawlOn.
Import PyStr WebCrawler.

Variable unescape : string -> string.
Variable re_search re_search_ignorecase : string -> string -> bool.
Variable hash : string -> Z.
Variable re_sub : string -> string -> string -> string.
Variable urlparse_path : string -> string.
Variable web : nat -> string -> web_answer.
Variable parse : string -> page.
Variable urljoin : string -> string -> result string.
Variable urlparse_scheme urlparse_netloc : string -> string.
Variable start_url : string.
Variable max_depth : Z.

Local Abbreviation process := (process_url unescape re_search re_search_ignorecase
   hash re_sub urlparse_path web parse urljoin urlparse_scheme urlparse_netloc
   start_url max_depth).
Local Abbreviation run_loop := (crawl_loop unescape re_search re_search_ignorecase
   hash re_sub urlparse_path web parse urljoin urlparse_scheme urlparse_netloc
   start_url max_depth).
Local Abbreviation links_of := (queue_links urljoin urlparse_scheme urlparse_netloc start_url).

Lemma queue_links_holding held url depth : forall links st,
  links_of url depth links (holding held st)
  = (fst (links_of url depth links st), holding held (snd (links_of url depth links st))).
Proof.
  induction links as [| href links IH]; intros st; [done |].
  cbn [queue_links]. destruct (skipped_href href); [apply IH |].
  destruct (next_url_of urljoin url href) as [next_url | e]; [| done].
  cbn [processed_urls holding].
  destruct (startswith _ _ && _); [| apply IH].
  rewrite <- IH. reflexivity.
Qed.

Lemma process_url_holding held url depth st :
  process url depth (holding held st)
  = (fst (process url depth st), holding held (snd (process url depth st))).
Proof.
  unfold process_url, already_processed. cbn [processed_urls holding].
  case_bool_decide; [done |].
  unfold fetch_and_extract, mark_processed. cbn [processed_urls url_queue html_file
    code_data on_disk fetched holding].
  destruct (web _ url) as [| code html]; [done |].
  destruct (negb (code =? 200)%Z); [done |].
  destruct (extract_code_blocks _ _ _ _ _ _ _ _ _ _) as [[blocks | e] d]; [| done].
  destruct (depth <? max_depth)%Z.
  - cbn [fst snd].
    match goal with |- context [queue_links _ _ _ _ ?u ?dd ?l (mk_state ?a ?b ?c (?h ++ ?bl) ?e ?f)] =>
      change (mk_state a b c (h ++ bl) e f) with (mk_state a b c ((held ++ code_data st) ++ blocks) e f)
    end.
    rewrite <- app_assoc.
    match goal with |- context [queue_links _ _ _ _ ?u ?dd ?l (mk_state ?a ?b ?c (held ++ ?cd) ?e ?f)] =>
      change (mk_state a b c (held ++ cd) e f) with (holding held (mk_state a b c cd e f))
    end.
    rewrite queue_links_holding.
    match goal with |- context [queue_links ?a1 ?a2 ?a3 ?a4 ?u ?dd ?l ?st'] =>
      destruct (queue_links a1 a2 a3 a4 u dd l st') as [[[] | e] st2]
    end; reflexivity.
  - cbn. unfold holding. cbn. by rewrite <- app_assoc.
Qed.

Lemma crawl_loop_holding held rounds : forall st,
  run_loop rounds (holding held st) = holding held (run_loop rounds st).
Proof.
  induction rounds as [| rounds IH]; intros st; [done |].
  cbn [crawl_loop].
  change (url_queue (holding held st)) with (url_queue st).
  destruct (url_queue st) as [| [url depth] q] eqn:Hq; [done |].
  change (already_processed url (holding held st)) with (already_processed url st).
  change (pop_queue (holding held st)) with (holding held (pop_queue st)).
  destruct (already_processed url st); [apply IH |].
  rewrite process_url_holding. cbn [snd]. apply IH.
Qed.

(** X21: [self.code_data] is never emptied. A crawl on an instance that
    already holds the records [held] does what a crawl on a fresh
    instance does, and ends with [held] followed by that crawl's own
    records; that whole list is what goes to the site's metadata file,
    which is therefore written, with the records of the earlier sites,
    even for a site with no code at all. On a fresh instance it is the
    crawl itself. *)
Theorem crawl_on_keeps_held held rounds d :
  let fresh := crawl unescape re_search re_search_ignorecase hash re_sub urlparse_path
                 web parse urljoin urlparse_scheme urlparse_netloc start_url max_depth
                 rounds d in
  let again := crawl_on unescape re_search re_search_ignorecase hash re_sub
                 urlparse_path web parse urljoin urlparse_scheme urlparse_netloc
                 start_url max_depth held rounds d in
  again = holding held fresh /\
  code_data again = held ++ code_data fresh /\
  (held <> [] -> code_metadata again = Some (held ++ code_data fresh)) /\
  (held = [] -> again = fresh).
Proof.
  cbv zeta.
  assert (H : crawl_on unescape re_search re_search_ignorecase hash re_sub
                urlparse_path web parse urljoin urlparse_scheme urlparse_netloc
                start_url max_depth held rounds d
              = holding held (crawl unescape re_search re_search_ignorecase hash re_sub
                                urlparse_path web parse urljoin urlparse_scheme
                                urlparse_netloc start_url max_depth rounds d)).
  { unfold crawl_on, crawl, start.
    replace (mk_state ∅ [(start_url, 1)] [] held d [])
      with (holding held (mk_state ∅ [(start_url, 1)] [] [] d []))
      by (unfold holding; cbn; by rewrite app_nil_r).
    rewrite process_url_holding. cbn [snd]. apply crawl_loop_holding. }
  rewrite H. repeat apply conj; [done | done | |].
  - intros Hne. unfold code_metadata. cbn [code_data holding].
    destruct held as [| r held']; [done |]. reflexivity.
  - intros ->. unfold holding. cbn [app]. by destruct (crawl _ _ _ _ _ _ _ _ _ _ _ _ _ _ _).
Qed.

End CrawlOn.

(** ** The saving loop of the text extractor *)

Section SavingProofs.
Import PyStr Html2Text.

Variable open_raises : string -> option pyexn.

Local Abbreviation save_loop := (save_blocks open_raises).

Lemma numbered_candidate s k :
  numbered s (S k) = WebCrawler.candidate s (match k with O => O | S _ => S k end).
Proof. by destruct k. Qed.

Lemma numbered_path_inj dir s j k :
  os_path_join dir (numbered s (S j)) = os_path_join dir (numbered s (S k)) -> j = k.
Proof.
  rewrite !numbered_candidate. intros H. apply candidate_path_inj in H.
  destruct j, k; congruence.
Qed.

Lemma occurrences_app s l1 l2 :
  occurrences s (l1 ++ l2) = (occurrences s l1 + occurrences s l2)%nat.
Proof. unfold occurrences. by rewrite List.filter_app, length_app. Qed.

Lemma occurrences_one s b :
  occurrences s [b] = if String.eqb (section_of b) s then 1%nat else 0%nat.
Proof. unfold occurrences. cbn. by destruct (String.eqb (section_of b) s). Qed.

(** The record the loop makes for a block that comes after [pre]. *)
Local Abbreviation record_of url page_dir pre b :=
  (mk_saved_file url
     (os_path_join page_dir
        (numbered (section_of b) (S (occurrences (section_of b) pre))))
     (b_name b) (b_language b)).

Lemma save_blocks_invariant url page_dir : forall post pre counts saved0 fs saved fs',
  (forall s, counts !! s = match occurrences s pre with
                            | O => None
                            | n => Some n
                            end) ->
  save_loop url page_dir post counts saved0 fs = (Return saved, fs') ->
  exists recs,
    saved = saved0 ++ recs /\
    List.length recs = List.length post /\
    (forall p1 b p2, post = p1 ++ b :: p2 ->
       recs !! List.length p1 = Some (record_of url page_dir (pre ++ p1) b)) /\
    (forall p1 b, post = p1 ++ [b] ->
       fs' !! sf_file (record_of url page_dir (pre ++ p1) b) = Some (file_text url b)) /\
    (forall p, is_Some (fs !! p) -> is_Some (fs' !! p)) /\
    (post = [] -> fs' = fs) /\
    Forall (fun r => is_Some (fs' !! sf_file r)) recs.
Proof.
  induction post as [| b post IH]; intros pre counts saved0 fs saved fs' Hcounts.
  - cbn. intros [= <- <-]. exists []. rewrite app_nil_r.
    repeat apply conj; auto.
    + intros p1 b p2 H. by destruct p1.
    + intros p1 b H. by destruct p1.
  - cbn [save_blocks].
    set (section := section_of b).
    assert (Hname : match counts !! section with
                    | Some n => section +:+ "_" +:+ string_of_nat (n + 1) +:+ ".md"
                    | None => section +:+ ".md"
                    end = numbered section (S (occurrences section pre))).
    { rewrite (Hcounts section). destruct (occurrences section pre) as [| n]; [done |].
      cbn [numbered]. by rewrite Nat.add_1_r. }
    rewrite Hname.
    set (file_path := os_path_join page_dir (numbered section (S (occurrences section pre)))).
    destruct (open_raises file_path); [intros [=] |].
    intros Hrun.
    apply (IH (pre ++ [b])) in Hrun as (recs & -> & Hlen & Hrec & Hlast & Hkeep & Hnil & Hdisk).
    2:{ intros s. rewrite occurrences_app, occurrences_one. fold section.
        destruct (String.eqb section s) eqn:Hs.
        - apply String.eqb_eq in Hs as <-. rewrite (Hcounts section).
          destruct (occurrences section pre) as [| n]; rewrite lookup_insert_eq;
            [done | f_equal; lia].
        - apply String.eqb_neq in Hs. rewrite Nat.add_0_r.
          destruct (counts !! section); by rewrite lookup_insert_ne. }
    exists (record_of url page_dir pre b :: recs).
    repeat apply conj.
    + by rewrite <- app_assoc.
    + cbn. lia.
    + intros p1 b' p2 H. destruct p1 as [| b0 p1]; cbn in H; injection H as <- ->.
      * by rewrite app_nil_r.
      * pose proof (Hrec p1 b' p2 eq_refl) as Hr. rewrite <- app_assoc in Hr. exact Hr.
    + intros p1 b' H. destruct p1 as [| b0 p1]; cbn in H.
      * injection H as <- ->. rewrite app_nil_r.
        rewrite (Hnil eq_refl). cbn [sf_file]. by rewrite lookup_insert_eq.
      * injection H as <- ->.
        pose proof (Hlast p1 b' eq_refl) as Hl. rewrite <- app_assoc in Hl. exact Hl.
    + intros p Hp. apply Hkeep.
      destruct (decide (p = file_path)) as [-> | Hne];
        [by rewrite lookup_insert_eq | by rewrite lookup_insert_ne].
    + intros [=].
    + constructor; [| exact Hdisk]. apply Hkeep. cbn [sf_file].
      by rewrite lookup_insert_eq.
Qed.

(** X20: the numbering of the files in [extract_and_save_code_blocks].
    When the loop returns it has made one record for each block, in
    order; the file of a block is [section.md] for the first block of its
    section and [section_k.md] for the k-th, k counted from 2, in the
    page's folder; so two blocks of one section never share a file. Each
    file named in a record exists at the end, and the file of the last
    block holds that block's text. *)
Theorem save_blocks_numbering url page_dir blocks fs saved fs' :
  save_blocks open_raises url page_dir blocks ∅ [] fs = (Return saved, fs') ->
  List.length saved = List.length blocks /\
  (forall pre b post, blocks = pre ++ b :: post ->
     saved !! List.length pre
     = Some (mk_saved_file url
               (os_path_join page_dir
                  (numbered (section_of b) (S (occurrences (section_of b) pre))))
               (b_name b) (b_language b))) /\
  (forall pre b mid b' post,
     blocks = pre ++ b :: mid ++ b' :: post -> section_of b = section_of b' ->
     os_path_join page_dir (numbered (section_of b) (S (occurrences (section_of b) pre)))
     <> os_path_join page_dir
          (numbered (section_of b')
             (S (occurrences (section_of b') (pre ++ b :: mid))))) /\
  (forall r, r ∈ saved -> is_Some (fs' !! sf_file r)) /\
  (forall pre b, blocks = pre ++ [b] ->
     fs' !! os_path_join page_dir
              (numbered (section_of b) (S (occurrences (section_of b) pre)))
     = Some (file_text url b)).
Proof.
  intros Hrun.
  destruct (save_blocks_invariant url page_dir blocks [] ∅ [] fs saved fs')
    as (recs & -> & Hlen & Hrec & Hlast & Hkeep & _ & Hdisk); [| exact Hrun |].
  { intros s. by rewrite lookup_empty. }
  cbn [app] in *. repeat apply conj.
  - exact Hlen.
  - intros pre b post H. exact (Hrec pre b post H).
  - intros pre b mid b' post _ Hsec Heq. rewrite <- Hsec in Heq.
    apply numbered_path_inj in Heq.
    rewrite occurrences_app in Heq.
    change (b :: mid) with ([b] ++ mid) in Heq.
    rewrite occurrences_app, occurrences_one, String.eqb_refl in Heq. lia.
  - intros r Hr. rewrite Forall_forall in Hdisk. by apply Hdisk.
  - intros pre b H. exact (Hlast pre b H).
Qed.

End SavingProofs.

(** ** The link handler of the site parser *)

Section LinkHandler.
Import PyStr WebSiteParser.

Lemma slice_from_append p : forall r, slice_from (String.length p) (p +:+ r) = r.
Proof.
  induction p as [| a p IH]; intros r; [by destruct r |].
  rewrite append_cons. cbn [String.length slice_from]. apply IH.
Qed.

Lemma startswith_slash c r :
  startswith "/" (String c r) = Ascii.eqb c "/".
Proof.
  unfold startswith. cbn [String.prefix].
  destruct (ascii_dec "/" c) as [<- | Hne].
  - by destruct r.
  - symmetry. apply Ascii.eqb_neq. congruence.
Qed.

(** X22: what [link_handler] makes of a link. On a non-empty [href] it
    returns; [js_skip] is 1 exactly on a link that ends in [.js], [.ico],
    [.ttf] or [.css], whatever its type comes to be; the type is
    ['external'] exactly on an [https://] link outside [url_base], and
    the link is then returned whole; otherwise it is ['internal'] exactly
    on a link under [url_base] or one that starts with a single slash;
    and an internal link under [url_base] that does not start with a
    slash is returned relative: [url_base] followed by it is the link. *)
Theorem link_handler_types url_base href :
  nonempty href = true ->
  exists js_skip link_out link_type,
    link_handler url_base href = Return (js_skip, link_out, link_type) /\
    (js_skip = 1 \/ js_skip = 0) /\
    (js_skip = 1 <->
     endswith ".js" href || endswith ".ico" href || endswith ".ttf" href
     || endswith ".css" href = true) /\
    (link_type = "external" <->
     startswith "https://" href = true /\ startswith url_base href = false) /\
    (link_type = "external" -> link_out = href) /\
    (link_type = "internal" <->
     (startswith "https://" href = false \/ startswith url_base href = true) /\
     (startswith url_base href = true \/
      startswith "/" href = true /\ startswith "//" href = false)) /\
    (startswith url_base href = true -> startswith "/" href = false ->
     link_type = "internal" /\ url_base +:+ link_out = href).
Proof.
  intros Hne. destruct href as [| c r]; [discriminate |]. clear Hne.
  unfold link_handler. rewrite startswith_slash.
  set (href := String c r).
  assert (Hhttps : Ascii.eqb c "/" = true -> startswith "https://" href = false).
  { intros Hc. apply Ascii.eqb_eq in Hc as ->. reflexivity. }
  assert (Hdouble : startswith "//" href = true -> Ascii.eqb c "/" = true).
  { unfold startswith, href. cbn [String.prefix].
    destruct (ascii_dec "/" c) as [<- | _]; [done | discriminate]. }
  assert (Hslice : startswith url_base href = true ->
                   url_base +:+ slice_from (String.length url_base) href = href).
  { intros Hbase. apply prefix_append in Hbase as [rel Hrel].
    rewrite Hrel at 1. rewrite slice_from_append. by rewrite Hrel. }
  destruct (startswith url_base href) eqn:Hbase;
    destruct (Ascii.eqb c "/") eqn:Hc;
    destruct (startswith "//" href) eqn:Hd;
    destruct (startswith "https://" href) eqn:Hs;
    try (specialize (Hhttps eq_refl); discriminate Hhttps);
    try (specialize (Hdouble eq_refl); discriminate Hdouble).
  all: destruct (endswith ".js" href), (endswith ".ico" href), (endswith ".ttf" href),
         (endswith ".css" href); cbn.
  all: eexists _, _, _; split; [reflexivity |].
  all: repeat apply conj; try (intuition congruence).
Qed.

End LinkHandler.

(** ** The instance between two calls of the fetcher *)

Section FetcherState.
Import PyFloat WebHtmlExtractor.

Variable network : nat -> request -> http_outcome.
Variable user_agent : nat -> string.
Variable urlsplit_scheme urlsplit_netloc : string -> string.
Variable self : settings.

Local Abbreviation fetch := (get_request_html network user_agent urlsplit_scheme
                               urlsplit_netloc self).

Lemma get_request_html_stores n : forall r url m ts_arg header data tout w,
  Z.to_nat (max_retry_times self + 1 - r) = n ->
  (0 <= default (time_sleep self) ts_arg)%Q ->
  exists d w',
    fetch url m ts_arg r header data tout w = (Return d, w') /\
    delete "User-Agent" (self_header w') = delete "User-Agent" (eff_header header w) /\
    self_data w' = eff_data data w.
Proof.
  induction n as [| n IH]; intros r url m ts_arg header data tout w Hn Hts.
  all: rewrite (grh_unfold network user_agent urlsplit_scheme urlsplit_netloc self)
         by exact Hts; cbn zeta.
  all: set (ts := default (time_sleep self) ts_arg) in *.
  all: set (w1 := after_prologue user_agent header data ts w).
  all: set (q := the_request url m (default (time_out self) tout) w1).
  all: assert (Hh : delete "User-Agent" (self_header (after_send q w1))
                    = delete "User-Agent" (eff_header header w))
         by (unfold eff_header, w1, after_prologue; cbn; destruct (truthy header);
             cbn; by rewrite ?delete_insert_eq).
  all: assert (Hd : self_data (after_send q w1) = eff_data data w)
         by (unfold eff_data, w1, after_prologue; cbn; by destruct (truthy data)).
  all: destruct (ok_response (network (List.length (sent w)) q)); [by eexists _, _ |].
  - destruct (decide (r <= max_retry_times self)); [lia |]. by eexists _, _.
  - destruct (decide (r <= max_retry_times self)); [| by eexists _, _].
    destruct (IH (r + 1) url m (Some (float_mul ts (3 # 2))) None None None (after_send q w1))
      as (d & w' & Hrun & Hh' & Hd').
    { lia. }
    { cbn. apply float_mul_nonneg; [exact Hts | discriminate]. }
    exists d, w'. split; [exact Hrun |].
    unfold eff_header, eff_data in Hh', Hd'. cbn [truthy] in Hh', Hd'.
    split; congruence.
Qed.

(** X23: the arguments of one call stay on the instance. After a call
    that was given a header and a payload, a later call that is given
    neither still returns, and every request it sends carries the payload
    of the earlier call and, but for the user agent, its header. *)
Theorem get_request_html_arguments_persist url1 m1 ts1 r1 h dt tout1 url2 ts2 r2 tout2 w :
  truthy (Some h) = true -> truthy (Some dt) = true ->
  (0 <= default (time_sleep self) ts1)%Q ->
  (0 <= default (time_sleep self) ts2)%Q ->
  exists d1 w1 d2 w2 q0 rest,
    get_request_html network user_agent urlsplit_scheme urlsplit_netloc self
      url1 m1 ts1 r1 (Some h) (Some dt) tout1 w = (Return d1, w1) /\
    get_request_html network user_agent urlsplit_scheme urlsplit_netloc self
      url2 post ts2 r2 None None tout2 w1 = (Return d2, w2) /\
    sent w2 = sent w1 ++ q0 :: rest /\
    Forall (request_of_call url2 post h dt) (q0 :: rest).
Proof.
  intros Hh Hdt Hts1 Hts2.
  destruct (get_request_html_stores _ r1 url1 m1 ts1 (Some h) (Some dt) tout1 w eq_refl Hts1)
    as (d1 & w1 & Hrun1 & Hh1 & Hd1).
  destruct (grh_trace network user_agent urlsplit_scheme urlsplit_netloc self
              _ r2 url2 post ts2 None None tout2 w1 eq_refl Hts2)
    as (d2 & w2 & q0 & rest & Hrun2 & Hsent & _ & _ & _ & _ & Hreqs & _).
  exists d1, w1, d2, w2, q0, rest.
  split; [exact Hrun1 |]. split; [exact Hrun2 |]. split; [exact Hsent |].
  eapply Forall_impl; [exact Hreqs |].
  intros q (Hu & Hm & Hq & Hqd). unfold request_of_call.
  unfold eff_header, eff_data in *. rewrite Hh in Hh1. rewrite Hdt in Hd1.
  cbn [truthy default from_option id] in *.
  repeat split; [exact Hu | exact Hm | congruence | congruence].
Qed.

End FetcherState.

(** ** The pool: how often a page can be fetched *)

Section PoolBound.
Import PyStr WebCrawler.

Variable unescape : string -> string.
Variable re_search re_search_ignorecase : string -> string -> bool.
Variable hash : string -> Z.
Variable re_sub : string -> string -> string -> string.
Variable urlparse_path : string -> string.
Variable web : nat -> string -> web_answer.
Variable parse : string -> page.
Variable urljoin : string -> string -> result string.
Variable urlparse_scheme urlparse_netloc : string -> string.
Variable start_url : string.
Variable max_depth : Z.

Local Abbreviation step := (pool_step unescape re_search re_search_ignorecase
   hash re_sub urlparse_path web parse urljoin urlparse_scheme urlparse_netloc
   start_url max_depth).

Lemma filter_length_le {A} (f : A -> bool) l :
  (List.length (List.filter f l) <= List.length l)%nat.
Proof. induction l as [| a l IH]; cbn; [lia |]. destruct (f a); cbn; lia. Qed.

Lemma filter_length_insert {A} (f : A -> bool) y : forall l i x,
  l !! i = Some x ->
  (List.length (List.filter f (<[i := y]> l)) + (if f x then 1 else 0)
   = List.length (List.filter f l) + (if f y then 1 else 0))%nat.
Proof.
  induction l as [| a l IH]; intros i x Hi; [done |].
  destruct i as [| i]; cbn in Hi |- *.
  - injection Hi as ->. destruct (f x) eqn:Hx, (f y) eqn:Hy; cbn; lia.
  - specialize (IH i x Hi). destruct (f a); cbn; [f_equal |]; exact IH.
Qed.

Lemma filter_length_delete {A} (f : A -> bool) : forall l i,
  (List.length (List.filter f (delete i l)) <= List.length (List.filter f l))%nat.
Proof.
  induction l as [| a l IH]; intros i; [by destruct i |].
  destruct i as [| i]; cbn.
  - destruct (f a); cbn; lia.
  - destruct (f a); cbn; [apply le_n_S |]; apply IH.
Qed.

Lemma times_app u l1 l2 : times u (l1 ++ l2) = (times u l1 + times u l2)%nat.
Proof. unfold times. by rewrite List.filter_app, length_app. Qed.

Lemma times_absent u l : u ∉ l -> times u l = 0%nat.
Proof.
  unfold times. induction l as [| a l IH]; intros Hl; [done |].
  apply not_elem_of_cons in Hl as [Hne Hl]. cbn.
  destruct (String.eqb u a) eqn:Hu; [apply String.eqb_eq in Hu; congruence |].
  by apply IH.
Qed.

Lemma times_NoDup u l : NoDup l -> (times u l <= 1)%nat.
Proof.
  induction 1 as [| a l Ha _ IH]; [cbn; lia |].
  change (a :: l) with ([a] ++ l). rewrite times_app.
  unfold times at 1. cbn. destruct (String.eqb u a) eqn:Hu; cbn; [| lia].
  apply String.eqb_eq in Hu as ->. rewrite (times_absent a l Ha). lia.
Qed.

Lemma committed_insert u l i t t' :
  l !! i = Some t ->
  (committed u (<[i := t']> l) + (if committed_to u t then 1 else 0)
   = committed u l + (if committed_to u t' then 1 else 0))%nat.
Proof. apply filter_length_insert. Qed.

Lemma pool_step_bounded max_threads a p p' :
  step max_threads a p = Some p' ->
  fetch_bounded max_threads p -> fetch_bounded max_threads p'.
Proof.
  intros Hstep (Hlen & Hsub & Hmarked & Hsum).
  destruct a as [| i | i]; unfold pool_step in Hstep.
  - destruct (url_queue (shared p)) as [| [url depth] q]; [done |].
    destruct (List.length (futures p) <? max_threads)%nat eqn:Hfree; [| done].
    apply Nat.ltb_lt in Hfree.
    destruct (already_processed url (shared p)); injection Hstep as <-.
    + by repeat split.
    + unfold fetch_bounded; cbn. repeat apply conj.
      * rewrite length_app. cbn. lia.
      * exact Hsub.
      * apply Forall_app. split; [exact Hmarked |]. by constructor.
      * intros u. unfold committed. rewrite List.filter_app, length_app. cbn.
        unfold committed_to at 2. cbn. rewrite andb_false_r. cbn.
        rewrite Nat.add_0_r. apply Hsum.
  - destruct (futures p !! i) as [t |] eqn:Hi; [| done].
    destruct (task_at t); try done. injection Hstep as <-.
    unfold fetch_bounded; cbn. repeat apply conj.
    + pose proof (length_delete (futures p) i ltac:(eauto)). lia.
    + exact Hsub.
    + by apply Forall_delete.
    + intros u. pose proof (filter_length_delete (committed_to u) (futures p) i).
      specialize (Hsum u). unfold times, committed in *. lia.
  - destruct (futures p !! i) as [t |] eqn:Hi; [| done].
    assert (Ht : task_at t = Marked -> task_url t ∈ processed_urls (shared p)).
    { rewrite Forall_forall in Hmarked. apply Hmarked. by eapply list_elem_of_lookup_2. }
    unfold advance in Hstep.
    destruct (task_at t) eqn:Hat; [| | | done].
    + unfold already_processed in Hstep. case_bool_decide as Hseen; injection Hstep as <-.
      * unfold fetch_bounded; cbn. repeat apply conj.
        -- by rewrite length_insert.
        -- exact Hsub.
        -- apply Forall_insert; [exact Hmarked | done].
        -- intros u. specialize (Hsum u).
           pose proof (committed_insert u (futures p) i t
                         (mk_task (task_url t) (task_depth t) Finished) Hi) as Hc.
           unfold committed_to in Hc at 1 2. rewrite Hat in Hc. cbn in Hc.
           rewrite !andb_false_r in Hc. unfold times, committed in *. lia.
      * unfold fetch_bounded; cbn. repeat apply conj.
        -- by rewrite length_insert.
        -- exact Hsub.
        -- apply Forall_insert; [exact Hmarked | done].
        -- intros u. destruct (String.eqb (task_url t) u) eqn:Hu.
           ++ apply String.eqb_eq in Hu as <-.
              rewrite times_absent by (intros Hin; by apply Hseen, Hsub).
              pose proof (filter_length_le (committed_to (task_url t))
                            (<[i := mk_task (task_url t) (task_depth t) Checked]> (futures p))).
              rewrite length_insert in H. unfold committed. lia.
           ++ specialize (Hsum u).
              pose proof (committed_insert u (futures p) i t
                            (mk_task (task_url t) (task_depth t) Checked) Hi) as Hc.
              unfold committed_to in Hc at 1 2. cbn in Hc. rewrite Hu in Hc. cbn in Hc.
              unfold times, committed in *. lia.
    + injection Hstep as <-. unfold fetch_bounded, mark_processed; cbn. repeat apply conj.
      * by rewrite length_insert.
      * intros u Hu. apply elem_of_union_r. by apply Hsub.
      * apply Forall_insert.
        -- eapply Forall_impl; [exact Hmarked |]. intros t0 H0 Hm.
           apply elem_of_union_r. by apply H0.
        -- intros _. cbn. by apply elem_of_union_l, elem_of_singleton.
      * intros u. specialize (Hsum u).
        pose proof (committed_insert u (futures p) i t
                      (mk_task (task_url t) (task_depth t) Marked) Hi) as Hc.
        unfold committed_to in Hc at 1 2. rewrite Hat in Hc. cbn in Hc.
        unfold times, committed in *.
        destruct (String.eqb (task_url t) u); cbn in *; lia.
    + injection Hstep as <-.
      destruct (fetch_and_extract_adds unescape re_search re_search_ignorecase hash
                  re_sub urlparse_path web parse urljoin urlparse_scheme
                  urlparse_netloc start_url max_depth (task_url t) (task_depth t)
                  (shared p)) as (added & Hp' & Hf' & _).
      unfold fetch_bounded; cbn. rewrite Hf', Hp'. repeat apply conj.
      * by rewrite length_insert.
      * intros u Hu. apply elem_of_app in Hu as [Hu | Hu]; [by apply Hsub |].
        apply list_elem_of_singleton in Hu as ->. by apply Ht.
      * apply Forall_insert; [exact Hmarked | done].
      * intros u. specialize (Hsum u). rewrite times_app.
        pose proof (committed_insert u (futures p) i t
                      (mk_task (task_url t) (task_depth t) Finished) Hi) as Hc.
        unfold committed_to in Hc at 1 2. rewrite Hat in Hc. cbn in Hc.
        rewrite andb_false_r, andb_true_r in Hc.
        unfold times at 2. cbn. rewrite String.eqb_sym.
        unfold times, committed in *.
        destruct (String.eqb (task_url t) u); cbn in *; lia.
Qed.

(** X24: the workers bound the damage of the race. Under every
    schedule, a pool of [max_threads] workers, one at least, fetches no
    URL more than [max_threads] times. *)
Theorem pool_fetches_bounded max_threads schedule d p u :
  (1 <= max_threads)%nat ->
  pool_run unescape re_search re_search_ignorecase hash re_sub urlparse_path web
    parse urljoin urlparse_scheme urlparse_netloc start_url max_depth max_threads
    schedule
    (pool_start unescape re_search re_search_ignorecase hash re_sub urlparse_path
       web parse urljoin urlparse_scheme urlparse_netloc start_url max_depth d)
  = Some p ->
  (times u (fetched (shared p)) <= max_threads)%nat.
Proof.
  intros Hone Hrun.
  assert (H : fetch_bounded max_threads p).
  { eapply (pool_run_invariant unescape re_search re_search_ignorecase hash re_sub
              urlparse_path web parse urljoin urlparse_scheme urlparse_netloc
              start_url max_depth (fetch_bounded max_threads));
      [| exact Hrun |].
    - intros a p1 p2. apply pool_step_bounded.
    - destruct (start_orderly unescape re_search re_search_ignorecase hash re_sub
                  urlparse_path web parse urljoin urlparse_scheme urlparse_netloc
                  start_url max_depth d) as (_ & _ & Hnd & Hsub).
      unfold fetch_bounded, pool_start; cbn. repeat apply conj; [lia | exact Hsub | constructor |].
      intros v. pose proof (times_NoDup v _ Hnd). unfold committed. cbn. lia. }
  destruct H as (_ & _ & _ & Hsum). specialize (Hsum u). lia.
Qed.

End PoolBound.

(** *** Concrete runs *)

Section MoreRuns.
Import PyFloat PyStr WebHtmlExtractor WebHtmlExtractorFiles WebCrawler.
Import Html2Text WebSiteParser.

Lemma get_request_html_first_success_witness :
  (0 <= default (time_sleep default_settings) None)%Q /\
  1 + Z.of_nat 2 <= max_retry_times default_settings + 1 /\
  exists w',
    get_request_html up_on_third fixed_agent example_scheme example_netloc
      default_settings "https://example.com/" get None 1 None None None idle
      = (Return {| url_of := "https://example.com/home";
                   host_url := "https://example.com";
                   text := Some "<html></html>"; status := true |}, w') /\
    List.length (sent w') = 3%nat /\
    slept w' = [1; 3 # 2; 9 # 4]%Q.
Proof.
  assert (H0 : (0 <= default (time_sleep default_settings) None)%Q)
    by (unfold Qle; simpl; lia).
  assert (H1 : 1 + Z.of_nat 2 <= max_retry_times default_settings + 1) by (simpl; lia).
  assert (H2 : forall i q, (i < 2)%nat ->
                 ok_response (up_on_third (List.length (sent idle) + i) q) = false)
    by (intros [| [| i]] q Hi; [reflexivity | reflexivity | lia]).
  assert (H3 : forall q, req_url q = "https://example.com/" ->
                 up_on_third (List.length (sent idle) + 2) q
                 = Responded (mk_response 200 "https://example.com/home" "<html></html>"))
    by (intros; reflexivity).
  split; [exact H0 | split; [exact H1 |]].
  exact (get_request_html_first_success up_on_third fixed_agent example_scheme
           example_netloc default_settings 2 "https://example.com/" get None 1 None
           None None idle (mk_response 200 "https://example.com/home" "<html></html>")
           H0 H1 H2 H3 eq_refl).
Defined.

Lemma get_request_html_negative_delay_witness :
  (default (time_sleep default_settings) (Some (-1 # 2)) < 0)%Q /\
  exists w',
    get_request_html always_500 fixed_agent example_scheme example_netloc
      default_settings "https://example.com/" get (Some (-1 # 2)%Q) 1 None None None idle
      = (Raise ValueError, w') /\
    sent w' = sent idle /\ slept w' = slept idle.
Proof.
  assert (H0 : (default (time_sleep default_settings) (Some (-1 # 2)) < 0)%Q)
    by (unfold Qlt; simpl; lia).
  split; [exact H0 |].
  exact (get_request_html_negative_delay always_500 fixed_agent example_scheme
           example_netloc default_settings "https://example.com/" get
           (Some (-1 # 2)%Q) 1 None None None idle H0).
Defined.

Lemma get_selenium_html_exhausted_witness :
  (0 <= default (time_sleep default_settings) None)%Q /\
  (forall k, session_fails "https://example.com/" (dead_browser k)) /\
  exists w',
    get_selenium_html fixed_agent dead_browser example_scheme example_netloc
      default_settings "https://example.com/" get None 1 true None idle
      = (Return (failure_dict example_scheme example_netloc "https://example.com/"), w') /\
    drivers_created w' = 4%nat /\
    sent w' = sent idle.
Proof.
  assert (H0 : (0 <= default (time_sleep default_settings) None)%Q)
    by (unfold Qle; simpl; lia).
  assert (H1 : forall k, session_fails "https://example.com/" (dead_browser k))
    by (intros k t; reflexivity).
  split; [exact H0 | split; [exact H1 |]].
  exact (get_selenium_html_exhausted fixed_agent dead_browser example_scheme
           example_netloc default_settings "https://example.com/" None true None
           idle H0 H1).
Defined.

Lemma get_selenium_html_other_error_witness :
  (0 <= default (time_sleep default_settings) None)%Q /\
  is_selenium_error (OtherError 0) = false /\
  session_breaks "https://example.com/" (OtherError 0)
    (broken_browser (drivers_created idle)) /\
  exists w',
    get_selenium_html fixed_agent broken_browser example_scheme example_netloc
      default_settings "https://example.com/" get None 1 true None idle
      = (Raise (OtherError 0), w') /\
    drivers_created w' = 1%nat /\
    sent w' = sent idle.
Proof.
  assert (H0 : (0 <= default (time_sleep default_settings) None)%Q)
    by (unfold Qle; simpl; lia).
  assert (H1 : is_selenium_error (OtherError 0) = false) by reflexivity.
  assert (H2 : session_breaks "https://example.com/" (OtherError 0)
                 (broken_browser (drivers_created idle)))
    by (intros t; right; reflexivity).
  split; [exact H0 | split; [exact H1 | split; [exact H2 |]]].
  exact (get_selenium_html_other_error fixed_agent broken_browser example_scheme
           example_netloc default_settings "https://example.com/" None 1 true None
           idle (OtherError 0) H0 H1 H2).
Defined.

(** The state of a crawl of [seed] that has processed nothing yet. *)
Local Abbreviation fresh := (mk_state ∅ [] [] [] empty_disk []).

(** A malformed link on a page that answered 200: [urljoin] raises inside
    the [try] block, the handler of line 127 makes [process_url] return
    [None], yet the line of the page is in the HTML file already, the
    link before the malformed one stays queued and the one after it is
    never looked at. *)
Example process_url_malformed_link :
  let out := process_url no_entities no_match no_match length_hash plain_re_sub
               path_of_example serve_all site_malformed_link strict_urljoin https
               example_com seed 2 seed 1 fresh in
  fst out = None /\
  map hd_url (html_file (snd out)) = [seed] /\
  url_queue (snd out) = [(page_a, 2)] /\
  fetched (snd out) = [seed].
Proof. vm_compute. repeat split; reflexivity. Qed.

Lemma process_url_failed_fetch_witness :
  page_a ∉ processed_urls fresh /\
  (forall text, serve_404 (List.length (fetched fresh)) page_a <> Answered 200 text) /\
  process_url no_entities no_match no_match length_hash plain_re_sub path_of_example
    serve_404 site_A absolute_urljoin https example_com seed 3 page_a 2 fresh
  = (None, mk_state ({[page_a]} ∪ ∅) [] [] [] empty_disk ([] ++ [page_a])).
Proof.
  assert (H0 : page_a ∉ processed_urls fresh) by apply not_elem_of_empty.
  assert (H1 : forall text,
                 serve_404 (List.length (fetched fresh)) page_a <> Answered 200 text)
    by (intros text; discriminate).
  split; [exact H0 | split; [exact H1 |]].
  exact (process_url_failed_fetch no_entities no_match no_match length_hash plain_re_sub
           path_of_example serve_404 site_A absolute_urljoin https example_com seed 3
           page_a 2 fresh H0 H1).
Defined.

Lemma crawl_later_deadline_witness :
  url_queue (crawl no_entities no_match no_match length_hash plain_re_sub
               path_of_example serve_all site_A absolute_urljoin https example_com
               seed 2 3%nat empty_disk) = [] /\
  crawl no_entities no_match no_match length_hash plain_re_sub path_of_example
    serve_all site_A absolute_urljoin https example_com seed 2 (3 + 7)%nat empty_disk
  = crawl no_entities no_match no_match length_hash plain_re_sub path_of_example
      serve_all site_A absolute_urljoin https example_com seed 2 3%nat empty_disk.
Proof.
  assert (H0 : url_queue (crawl no_entities no_match no_match length_hash plain_re_sub
                            path_of_example serve_all site_A absolute_urljoin https
                            example_com seed 2 3%nat empty_disk) = [])
    by (vm_compute; reflexivity).
  split; [exact H0 |].
  exact (proj2 (crawl_later_deadline no_entities no_match no_match length_hash
                  plain_re_sub path_of_example serve_all site_A absolute_urljoin https
                  example_com seed 2 3%nat 7%nat empty_disk) H0).
Defined.

(** The pool on the site whose seed links twice to one page. *)
Local Abbreviation twin_pool max_threads schedule :=
  (pool_run no_entities no_match no_match length_hash plain_re_sub path_of_example
     serve_all site_twin_links absolute_urljoin https example_com seed 2 max_threads
     schedule
     (pool_start no_entities no_match no_match length_hash plain_re_sub
        path_of_example serve_all site_twin_links absolute_urljoin https
        example_com seed 2 empty_disk)).

Lemma pool_stays_in_scope_witness :
  exists p,
    twin_pool 2%nat racing_schedule = Some p /\
    Forall (in_scope https example_com seed) (fetched (shared p)) /\
    Forall (fun t => in_scope https example_com seed (task_url t)) (futures p) /\
    Forall (fun entry => in_scope https example_com seed (fst entry))
      (url_queue (shared p)).
Proof.
  assert (H : is_Some (twin_pool 2%nat racing_schedule)) by (vm_compute; eauto).
  destruct H as [p H]. exists p. split; [exact H |].
  exact (pool_stays_in_scope no_entities no_match no_match length_hash plain_re_sub
           path_of_example serve_all site_twin_links absolute_urljoin https
           example_com seed 2 2%nat racing_schedule empty_disk p H).
Defined.

Lemma pool_one_worker_no_refetch_witness :
  exists p,
    twin_pool 1%nat serial_schedule = Some p /\
    NoDup (fetched (shared p)) /\
    (forall u, u ∈ fetched (shared p) -> u ∈ processed_urls (shared p)).
Proof.
  assert (H : is_Some (twin_pool 1%nat serial_schedule)) by (vm_compute; eauto).
  destruct H as [p H]. exists p. split; [exact H |].
  exact (pool_one_worker_no_refetch no_entities no_match no_match length_hash
           plain_re_sub path_of_example serve_all site_twin_links absolute_urljoin
           https example_com seed 2 serial_schedule empty_disk p H).
Defined.

(** The serial schedule, spelled out: the second link to the page is
    dropped by the dispatcher, and the page is fetched once. *)
Example serial_schedule_run :
  option_map (fun p => fetched (shared p)) (twin_pool 1%nat serial_schedule)
  = Some [seed; page_a].
Proof. vm_compute. reflexivity. Qed.

Lemma extract_code_blocks_files_witness :
  exists blocks texts,
    fst (extract_code_blocks no_entities no_match no_match length_hash plain_re_sub
           path_of_example page_twice page_a "data/code/example_com" empty_disk)
    = Return blocks /\
    emitted (snd (extract_code_blocks no_entities no_match no_match length_hash
                    plain_re_sub path_of_example page_twice page_a
                    "data/code/example_com" empty_disk))
    = emitted empty_disk ++ texts /\
    NoDup (map cb_file blocks) /\
    Forall (fun t => (15 <= String.length (strip t))%nat) texts.
Proof.
  assert (H : fst (extract_code_blocks no_entities no_match no_match length_hash
                     plain_re_sub path_of_example page_twice page_a
                     "data/code/example_com" empty_disk)
              = Return [mk_code_block page_a "data/code/example_com/a/Code_Example.md"
                          "Code Example" "text"])
    by (vm_compute; reflexivity).
  destruct (extract_code_blocks_files no_entities no_match no_match length_hash
              plain_re_sub path_of_example page_twice page_a "data/code/example_com"
              empty_disk _ H) as (texts & Hem & _ & Hnd & Hlen).
  eexists _, texts. split; [exact H |]. split; [exact Hem |]. split; [exact Hnd | exact Hlen].
Defined.

Lemma detect_language_explicit_token_witness :
  class_tokens objc_block = [] ++ "language-objective-c" :: [] /\
  Forall (fun t => class_rules t = None) [] /\
  startswith "language-" "language-objective-c" = true /\
  exists x tail,
    _detect_language no_match no_match objc_block = Return x /\
    has_char "-" x = false /\
    "language-objective-c" = "language-" +:+ x +:+ tail /\
    (tail = "" \/ exists rest, tail = String "-" rest).
Proof.
  assert (H1 : class_tokens objc_block = [] ++ "language-objective-c" :: [])
    by reflexivity.
  assert (H2 : Forall (fun t => class_rules t = None) []) by constructor.
  assert (H3 : startswith "language-" "language-objective-c" = true) by reflexivity.
  split; [exact H1 | split; [exact H2 | split; [exact H3 |]]].
  exact (detect_language_explicit_token no_match no_match objc_block []
           "language-objective-c" [] H1 H2 H3).
Defined.

(** That label, spelled out. *)
Example objective_c_label :
  _detect_language no_match no_match objc_block = Return "objective".
Proof. vm_compute. reflexivity. Qed.

(** The saving methods against a server that answers 200 everywhere, on
    a page with the links of [home_links]. *)
Local Abbreviation one_jump writable :=
  (save_1_jump_url_in_base always_200 fixed_agent dead_browser example_scheme
     example_netloc default_settings home_links absolute writable makedirs_ok
     "https://example.com/" None requests get None None "data/html/pages.jsonl"
     overwrite ∅ idle).


(** That run, spelled out: the link of the page to itself and the second
    link to the documentation are dropped, the link elsewhere is out of
    the prefix; two pages are fetched and written. *)
Example one_jump_run :
  option_map (map url_of) (snd (fst (one_jump all_writable)) !! "data/html/pages.jsonl")
  = Some ["https://example.com/"; "https://example.com/docs"] /\
  map req_url (sent (snd (one_jump all_writable)))
  = ["https://example.com/"; "https://example.com/docs"].
Proof. vm_compute. split; reflexivity. Qed.

(** A page with a malformed link: the extraction raises what [urljoin]
    raises, and the call that saves the page and its links raises it too
    after the one request for the base page, with no file written, not
    even for the base page, although the link before the malformed one
    is well formed. *)
Example malformed_link_run :
  let page := {| url_of := "https://example.com/"; host_url := "https://example.com";
                 text := Some "<html></html>"; status := true |} in
  let out := save_1_jump_url_in_base always_200 fixed_agent dead_browser example_scheme
               example_netloc default_settings broken_links strict_urljoin all_writable
               makedirs_ok "https://example.com/" None requests get None None
               "data/html/pages.jsonl" overwrite ∅ idle in
  get_link_sub_url_list example_scheme example_netloc broken_links strict_urljoin page
    None = Raise ValueError /\
  get_link_sub_url_list example_scheme example_netloc broken_links absolute page None
  = Return ["https://example.com/"; "https://example.com/docs"] /\
  fst (fst out) = Raise ValueError /\
  snd (fst out) = ∅ /\
  map req_url (sent (snd out)) = ["https://example.com/"].
Proof. vm_compute. repeat split; reflexivity. Qed.

Lemma save_url_html_reports_fetch_witness :
  (0 <= default (time_sleep default_settings) None)%Q /\
  makedirs_ok "data/html/pages.jsonl" = None /\
  exists d w',
    save_url_html always_200 fixed_agent dead_browser example_scheme example_netloc
      default_settings read_only makedirs_ok "https://example.com/" requests get
      None None "data/html/pages.jsonl" overwrite ∅ idle
    = (Return (status d),
       if status d && read_only "data/html/pages.jsonl"
       then <["data/html/pages.jsonl" := [] ++ [d]]> ∅ else ∅,
       w').
Proof.
  assert (H0 : (0 <= default (time_sleep default_settings) None)%Q)
    by (unfold Qle; simpl; lia).
  assert (H1 : makedirs_ok "data/html/pages.jsonl" = None) by reflexivity.
  split; [exact H0 | split; [exact H1 |]].
  destruct (proj2 (save_url_html_reports_fetch always_200 fixed_agent dead_browser
                     example_scheme example_netloc default_settings read_only
                     makedirs_ok "https://example.com/" get None None
                     "data/html/pages.jsonl" overwrite ∅ idle H0) H1)
    as (d & w' & _ & Hrun & _).
  exists d, w'. exact Hrun.
Defined.

(** That run, spelled out: the answer is [True] and there is no file. *)
Example save_url_html_read_only :
  let out := save_url_html always_200 fixed_agent dead_browser example_scheme
               example_netloc default_settings read_only makedirs_ok
               "https://example.com/" requests get None None "data/html/pages.jsonl"
               overwrite ∅ idle in
  fst (fst out) = Return true /\ snd (fst out) = ∅.
Proof. vm_compute. split; reflexivity. Qed.

Lemma save_blocks_numbering_witness :
  exists saved fs',
    save_blocks opens "https://example.com/a" "data/code/example_com/a" clashing_blocks
      ∅ [] ∅ = (Return saved, fs') /\
    List.length saved = List.length clashing_blocks /\
    (forall r, r ∈ saved -> is_Some (fs' !! sf_file r)).
Proof.
  assert (H : exists saved fs',
                save_blocks opens "https://example.com/a" "data/code/example_com/a"
                  clashing_blocks ∅ [] ∅ = (Return saved, fs'))
    by (eexists _, _; vm_compute; reflexivity).
  destruct H as (saved & fs' & H). exists saved, fs'. split; [exact H |].
  destruct (save_blocks_numbering opens "https://example.com/a"
              "data/code/example_com/a" clashing_blocks ∅ saved fs' H)
    as (Hlen & _ & _ & Hdisk & _).
  split; [exact Hlen | exact Hdisk].
Defined.

(** That run, spelled out. The numbering keeps the two blocks named
    [setup] apart, but the second of them and the block named [setup_2]
    get one file: three records, two files, and the shared file holds
    the text of the later block. *)
Example clashing_blocks_run :
  let out := save_blocks opens "https://example.com/a" "data/code/example_com/a"
               clashing_blocks ∅ [] ∅ in
  match fst out with
  | Return saved => map sf_file saved
  | Raise _ => []
  end = ["data/code/example_com/a/setup.md"; "data/code/example_com/a/setup_2.md";
         "data/code/example_com/a/setup_2.md"] /\
  size (snd out) = 2%nat /\
  snd out !! "data/code/example_com/a/setup_2.md"
  = Some (Html2Text.file_text "https://example.com/a" (mk_block "text" "setup_2" "c = 3")).
Proof. vm_compute. repeat split. Qed.

Lemma link_handler_types_witness :
  nonempty "https://example.com/docs/app.js" = true /\
  exists js_skip link_out link_type,
    link_handler "https://example.com" "https://example.com/docs/app.js"
    = Return (js_skip, link_out, link_type) /\
    (js_skip = 1 \/ js_skip = 0) /\
    (link_type = "external" -> link_out = "https://example.com/docs/app.js").
Proof.
  assert (H : nonempty "https://example.com/docs/app.js" = true) by reflexivity.
  split; [exact H |].
  destruct (link_handler_types "https://example.com" "https://example.com/docs/app.js" H)
    as (js_skip & link_out & link_type & Hrun & Hjs & _ & _ & Hext & _).
  exists js_skip, link_out, link_type. split; [exact Hrun |]. split; [exact Hjs | exact Hext].
Defined.

(** That link, spelled out: a script of the site is typed by where it
    is, not by what it is, and keeps its mark. *)
Example link_handler_script :
  link_handler "https://example.com" "https://example.com/docs/app.js"
  = Return (1, "/docs/app.js", "internal").
Proof. vm_compute. reflexivity. Qed.

Lemma get_request_html_arguments_persist_witness :
  truthy (Some caller_header) = true /\ truthy (Some caller_data) = true /\
  (0 <= default (time_sleep default_settings) None)%Q /\
  exists d1 w1 d2 w2 q0 rest,
    get_request_html always_500 fixed_agent example_scheme example_netloc
      default_settings "https://example.com/search" post None 1 (Some caller_header)
      (Some caller_data) None idle = (Return d1, w1) /\
    get_request_html always_500 fixed_agent example_scheme example_netloc
      default_settings "https://example.com/other" post None 1 None None None w1
    = (Return d2, w2) /\
    sent w2 = sent w1 ++ q0 :: rest /\
    Forall (request_of_call "https://example.com/other" post caller_header caller_data)
      (q0 :: rest).
Proof.
  assert (H1 : truthy (Some caller_header) = true) by (vm_compute; reflexivity).
  assert (H2 : truthy (Some caller_data) = true) by (vm_compute; reflexivity).
  assert (H0 : (0 <= default (time_sleep default_settings) None)%Q)
    by (unfold Qle; simpl; lia).
  split; [exact H1 | split; [exact H2 | split; [exact H0 |]]].
  exact (get_request_html_arguments_persist always_500 fixed_agent example_scheme
           example_netloc default_settings "https://example.com/search" post None 1
           caller_header caller_data None "https://example.com/other" None 1 None
           idle H1 H2 H0 H0).
Defined.

Lemma pool_fetches_bounded_witness :
  (1 <= 2)%nat /\
  exists p,
    twin_pool 2%nat racing_schedule = Some p /\
    (times page_a (fetched (shared p)) <= 2)%nat.
Proof.
  assert (H0 : (1 <= 2)%nat) by lia.
  split; [exact H0 |].
  assert (H : is_Some (twin_pool 2%nat racing_schedule)) by (vm_compute; eauto).
  destruct H as [p H]. exists p. split; [exact H |].
  exact (pool_fetches_bounded no_entities no_match no_match length_hash plain_re_sub
           path_of_example serve_all site_twin_links absolute_urljoin https
           example_com seed 2 2%nat racing_schedule empty_disk p page_a H0 H).
Defined.

End MoreRuns.
